(** * Mini-Server: a shallow embedding of [mini_server.py]

    The development follows the layout of the Python module: HTTP helpers
    ([http_response], [json_response], [parse_request], [read_exact],
    [recv_http]), the router ([route]), the handlers and the per-connection
    dispatcher ([handle_client]).

    Data model.
    - A Python [str] is a [string]; its characters are [ascii] values.  Every
      literal of the program (paths, methods, header names) is ASCII.
    - A Python [bytes] is a [list byte].
    - A Python [int] is a [Z].
    - A Python [dict] that is iterated or updated in insertion order is an
      association list ([dict]).
    - Functions of the Python runtime library whose definition is not part of
      the module ([int] on a [str], [bytes.decode], [str.upper], [str.lower],
      [urlparse], [unquote], [json.loads], [json.dumps], [float] arithmetic)
      are the fields of the class [PyLib]: every theorem holds for whatever
      the library does.
    - An exception is a value of [exn]; a function that can raise returns a
      [result].
    - A connection is the list of the segments it still has to deliver
      ([socket]); [recv] takes the next one and does not fail.
    - [STATE] is passed through the handlers ([M]); a call of [handle_client]
      runs from its first line to its last with no other worker in between.
    - [time.time()] is the argument [now] of the functions that call it. *)

From Stdlib Require Import List String Ascii ZArith Lia Bool DecimalString.
From Stdlib Require Import Relations.
From Stdlib Require Import Strings.Byte.
From Equations Require Import Equations.
From Equations.Prop Require Import Logic.
Import ListNotations.

Set Warnings "-register-all".

Open Scope list_scope.
Open Scope string_scope.
Open Scope Z_scope.

Definition str := string.
Definition bytes := list byte.

(** ** Exceptions and results *)

Inductive exn : Type :=
| ValueError (msg : str)
| AttributeError (msg : str)
| TypeError (msg : str)
| KeyError (msg : str)
| IndexError (msg : str)
| OSError (msg : str)
| LibraryError (msg : str).

(** [str(e)] *)
Definition str_of_exn (e : exn) : str :=
  match e with
  | ValueError m | AttributeError m | TypeError m
  | KeyError m | IndexError m | OSError m | LibraryError m => m
  end.

Inductive result (A : Type) : Type :=
| Return (a : A)
| Raise (e : exn).
Arguments Return {A} a.
Arguments Raise {A} e.

(** ** Python values, as [json.loads] builds them and [json.dumps] reads them *)

Inductive pyval (float : Type) : Type :=
| PNone
| PBool (b : bool)
| PInt (n : Z)
| PFloat (x : float)
| PStr (s : str)
| PList (l : list (pyval float))
| PDict (d : list (str * pyval float)).
Arguments PNone {float}.
Arguments PBool {float} b.
Arguments PInt {float} n.
Arguments PFloat {float} x.
Arguments PStr {float} s.
Arguments PList {float} l.
Arguments PDict {float} d.

(** The three ways a call of [json.loads] ends: a value, a [JSONDecodeError],
    or another exception (a [UnicodeDecodeError] on bytes that are not text,
    a [RecursionError]). *)
Inductive loads_result (float : Type) : Type :=
| Loaded (v : pyval float)
| JSONDecodeError (msg : str)
| LoadFault (e : exn).
Arguments Loaded {float} v.
Arguments JSONDecodeError {float} msg.
Arguments LoadFault {float} e.

(** ** The runtime library *)

Class PyLib (float : Type) : Type := {
  (** [int(s)] on a [str]; [None] is [ValueError] *)
  int_of_str : str -> option Z;
  (** [b.decode("utf-8", errors="replace")] *)
  decode : bytes -> str;
  (** [s.upper()] and [s.lower()] *)
  upper : str -> str;
  lower : str -> str;
  (** [urlparse(target)]: the [path] and [query] components, or the
      exception it raises *)
  urlparse : str -> result (str * str);
  (** [urllib.parse.unquote(s, encoding="utf-8", errors="replace")] *)
  unquote : str -> str;
  (** [json.loads(b)] *)
  json_loads : bytes -> loads_result float;
  (** [json.dumps(obj, ensure_ascii=False, indent=2)] *)
  json_dumps : pyval float -> str;
  (** [bool(x)] on a float, [x - y], and [round(x, 2)] *)
  float_bool : float -> bool;
  float_sub : float -> float -> float;
  float_round2 : float -> float
}.

(** ** Operations on [str] *)

(** [s.startswith(p)] *)
Definition startswith (s p : str) : bool := String.prefix p s.

(** The first occurrence of the character [sep]: what is before it and what
    is after it. *)
Fixpoint cut (sep : ascii) (s : str) : option (str * str) :=
  match s with
  | EmptyString => None
  | String c r =>
      if Ascii.eqb c sep then Some (EmptyString, r)
      else match cut sep r with
           | Some (a, b) => Some (String c a, b)
           | None => None
           end
  end.

(** [s.split(sep, maxsplit)] for a one-character separator *)
Fixpoint split_max (sep : ascii) (maxsplit : nat) (s : str) : list str :=
  match maxsplit with
  | O => [s]
  | S n =>
      match cut sep s with
      | None => [s]
      | Some (a, b) => a :: split_max sep n b
      end
  end.

(** [s.split(sep)] for a one-character separator *)
Fixpoint split_all (sep : ascii) (s : str) : list str :=
  match s with
  | EmptyString => [EmptyString]
  | String c r =>
      if Ascii.eqb c sep then EmptyString :: split_all sep r
      else match split_all sep r with
           | h :: t => String c h :: t
           | [] => [String c EmptyString]
           end
  end.

(** [sep in s] for a one-character [sep] *)
Definition contains_char (sep : ascii) (s : str) : bool :=
  match cut sep s with Some _ => true | None => false end.

(** [s.replace(a, b)] for one-character [a] and [b] *)
Fixpoint replace_char (a b : ascii) (s : str) : str :=
  match s with
  | EmptyString => EmptyString
  | String c r => String (if Ascii.eqb c a then b else c) (replace_char a b r)
  end.

(** [c.isspace()] on the code points below 256: tab to carriage return, the
    four separators 0x1c to 0x1f, space, NEL (0x85) and no-break space
    (0xa0). *)
Definition isspace (c : ascii) : bool :=
  let n := N_of_ascii c in
  ((9 <=? n) && (n <=? 13) || (28 <=? n) && (n <=? 32)
   || (n =? 133) || (n =? 160))%N.

Fixpoint lstrip (s : str) : str :=
  match s with
  | EmptyString => EmptyString
  | String c r => if isspace c then lstrip r else s
  end.

Fixpoint rstrip (s : str) : str :=
  match s with
  | EmptyString => EmptyString
  | String c r =>
      match rstrip r with
      | EmptyString => if isspace c then EmptyString else String c EmptyString
      | r' => String c r'
      end
  end.

(** [s.strip()] *)
Definition strip (s : str) : str := rstrip (lstrip s).

(** [s.split()]: the maximal runs of characters that are not whitespace.
    [cur] is the run being read, in reverse. *)
Fixpoint split_ws_aux (cur : list ascii) (s : str) : list str :=
  let flush (rest : list str) : list str :=
    match cur with
    | [] => rest
    | _ => string_of_list_ascii (rev cur) :: rest
    end in
  match s with
  | EmptyString => flush []
  | String c r =>
      if isspace c then flush (split_ws_aux [] r)
      else split_ws_aux (c :: cur) r
  end.

Definition split_ws (s : str) : list str := split_ws_aux [] s.

(** [str(n)] for an [int] *)
Definition str_of_int (n : Z) : str := NilZero.string_of_int (Z.to_int n).

(** [s.encode("utf-8")] on code points below 256: one byte below 128, two
    bytes from 128 on. *)
Definition encode_char (c : ascii) : bytes :=
  let n := N_of_ascii c in
  if (n <? 128)%N then [byte_of_ascii c]
  else
    match Byte.of_N (192 + N.shiftr n 6), Byte.of_N (128 + N.land n 63) with
    | Some hi, Some lo => [hi; lo]
    | _, _ => []
    end.

Fixpoint encode (s : str) : bytes :=
  match s with
  | EmptyString => []
  | String c r => (encode_char c ++ encode r)%list
  end.

(** A [bytes] literal *)
Definition b (s : string) : bytes := list_byte_of_string s.

Definition CR : ascii := ascii_of_nat 13.
Definition LF : ascii := ascii_of_nat 10.
Definition CRLF : str := String CR (String LF EmptyString).

(** ** Dictionaries in insertion order *)

Definition dict (V : Type) : Type := list (str * V).

(** [d.get(k)] *)
Fixpoint dict_get {V} (k : str) (d : dict V) : option V :=
  match d with
  | [] => None
  | (k', v) :: r => if String.eqb k' k then Some v else dict_get k r
  end.

(** [k in d] *)
Definition dict_mem {V} (k : str) (d : dict V) : bool :=
  match dict_get k d with Some _ => true | None => false end.

(** [d.get(k, default)] *)
Definition dict_get_default {V} (k : str) (default : V) (d : dict V) : V :=
  match dict_get k d with Some v => v | None => default end.

(** [d[k] = v]: an existing key keeps its place, a new key goes last. *)
Fixpoint dict_set {V} (k : str) (v : V) (d : dict V) : dict V :=
  match d with
  | [] => [(k, v)]
  | (k', v') :: r =>
      if String.eqb k' k then (k', v) :: r else (k', v') :: dict_set k v r
  end.

(** [d.update(other)] *)
Definition dict_update {V} (d other : dict V) : dict V :=
  fold_left (fun acc kv => dict_set (fst kv) (snd kv) acc) other d.

(** ** Router *)

Inductive route_status : Type := OK | METHOD_NOT_ALLOWED | NOT_FOUND.

(** The handler a route names; the two dynamic routes bind [todo_id]. *)
Inductive handler : Type :=
| Home
| Health
| ListTodos
| CreateTodo
| PatchTodo (todo_id : Z)
| DeleteTodo (todo_id : Z).

Section Router.
Context {float : Type} {L : PyLib float}.

Definition route (method path : str) : route_status * option handler :=
  if String.eqb path "/" then
    if negb (String.eqb method "GET") then (METHOD_NOT_ALLOWED, None)
    else (OK, Some Home)
  else if String.eqb path "/health" then
    if negb (String.eqb method "GET") then (METHOD_NOT_ALLOWED, None)
    else (OK, Some Health)
  else if String.eqb path "/todos" then
    if String.eqb method "GET" then (OK, Some ListTodos)
    else if String.eqb method "POST" then (OK, Some CreateTodo)
    else (METHOD_NOT_ALLOWED, None)
  else if startswith path "/todos/" then
    match
      match nth_error (split_max "/" 2 path) 2 with
      | Some seg => int_of_str seg
      | None => None
      end
    with
    | None => (NOT_FOUND, None)
    | Some todo_id =>
        if String.eqb method "PATCH" then (OK, Some (PatchTodo todo_id))
        else if String.eqb method "DELETE" then (OK, Some (DeleteTodo todo_id))
        else (METHOD_NOT_ALLOWED, None)
    end
  else (NOT_FOUND, None).

End Router.

(** ** Operations on [bytes] *)

(** [len(x)] *)
Definition len {A} (l : list A) : Z := Z.of_nat (List.length l).

Fixpoint prefixb (p data : bytes) : bool :=
  match p, data with
  | [], _ => true
  | x :: p', y :: data' => Byte.eqb x y && prefixb p' data'
  | _ :: _, [] => false
  end.

(** [data.split(sep, 1)] when [sep] occurs in [data]: what is before its
    first occurrence and what is after it. *)
Fixpoint split_once (sep data : bytes) : option (bytes * bytes) :=
  match data with
  | [] => None
  | x :: rest =>
      if prefixb sep data then Some ([], skipn (List.length sep) data)
      else match split_once sep rest with
           | Some (h, r) => Some (x :: h, r)
           | None => None
           end
  end.

(** [sep in data] *)
Definition contains (sep data : bytes) : bool :=
  match split_once sep data with Some _ => true | None => false end.

Fixpoint bytes_split_max (maxsplit : nat) (sep data : bytes) : list bytes :=
  match maxsplit with
  | O => [data]
  | S n =>
      match split_once sep data with
      | None => [data]
      | Some (h, r) => h :: bytes_split_max n sep r
      end
  end.

(** [data.split(sep)]: a non-empty separator cuts [data] at most [len(data)]
    times. *)
Definition bytes_split (sep data : bytes) : list bytes :=
  bytes_split_max (List.length data) sep data.

(** [b"\r\n"] and [b"\r\n\r\n"] *)
Definition CRLF_bytes : bytes := [x0d; x0a].
Definition SEPARATOR : bytes := [x0d; x0a; x0d; x0a].

(** ** HTTP helpers *)

Definition REASONS : list (Z * str) :=
  [ (200, "OK");
    (201, "Created");
    (204, "No Content");
    (400, "Bad Request");
    (404, "Not Found");
    (405, "Method Not Allowed");
    (422, "Unprocessable Entity");
    (500, "Internal Server Error") ].

(** [REASONS.get(status, "OK")] *)
Definition reason_of (status : Z) : str :=
  match find (fun kv => Z.eqb (fst kv) status) REASONS with
  | Some kv => snd kv
  | None => "OK"
  end.

(** The dictionary [base_headers] of [http_response], once the caller's
    [headers] have been merged into it. *)
Definition base_headers (body : bytes) (headers : dict str) : dict str :=
  let base_headers :=
    [ ("Server", "mini-server");
      ("Connection", "close");
      ("Content-Length", str_of_int (len body)) ] in
  let base_headers :=
    if negb (dict_mem "Content-Type" headers)
       && negb (match body with [] => true | _ => false end)
    then dict_set "Content-Type" "text/plain; charset=utf-8" base_headers
    else base_headers in
  dict_update base_headers headers.

Definition status_line (status : Z) : str :=
  "HTTP/1.1 " ++ str_of_int status ++ " " ++ reason_of status ++ CRLF.

Definition header_line (kv : str * str) : str :=
  fst kv ++ ": " ++ snd kv ++ CRLF.

Definition http_response
    (status : Z) (body : bytes) (headers : option (dict str)) : bytes :=
  let headers := match headers with Some h => h | None => [] end in
  let head := status_line status in
  let head :=
    fold_left (fun head kv => head ++ header_line kv)
              (base_headers body headers) head in
  let head := head ++ CRLF in
  (encode head ++ body)%list.

Section Http.
Context {float : Type} {L : PyLib float}.

(** A [str] is a string of code points below 256, which [encode] always
    encodes: a text with a lone surrogate, on which [.encode("utf-8")]
    raises [UnicodeEncodeError], is not a value of [str], and
    [json_response] has no failure here. *)
Definition json_response (status : Z) (obj : pyval float) : bytes :=
  let body := encode (json_dumps obj) in
  http_response status body
    (Some [("Content-Type", "application/json; charset=utf-8")]).

(** [urllib.parse.parse_qsl(qs)] with the defaults that [parse_qs(qs)] passes
    on: [keep_blank_values=False], [strict_parsing=False], [separator="&"].
    An empty field, a field without ["="] and a field whose value is empty
    are skipped; names and values have ["+"] replaced by a space and are
    unquoted. *)
Definition parse_qsl (qs : str) : list (str * str) :=
  flat_map
    (fun name_value =>
       if String.eqb name_value "" then []
       else
         match cut "=" name_value with
         | None => []
         | Some (name, value) =>
             if negb (String.eqb value "")
             then [ (unquote (replace_char "+" " " name),
                     unquote (replace_char "+" " " value)) ]
             else []
         end)
    (split_all "&" qs).

(** [urllib.parse.parse_qs(qs)]: the values of a name, in the order of
    [parse_qsl]. *)
Definition parse_qs (qs : str) : dict (list str) :=
  fold_left
    (fun parsed_result nv =>
       let '(name, value) := nv in
       match dict_get name parsed_result with
       | Some values => dict_set name (values ++ [value])%list parsed_result
       | None => dict_set name [value] parsed_result
       end)
    (parse_qsl qs) [].

(** The header loop of [parse_request], which [recv_http] repeats: a line
    without [":"] is skipped, a repeated name keeps its last value. *)
Definition header_dict (lines : list bytes) : dict str :=
  fold_left
    (fun headers line =>
       let s := decode line in
       match cut ":" s with
       | None => headers
       | Some (k, v) => dict_set (lower (strip k)) (strip v) headers
       end)
    lines [].

Record Request : Type := {
  method : str;
  path : str;
  query : dict (list str);
  headers : dict str;
  body : bytes
}.

Definition parse_request (raw : bytes) : result Request :=
  match split_once SEPARATOR raw with
  | None =>
      Raise (ValueError
               "Malformed HTTP request (missing header/body separator)")
  | Some (header_blob, body) =>
      match bytes_split CRLF_bytes header_blob with
      | [] => Raise (ValueError "Empty request")
      | line0 :: lines =>
          let request_line := decode line0 in
          match split_ws request_line with
          | [method; target; version] =>
              if negb (startswith version "HTTP/")
              then Raise (ValueError ("Bad HTTP version: " ++ version))
              else
                let headers := header_dict lines in
                match urlparse target with
                | Raise e => Raise e
                | Return (path, qs) =>
                    Return {| method := upper method;
                              path := path;
                              query := parse_qs qs;
                              headers := headers;
                              body := body |}
                end
          | _ => Raise (ValueError ("Bad request line: " ++ request_line))
          end
      end
  end.

End Http.

(** ** Sockets

    A connection is the list of the segments that are still to arrive; the
    end of the list, or an empty segment, is the end of the stream.
    [recv bufsize sock] is [sock.recv(bufsize)]: the next segment, cut at
    [bufsize] bytes, and the socket that is left.

    This is a connection on which every call of [recv] returns: the peer
    sends finitely many segments and closes.  A call of [recv] that raises
    is in [Channel] below; a call that never returns (a peer that stays
    silent) is in neither. *)

Definition socket := list bytes.

Definition recv (bufsize : Z) (sock : socket) : bytes * socket :=
  match sock with
  | [] => ([], [])
  | [] :: _ => ([], [])
  | seg :: rest =>
      if len seg <=? bufsize then (seg, rest)
      else (firstn (Z.to_nat bufsize) seg,
            skipn (Z.to_nat bufsize) seg :: rest)
  end.

(** The number of bytes a socket still holds: what both reading loops
    consume. *)
Definition pending (sock : socket) : nat :=
  list_sum (map (@List.length byte) sock).

(** A [recv] that returns a chunk that is not empty leaves fewer bytes in
    the socket: what makes both loops end. *)
Ltac recv_decreases H :=
  unfold pending, list_sum;
  match type of H with
  | recv _ ?sock = _ =>
      unfold recv in H;
      destruct sock as [|[|y seg] rest]; [discriminate H | discriminate H |];
      match type of H with
      | context [if ?c then _ else _] =>
          let H1 := fresh in
          let H2 := fresh in
          destruct c;
          pose proof (f_equal fst H) as H1;
          pose proof (f_equal snd H) as H2;
          cbn [fst snd] in H1, H2; rewrite <- H2;
          cbn [map fold_right List.length];
          [ lia
          | match type of H1 with
            | firstn ?k _ = _ =>
                destruct k; [discriminate H1|];
                rewrite length_skipn; cbn [List.length]; lia
            end ]
      end
  end.

Equations? read_exact_loop
    (sock : socket) (remaining : Z) (chunks : list bytes)
    : list bytes * socket by wf (pending sock) lt :=
read_exact_loop sock remaining chunks with (0 <? remaining) := {
  | false => (chunks, sock)
  | true with inspect (recv (Z.min remaining 4096) sock) := {
    | exist _ ([], sock') _ => (chunks, sock')
    | exist _ (x :: chunk, sock') H =>
        read_exact_loop sock' (remaining - len (x :: chunk))
                        (chunks ++ [x :: chunk])%list } }.
Proof.
  recv_decreases H.
Qed.

Definition read_exact (sock : socket) (n : Z) : bytes * socket :=
  let (chunks, sock') := read_exact_loop sock n [] in
  (List.concat chunks, sock').

(** The first loop of [recv_http]: read until the header separator is in
    [data], the stream ends, or [data] is over 2,000,000 bytes. *)
Equations? recv_headers (data : bytes) (sock : socket)
    : result bytes * socket by wf (pending sock) lt :=
recv_headers data sock with contains SEPARATOR data := {
  | true => (Return data, sock)
  | false with inspect (recv 4096 sock) := {
    | exist _ ([], sock') _ => (Return data, sock')
    | exist _ (x :: chunk, sock') H =>
        if 2000000 <? len (data ++ x :: chunk)%list
        then (Raise (ValueError "Request too large"), sock')
        else recv_headers (data ++ x :: chunk)%list sock' } }.
Proof.
  recv_decreases H.
Qed.

Section Framing.
Context {float : Type} {L : PyLib float}.

Definition recv_http (sock : socket) : result bytes * socket :=
  match recv_headers [] sock with
  | (Raise e, sock) => (Raise e, sock)
  | (Return data, sock) =>
      match split_once SEPARATOR data with
      | None => (Return data, sock)
      | Some (header_blob, rest) =>
          let headers_lines := tl (bytes_split CRLF_bytes header_blob) in
          let headers := header_dict headers_lines in
          match dict_get "content-length" headers with
          | None => (Return data, sock)
          | Some cl =>
              match int_of_str cl with
              | None => (Raise (ValueError "Invalid Content-Length"), sock)
              | Some length =>
                  let missing := length - len rest in
                  let '(rest, sock) :=
                    if 0 <? missing
                    then let (more, sock) := read_exact sock missing in
                         ((rest ++ more)%list, sock)
                    else (rest, sock) in
                  (Return (header_blob ++ SEPARATOR ++ rest)%list, sock)
              end
          end
      end
  end.

End Framing.

(** ** Connections on which [recv] fails

    [sock.recv] raises [OSError] on a connection that is reset.  A
    [channel] is what the calls of [recv] meet, in order: a segment, or a
    failure, which the call that meets it raises.  The functions of the
    frame reader are here once more, on channels; none of them has a
    handler, so the exception leaves them as it came.  [clean] is a socket
    as a channel that never fails. *)

Module Channel.

Inductive event : Type :=
| Segment (seg : bytes)
| Failure (e : exn).

Definition channel := list event.

Definition clean (sock : socket) : channel := map Segment sock.

Definition recv (bufsize : Z) (ch : channel) : result bytes * channel :=
  match ch with
  | [] => (Return [], [])
  | Failure e :: rest => (Raise e, rest)
  | Segment [] :: _ => (Return [], [])
  | Segment seg :: rest =>
      if len seg <=? bufsize then (Return seg, rest)
      else (Return (firstn (Z.to_nat bufsize) seg),
            Segment (skipn (Z.to_nat bufsize) seg) :: rest)
  end.

Definition size (ev : event) : nat :=
  match ev with
  | Segment seg => List.length seg
  | Failure _ => O
  end.

Definition pending (ch : channel) : nat := list_sum (map size ch).

Ltac recv_decreases H :=
  unfold pending, list_sum;
  match type of H with
  | recv _ ?ch = _ =>
      unfold recv in H;
      destruct ch as [|[[|y seg]|e] rest];
      [discriminate H | discriminate H | | discriminate H];
      match type of H with
      | context [if ?c then _ else _] =>
          let H1 := fresh in
          let H2 := fresh in
          destruct c;
          pose proof (f_equal fst H) as H1;
          pose proof (f_equal snd H) as H2;
          cbn [fst snd] in H1, H2; rewrite <- H2;
          cbn [map fold_right size List.length];
          [ lia
          | match type of H1 with
            | Return (firstn ?k _) = _ =>
                destruct k; [discriminate H1|];
                rewrite length_skipn; cbn [List.length]; lia
            end ]
      end
  end.

Equations? read_exact_loop
    (ch : channel) (remaining : Z) (chunks : list bytes)
    : result (list bytes) * channel by wf (pending ch) lt :=
read_exact_loop ch remaining chunks with (0 <? remaining) := {
  | false => (Return chunks, ch)
  | true with inspect (recv (Z.min remaining 4096) ch) := {
    | exist _ (Raise e, ch') _ => (Raise e, ch')
    | exist _ (Return [], ch') _ => (Return chunks, ch')
    | exist _ (Return (x :: chunk), ch') H =>
        read_exact_loop ch' (remaining - len (x :: chunk))
                        (chunks ++ [x :: chunk])%list } }.
Proof.
  recv_decreases H.
Qed.

Definition read_exact (ch : channel) (n : Z) : result bytes * channel :=
  match read_exact_loop ch n [] with
  | (Return chunks, ch') => (Return (List.concat chunks), ch')
  | (Raise e, ch') => (Raise e, ch')
  end.

Equations? recv_headers (data : bytes) (ch : channel)
    : result bytes * channel by wf (pending ch) lt :=
recv_headers data ch with contains SEPARATOR data := {
  | true => (Return data, ch)
  | false with inspect (recv 4096 ch) := {
    | exist _ (Raise e, ch') _ => (Raise e, ch')
    | exist _ (Return [], ch') _ => (Return data, ch')
    | exist _ (Return (x :: chunk), ch') H =>
        if 2000000 <? len (data ++ x :: chunk)%list
        then (Raise (ValueError "Request too large"), ch')
        else recv_headers (data ++ x :: chunk)%list ch' } }.
Proof.
  recv_decreases H.
Qed.

Section Framing.
Context {float : Type} {L : PyLib float}.

Definition recv_http (ch : channel) : result bytes * channel :=
  match recv_headers [] ch with
  | (Raise e, ch) => (Raise e, ch)
  | (Return data, ch) =>
      match split_once SEPARATOR data with
      | None => (Return data, ch)
      | Some (header_blob, rest) =>
          let headers_lines := tl (bytes_split CRLF_bytes header_blob) in
          let headers := header_dict headers_lines in
          match dict_get "content-length" headers with
          | None => (Return data, ch)
          | Some cl =>
              match int_of_str cl with
              | None => (Raise (ValueError "Invalid Content-Length"), ch)
              | Some length =>
                  let missing := length - len rest in
                  if 0 <? missing
                  then
                    match read_exact ch missing with
                    | (Raise e, ch) => (Raise e, ch)
                    | (Return more, ch) =>
                        (Return (header_blob ++ SEPARATOR ++ rest ++ more)%list,
                         ch)
                    end
                  else (Return (header_blob ++ SEPARATOR ++ rest)%list, ch)
              end
          end
      end
  end.

End Framing.

End Channel.

(** ** Computations on a store

    A computation that reads and writes a store of type [St] and may raise:
    the exception leaves the store as the computation left it. *)

Definition M (St A : Type) : Type := St -> result A * St.

Definition ret {St A} (a : A) : M St A := fun st => (Return a, st).

Definition raise {St A} (e : exn) : M St A := fun st => (Raise e, st).

Definition bind {St A B} (m : M St A) (k : A -> M St B) : M St B :=
  fun st =>
    match m st with
    | (Return a, st') => k a st'
    | (Raise e, st') => (Raise e, st')
    end.

Definition get {St} : M St St := fun st => (Return st, st).

Definition put {St} (st : St) : M St unit := fun _ => (Return tt, st).

Definition lift {St A} (r : result A) : M St A := fun st => (r, st).

Notation "x <- m ;; k" := (bind m (fun x => k))
  (at level 61, m at next level, right associativity).
Notation "m ;;; k" := (bind m (fun _ => k))
  (at level 61, right associativity).

(** ** The store and the handlers *)

Section Handlers.
Context {float : Type} {L : PyLib float}.

(** The text of the page [handle_home] serves. *)
Variable home_page : str.

(** An entry of [STATE["todos"]] *)
Record Todo : Type := {
  t_id : Z;
  t_text : str;
  t_done : bool;
  t_created_at : float
}.

(** [STATE] *)
Record State : Type := {
  todos : list Todo;
  next_id : Z;
  started_at : float
}.

(** *** Operations on the values of a JSON payload *)

(** [type(v).__name__] *)
Definition type_name (v : pyval float) : str :=
  match v with
  | PNone => "NoneType"
  | PBool _ => "bool"
  | PInt _ => "int"
  | PFloat _ => "float"
  | PStr _ => "str"
  | PList _ => "list"
  | PDict _ => "dict"
  end.

Definition no_attribute (v : pyval float) (attr : str) : exn :=
  AttributeError
    ("'" ++ type_name v ++ "' object has no attribute '" ++ attr ++ "'").

(** [bool(v)] *)
Definition truthy (v : pyval float) : bool :=
  match v with
  | PNone => false
  | PBool b => b
  | PInt n => negb (n =? 0)
  | PFloat x => float_bool x
  | PStr s => negb (String.eqb s "")
  | PList l => match l with [] => false | _ => true end
  | PDict d => match d with [] => false | _ => true end
  end.

(** [v or w] *)
Definition py_or (v w : pyval float) : pyval float :=
  if truthy v then v else w.

(** [payload.get(key)] *)
Definition py_get (payload : pyval float) (key : str) : result (pyval float) :=
  match payload with
  | PDict d =>
      Return (match dict_get key d with Some v => v | None => PNone end)
  | _ => Raise (no_attribute payload "get")
  end.

(** [v.strip()] *)
Definition py_strip (v : pyval float) : result str :=
  match v with
  | PStr s => Return (strip s)
  | _ => Raise (no_attribute v "strip")
  end.

(** [p in s] on two [str] *)
Fixpoint substringb (p s : str) : bool :=
  String.prefix p s
  || match s with
     | EmptyString => false
     | String _ r => substringb p r
     end.

(** [key in payload] *)
Definition py_contains (key : str) (payload : pyval float) : result bool :=
  match payload with
  | PDict d => Return (dict_mem key d)
  | PList l =>
      Return (existsb (fun v => match v with
                                | PStr s => String.eqb s key
                                | _ => false
                                end) l)
  | PStr s => Return (substringb key s)
  | _ =>
      Raise (TypeError
               ("argument of type '" ++ type_name payload
                ++ "' is not iterable"))
  end.

(** [payload[key]] for a [str] key *)
Definition py_getitem (payload : pyval float) (key : str)
    : result (pyval float) :=
  match payload with
  | PDict d =>
      match dict_get key d with
      | Some v => Return v
      | None => Raise (KeyError ("'" ++ key ++ "'"))
      end
  | PList _ =>
      Raise (TypeError "list indices must be integers or slices, not str")
  | PStr _ => Raise (TypeError "string indices must be integers, not 'str'")
  | _ =>
      Raise (TypeError
               ("'" ++ type_name payload ++ "' object is not subscriptable"))
  end.

(** A todo as the dictionary that [json.dumps] is given *)
Definition todo_obj (t : Todo) : pyval float :=
  PDict [ ("id", PInt (t_id t));
          ("text", PStr (t_text t));
          ("done", PBool (t_done t));
          ("created_at", PFloat (t_created_at t)) ].

Definition error_obj (msg : str) : pyval float := PDict [("error", PStr msg)].

(** [req["headers"].get("content-type", "").startswith("application/json")] *)
Definition is_json (req : Request) : bool :=
  startswith (dict_get_default "content-type" "" (headers req))
             "application/json".

(** [req["body"] or b"{}"] *)
Definition body_or_empty_object (req : Request) : bytes :=
  match body req with
  | [] => b "{}"
  | _ => body req
  end.

Definition has_id (todo_id : Z) (t : Todo) : bool := t_id t =? todo_id.

(** The first todo that [p] accepts, replaced by its image under [f]: an
    assignment to a key of the dictionary that
    [next(t for t in STATE["todos"] if ...)] returned.  That dictionary is
    the one the list holds, so the assignment changes the store. *)
Fixpoint update_first (p : Todo -> bool) (f : Todo -> Todo) (l : list Todo)
    : list Todo :=
  match l with
  | [] => []
  | t :: r => if p t then f t :: r else t :: update_first p f r
  end.

(** [next((i for i, t in enumerate(l) if p(t)), None)] *)
Fixpoint find_index (p : Todo -> bool) (l : list Todo) : option nat :=
  match l with
  | [] => None
  | t :: r =>
      if p t then Some O
      else match find_index p r with
           | Some i => Some (S i)
           | None => None
           end
  end.

(** [l.pop(idx)], for the list that is left *)
Definition pop (idx : nat) (l : list Todo) : list Todo :=
  (firstn idx l ++ skipn (S idx) l)%list.

Definition set_todos (l : list Todo) (st : State) : State :=
  {| todos := l; next_id := next_id st; started_at := started_at st |}.

Definition set_next_id (n : Z) (st : State) : State :=
  {| todos := todos st; next_id := n; started_at := started_at st |}.

Definition set_text (s : str) (t : Todo) : Todo :=
  {| t_id := t_id t; t_text := s; t_done := t_done t;
     t_created_at := t_created_at t |}.

Definition set_done (d : bool) (t : Todo) : Todo :=
  {| t_id := t_id t; t_text := t_text t; t_done := d;
     t_created_at := t_created_at t |}.

(** *** Handlers *)

Definition handle_home (req : Request) : M State bytes :=
  ret (http_response 200 (encode home_page)
         (Some [("Content-Type", "text/html; charset=utf-8")])).

(** [now] is the value of [time.time()]. *)
Definition handle_health (req : Request) (now : float) : M State bytes :=
  st <- get ;;
  let uptime := float_sub now (started_at st) in
  ret (json_response 200
         (PDict [ ("status", PStr "ok");
                  ("uptime_seconds", PFloat (float_round2 uptime));
                  ("todos", PInt (len (todos st))) ])).

Definition handle_list_todos (req : Request) : M State bytes :=
  st <- get ;;
  let todos := todos st in
  todos <-
    match dict_get "done" (query req) with
    | None => ret todos
    | Some [] => raise (IndexError "list index out of range")
    | Some (v :: _) =>
        let val := lower v in
        if existsb (String.eqb val) ["true"; "1"; "yes"]
        then ret (filter t_done todos)
        else if existsb (String.eqb val) ["false"; "0"; "no"]
        then ret (filter (fun t => negb (t_done t)) todos)
        else ret todos
    end ;;
  ret (json_response 200 (PDict [("todos", PList (map todo_obj todos))])).

Definition handle_create_todo (req : Request) (now : float) : M State bytes :=
  if negb (is_json req) then
    ret (json_response 422
           (error_obj "Expected Content-Type: application/json"))
  else
    match json_loads (body_or_empty_object req) with
    | JSONDecodeError _ => ret (json_response 400 (error_obj "Invalid JSON"))
    | LoadFault e => raise e
    | Loaded payload =>
        v <- lift (py_get payload "text") ;;
        text <- lift (py_strip (py_or v (PStr ""))) ;;
        if String.eqb text "" then
          ret (json_response 422 (error_obj "Field 'text' is required"))
        else
          st <- get ;;
          let todo := {| t_id := next_id st; t_text := text;
                         t_done := false; t_created_at := now |} in
          put (set_next_id (next_id st + 1) st) ;;;
          st <- get ;;
          put (set_todos (todos st ++ [todo])%list st) ;;;
          ret (json_response 201 (todo_obj todo))
    end.

Definition handle_patch_todo (req : Request) (todo_id : Z) : M State bytes :=
  if negb (is_json req) then
    ret (json_response 422
           (error_obj "Expected Content-Type: application/json"))
  else
    st <- get ;;
    match find (has_id todo_id) (todos st) with
    | None => ret (json_response 404 (error_obj "Todo not found"))
    | Some todo =>
        match json_loads (body_or_empty_object req) with
        | JSONDecodeError _ =>
            ret (json_response 400 (error_obj "Invalid JSON"))
        | LoadFault e => raise e
        | Loaded payload =>
            (* the [done] block and the final [return], for the value
               [todo] has after the [text] block *)
            let after_text (todo : Todo) : M State bytes :=
              has_done <- lift (py_contains "done" payload) ;;
              if has_done : bool then
                d <- lift (py_getitem payload "done") ;;
                match d with
                | PBool d =>
                    st <- get ;;
                    put (set_todos
                           (update_first (has_id todo_id) (set_done d)
                                         (todos st)) st) ;;;
                    ret (json_response 200 (todo_obj (set_done d todo)))
                | _ =>
                    ret (json_response 422
                           (error_obj "Field 'done' must be boolean"))
                end
              else ret (json_response 200 (todo_obj todo)) in
            has_text <- lift (py_contains "text" payload) ;;
            if has_text : bool then
              v <- lift (py_get payload "text") ;;
              new_text <- lift (py_strip (py_or v (PStr ""))) ;;
              if String.eqb new_text "" then
                ret (json_response 422
                       (error_obj "Field 'text' cannot be empty"))
              else
                st <- get ;;
                put (set_todos
                       (update_first (has_id todo_id) (set_text new_text)
                                     (todos st)) st) ;;;
                after_text (set_text new_text todo)
            else after_text todo
        end
    end.

Definition handle_delete_todo (req : Request) (todo_id : Z) : M State bytes :=
  st <- get ;;
  match find_index (has_id todo_id) (todos st) with
  | None => ret (json_response 404 (error_obj "Todo not found"))
  | Some idx =>
      put (set_todos (pop idx (todos st)) st) ;;;
      ret (http_response 204 (b "") None)
  end.

End Handlers.

Arguments Todo float : clear implicits.
Arguments State float : clear implicits.


(** ** Server loop *)

Section Dispatcher.
Context {float : Type} {L : PyLib float}.
Variable home_page : str.

(** The call [handler(req)] for the handler that [route] returned. *)
Definition call_handler (h : handler) (req : Request) (now : float)
    : M (State float) bytes :=
  match h with
  | Home => handle_home home_page req
  | Health => handle_health req now
  | ListTodos => handle_list_todos req
  | CreateTodo => handle_create_todo req now
  | PatchTodo todo_id => handle_patch_todo req todo_id
  | DeleteTodo todo_id => handle_delete_todo req todo_id
  end.

(** The body of the [try] block of [handle_client]: the response it sends,
    or the exception that leaves it. *)
Definition serve (conn : socket) (now : float) : M (State float) bytes :=
  raw <- lift (fst (recv_http conn)) ;;
  req <- lift (parse_request raw) ;;
  match route (method req) (path req) with
  | (NOT_FOUND, _) => ret (json_response 404 (error_obj "Not found"))
  | (METHOD_NOT_ALLOWED, _) =>
      ret (json_response 405 (error_obj "Method not allowed"))
  | (OK, Some h) => call_handler h req now
  | (OK, None) => raise (TypeError "'NoneType' object is not callable")
  end.

(** [handle_client(conn, addr)]: the bytes given to [conn.sendall] and the
    store that is left.  [now] is the value [time.time()] has during the
    call. *)
Definition handle_client (conn : socket) (now : float) (st : State float)
    : bytes * State float :=
  match serve conn now st with
  | (Return resp, st') => (resp, st')
  | (Raise e, st') =>
      (json_response 500
         (PDict [ ("error", PStr "Internal server error");
                  ("detail", PStr (str_of_exn e)) ]),
       st')
  end.

(** The store when the module is loaded. *)
Definition initial_state (started_at : float) : State float :=
  {| todos := []; next_id := 1; started_at := started_at |}.

(** The stores the server is in when it handles its connections one after
    the other: the initial one, and the one that a call of [handle_client],
    run from its first statement to its last, leaves behind.  The stores
    that threads leave when their statements interleave are not among
    them; [interleave] below has those. *)
Inductive reachable (started_at : float) : State float -> Prop :=
| reachable_init : reachable started_at (initial_state started_at)
| reachable_step (st : State float) (conn : socket) (now : float) :
    reachable started_at st ->
    reachable started_at (snd (handle_client conn now st)).

End Dispatcher.

(** ** Connections handled at the same time

    [serve_forever] starts a thread for every connection, and nothing
    guards [STATE]: a thread can be suspended between two statements while
    another one runs.  A [worker] is a thread inside [handle_create_todo]
    that has passed the checks with the text [text] and is about to run
    line 246, 247, 248 or 249; [worker_step] runs that statement.  Each
    statement is one step here; a thread can be suspended inside a
    statement too, which adds interleavings and removes none. *)

Section Workers.
Context {float : Type}.

Inductive worker : Type :=
| AtLine246 (text : str) (now : float)
| AtLine247 (todo : Todo float)
| AtLine248 (todo : Todo float)
| AtLine249 (todo : Todo float).

Definition worker_step (w : worker) (st : State float)
    : worker * State float :=
  match w with
  | AtLine246 text now =>
      (* todo = {"id": STATE["next_id"], "text": text, ...} *)
      (AtLine247 {| t_id := next_id st; t_text := text;
                    t_done := false; t_created_at := now |}, st)
  | AtLine247 todo =>
      (* STATE["next_id"] += 1 *)
      (AtLine248 todo, set_next_id (next_id st + 1) st)
  | AtLine248 todo =>
      (* STATE["todos"].append(todo) *)
      (AtLine249 todo, set_todos (todos st ++ [todo])%list st)
  | AtLine249 todo =>
      (* return json_response(201, todo) *)
      (AtLine249 todo, st)
  end.

(** The workers and the store after a schedule, which names the worker that
    takes each step. *)
Fixpoint interleave (schedule : list nat) (ws : list worker)
    (st : State float) : list worker * State float :=
  match schedule with
  | [] => (ws, st)
  | i :: rest =>
      match nth_error ws i with
      | None => interleave rest ws st
      | Some w =>
          let (w', st') := worker_step w st in
          interleave rest (firstn i ws ++ w' :: skipn (S i) ws)%list st'
      end
  end.

End Workers.

(** ** A library for running the model

    [Sample.lib] is an instance of [PyLib] on which the definitions above
    compute.  Its floats are whole numbers of seconds.  On the inputs of the
    examples of this file (ASCII text, request targets in origin form
    without [";"] or ["%"], the JSON bodies listed in [loads_table]) its
    functions return what the functions of CPython return. *)

Module Sample.

Definition map_str (f : ascii -> ascii) : str -> str :=
  fix go (s : str) : str :=
    match s with
    | EmptyString => EmptyString
    | String c r => String (f c) (go r)
    end.

Definition upper_char (c : ascii) : ascii :=
  let n := N_of_ascii c in
  if ((97 <=? n) && (n <=? 122))%N then ascii_of_N (n - 32) else c.

Definition lower_char (c : ascii) : ascii :=
  let n := N_of_ascii c in
  if ((65 <=? n) && (n <=? 90))%N then ascii_of_N (n + 32) else c.

(** Decimal digits with single underscores between them, as [int] reads
    them. *)
Fixpoint digits (acc : Z) (after_digit : bool) (s : str) : option Z :=
  match s with
  | EmptyString => if after_digit then Some acc else None
  | String c r =>
      let n := N_of_ascii c in
      if ((48 <=? n) && (n <=? 57))%N
      then digits (10 * acc + (Z.of_N n - 48)) true r
      else if (n =? 95)%N && after_digit then digits acc false r
      else None
  end.

Definition ascii_int (s : str) : option Z :=
  match strip s with
  | String "-" r => option_map Z.opp (digits 0 false r)
  | String "+" r => digits 0 false r
  | r => digits 0 false r
  end.

(** ASCII bytes are their characters; any other byte reads as ["?"]. *)
Definition ascii_decode (data : bytes) : str :=
  string_of_list_ascii
    (map (fun x => if (Byte.to_N x <? 128)%N then ascii_of_byte x else "?"%char)
         data).

(** What is before ["#"] is cut at the first ["?"]. *)
Definition origin_form (target : str) : result (str * str) :=
  let url := match cut "#" target with Some (u, _) => u | None => target end in
  match cut "?" url with
  | Some (path, query) => Return (path, query)
  | None => Return (url, "")
  end.

Definition DQUOTE : ascii := ascii_of_nat 34.

(** [s] between double quotes *)
Definition q (s : str) : str := String DQUOTE (s ++ String DQUOTE "").

(** Bodies of the examples and the value [json.loads] builds from each. *)
Definition loads_table : list (str * pyval Z) :=
  [ ("{}", PDict []);
    ("[]", PList []);
    ("7", PInt 7);
    ("{" ++ q "text" ++ ": " ++ q "ship it" ++ "}",
     PDict [("text", PStr "ship it")]);
    ("{" ++ q "text" ++ ": 5}", PDict [("text", PInt 5)]);
    ("{" ++ q "text" ++ ": " ++ q " b " ++ ", " ++ q "done" ++ ": 1}",
     PDict [("text", PStr " b "); ("done", PInt 1)]) ].

Definition table_loads (data : bytes) : loads_result Z :=
  match dict_get (string_of_list_byte data) loads_table with
  | Some v => Loaded v
  | None => JSONDecodeError "Expecting value"
  end.

Definition NL : str := String LF "".

Fixpoint pad (n : nat) : str :=
  match n with
  | O => ""
  | S k => " " ++ pad k
  end.

Fixpoint escape (s : str) : str :=
  match s with
  | EmptyString => EmptyString
  | String c r =>
      let n := N_of_ascii c in
      if ((n =? 34) || (n =? 92))%N then String "\" (String c (escape r))
      else String c (escape r)
  end.

(** [json.dumps(v, indent=2)] at indentation [ind] *)
Fixpoint dumps (ind : nat) (v : pyval Z) {struct v} : str :=
  match v with
  | PNone => "null"
  | PBool true => "true"
  | PBool false => "false"
  | PInt n => str_of_int n
  | PFloat x => str_of_int x ++ ".0"
  | PStr s => q (escape s)
  | PList [] => "[]"
  | PList l =>
      "[" ++ NL
      ++ (fix items (l : list (pyval Z)) : str :=
            match l with
            | [] => ""
            | [v] => pad (ind + 2) ++ dumps (ind + 2) v
            | v :: r =>
                pad (ind + 2) ++ dumps (ind + 2) v ++ "," ++ NL ++ items r
            end) l
      ++ NL ++ pad ind ++ "]"
  | PDict [] => "{}"
  | PDict d =>
      "{" ++ NL
      ++ (fix items (d : list (str * pyval Z)) : str :=
            match d with
            | [] => ""
            | [(k, v)] =>
                pad (ind + 2) ++ q (escape k) ++ ": " ++ dumps (ind + 2) v
            | (k, v) :: r =>
                pad (ind + 2) ++ q (escape k) ++ ": " ++ dumps (ind + 2) v
                ++ "," ++ NL ++ items r
            end) d
      ++ NL ++ pad ind ++ "}"
  end.

Definition lib : PyLib Z := {|
  int_of_str := ascii_int;
  decode := ascii_decode;
  upper := map_str upper_char;
  lower := map_str lower_char;
  urlparse := origin_form;
  unquote := fun s => s;
  json_loads := table_loads;
  json_dumps := dumps 0;
  float_bool := fun x => negb (x =? 0);
  float_sub := Z.sub;
  float_round2 := fun x => x
|}.

(** A request from its lines and its body *)
Definition request_bytes (lines : list str) (body : str) : bytes :=
  b (String.concat CRLF lines ++ CRLF ++ CRLF ++ body).

(** The request that [parse_request] builds for a POST /todos with a JSON
    content type and the body [body]. *)
Definition post_todos (body : str) : Request :=
  {| method := "POST"; path := "/todos"; query := [];
     headers := [("content-type", "application/json")];
     body := b body |}.

(** A PATCH with the text [" b "] and a [done] that is the number 1. *)
Definition patch_body : str :=
  "{" ++ q "text" ++ ": " ++ q " b " ++ ", " ++ q "done" ++ ": 1}".

(** The store at time 0, and the store with one todo. *)
Definition empty_store : State Z := initial_state 0.

Definition first_todo : Todo Z :=
  {| t_id := 1; t_text := "ship it"; t_done := false; t_created_at := 5 |}.

Definition one_todo : State Z :=
  {| todos := [first_todo]; next_id := 2; started_at := 0 |}.

(** A connection that creates a todo with the text ["ship it"]. *)
Definition create_conn : socket :=
  [ request_bytes
      [ "POST /todos HTTP/1.1"; "Content-Type: application/json";
        "Content-Length: 19" ]
      ("{" ++ q "text" ++ ": " ++ q "ship it" ++ "}") ].

(** A connection that deletes todo 1, and the todo that a creation at
    time 7 makes after it. *)
Definition delete_conn : socket :=
  [ request_bytes ["DELETE /todos/1 HTTP/1.1"] "" ].

Definition second_todo : Todo Z :=
  {| t_id := 2; t_text := "ship it"; t_done := false; t_created_at := 7 |}.

(** A connection that posts a JSON array. *)
Definition array_conn : socket :=
  [ request_bytes
      [ "POST /todos HTTP/1.1"; "Content-Type: application/json";
        "Content-Length: 2" ]
      "[]" ].

(** A connection whose [Content-Length] is not a number, one whose
    [Content-Length] is negative and is followed by a second segment, and
    one with a query whose first field has an empty value. *)
Definition bad_length_conn : socket :=
  [ request_bytes ["POST /todos HTTP/1.1"; "Content-Length: abc"] "" ].

Definition negative_length_conn : socket :=
  [ request_bytes ["POST /todos HTTP/1.1"; "Content-Length: -5"] "abc";
    b "more" ].

(** A sender that never ends its headers: 489 segments of 4096 bytes
    ["a"], 2,002,944 bytes in all. *)
Definition flood : socket := repeat (repeat x61 4096%nat) 489%nat.

(** A connection that lists the todos that are done. *)
Definition list_conn : socket :=
  [ request_bytes ["GET /todos?done=yes HTTP/1.1"] "" ].

(** A connection that is closed before the headers end. *)
Definition truncated_conn : socket := [ b "GET / HT"; b "TP/1.1" ].

(** A connection whose body comes in a second segment with six bytes more
    than its [Content-Length]. *)
Definition two_segment_conn : socket :=
  [ request_bytes ["POST /todos HTTP/1.1"; "Content-Length: 4"] "";
    b "{}  extra!" ].

Definition query_bytes : bytes :=
  request_bytes ["GET /todos?done=yes&x=&done=no HTTP/1.1"] "".

(** A query with a piece that has no ["="] and a trailing ["&"]. *)
Definition flag_query_bytes : bytes :=
  request_bytes ["GET /todos?flag&done=yes&x=&done=no& HTTP/1.1"] "".

Definition blank_query_bytes : bytes :=
  request_bytes ["GET /todos?done=&x=1 HTTP/1.1"] "".

End Sample.

(** ** Notions the statements use *)

(** The head of a response: what is before its first empty line, with the
    line end that closes its last line.  The body is not part of it. *)
Definition head_of (out : bytes) : bytes :=
  match split_once SEPARATOR out with
  | Some (head, _) => (head ++ CRLF_bytes)%list
  | None => out
  end.

(** The head of the response [out] has the header line [name: value]: the
    line follows a line end and is closed by one, before the first empty
    line of [out]. *)
Definition head_has_line (out : bytes) (name value : str) : bool :=
  contains (encode (CRLF ++ header_line (name, value))) (head_of out).

(** [headers or {}] *)
Definition or_empty (headers : option (dict str)) : dict str :=
  match headers with Some h => h | None => [] end.

(** The query string that a list of fields spells: [name=value] for each
    field, joined by ["&"]. *)
Definition field_str (nv : str * str) : str := fst nv ++ "=" ++ snd nv.

Definition query_string (fields : list (str * str)) : str :=
  String.concat "&" (map field_str fields).

(** Fields whose names have no ["="] and no ["&"], and whose values have no
    ["&"]: the ones a query string spells without ambiguity. *)
Definition plain_field (nv : str * str) : Prop :=
  contains_char "=" (fst nv) = false
  /\ contains_char "&" (fst nv) = false
  /\ contains_char "&" (snd nv) = false.

(** The [key=value] occurrences of a query string, in order: each piece
    between two ["&"] that has an ["="], cut at its first ["="].  A piece
    without ["="] is no occurrence. *)
Definition occurrences (qs : str) : list (str * str) :=
  flat_map
    (fun piece =>
       match cut "=" piece with
       | Some (name, value) => [(name, value)]
       | None => []
       end)
    (split_all "&" qs).

(** The values paired with [name], in order. *)
Definition values_of (name : str) (pairs : list (str * str)) : list str :=
  map snd (filter (fun nv => String.eqb (fst nv) name) pairs).

Section QueryNotions.
Context {float : Type} {L : PyLib float}.

(** A name or a value as [parse_qsl] returns it. *)
Definition decode_field (s : str) : str := unquote (replace_char "+" " " s).

(** The fields of a query string that [parse_qsl] keeps: the ones whose
    value is not empty. *)
Definition kept_fields (fields : list (str * str)) : list (str * str) :=
  map (fun nv => (decode_field (fst nv), decode_field (snd nv)))
      (filter (fun nv => negb (String.eqb (snd nv) "")) fields).

End QueryNotions.

(** One round of the first loop of [recv_http], from the buffer and the
    socket before it to the buffer and the socket after it: the separator is
    not in the buffer yet and [recv] returns a chunk that is not empty. *)
Inductive round : bytes * socket -> bytes * socket -> Prop :=
| round_intro (data : bytes) (sock : socket) (chunk : bytes) (sock' : socket) :
    contains SEPARATOR data = false ->
    recv 4096 sock = (chunk, sock') ->
    chunk <> [] ->
    round (data, sock) ((data ++ chunk)%list, sock').

(** The buffer accumulated from [sock] exceeds 2,000,000 bytes while the
    loop scans for the separator. *)
Definition too_large (sock : socket) : Prop :=
  exists data sock',
    clos_refl_trans_1n _ round ([], sock) (data, sock')
    /\ 2000000 < len data.

Section FramingNotions.
Context {float : Type} {L : PyLib float}.

(** The [content-length] header of the message that the first loop of
    [recv_http] framed, when it framed one and the header is there. *)
Definition framed_content_length (sock : socket) : option str :=
  match recv_headers [] sock with
  | (Return data, _) =>
      match split_once SEPARATOR data with
      | Some (header_blob, _) =>
          dict_get "content-length"
            (header_dict (tl (bytes_split CRLF_bytes header_blob)))
      | None => None
      end
  | (Raise _, _) => None
  end.

End FramingNotions.

Section StoreNotions.
Context {float : Type} {L : PyLib float}.
Variable home_page : str.

(** The ids in the collection, in its order. *)
Definition ids (st : State float) : list Z := map t_id (todos st).

(** Every id in the collection is there once and was issued by the
    counter, which starts at 1 and is now [next_id]. *)
Definition store_inv (st : State float) : Prop :=
  NoDup (ids st)
  /\ Forall (fun i => 1 <= i < next_id st) (ids st)
  /\ 1 <= next_id st.

(** What a connection can do to the store. *)
Inductive store_step (st st' : State float) : Prop :=
| step_keep :
    ids st' = ids st -> next_id st' = next_id st -> store_step st st'
| step_create (t : Todo float) :
    t_id t = next_id st -> t_done t = false ->
    todos st' = (todos st ++ [t])%list ->
    next_id st' = next_id st + 1 ->
    store_step st st'
| step_delete (l1 l2 : list (Todo float)) (t : Todo float) :
    todos st = (l1 ++ t :: l2)%list ->
    todos st' = (l1 ++ l2)%list ->
    next_id st' = next_id st ->
    store_step st st'.

(** The store after a sequence of connections, each with the time of its
    call. *)
Fixpoint run (conns : list (socket * float)) (st : State float) : State float :=
  match conns with
  | [] => st
  | (conn, now) :: rest => run rest (snd (handle_client home_page conn now st))
  end.

End StoreNotions.

(** ** Notions for the wider properties *)

(** The header lines of a head, in the order of the dictionary. *)
Fixpoint lines_of (hs : dict str) : str :=
  match hs with
  | [] => ""
  | kv :: r => header_line kv ++ lines_of r
  end.

(** A text without carriage return. *)
Definition no_cr (s : str) : Prop := contains_char CR s = false.

(** A response as every handler builds it: a status of [REASONS], and a
    caller that names none of the three mandatory headers and passes no
    carriage return. *)
Definition plain_response (resp : bytes) : Prop :=
  exists status body headers,
    resp = http_response status body headers
    /\ In status (map fst REASONS)
    /\ dict_get "Content-Length" (or_empty headers) = None
    /\ dict_get "Server" (or_empty headers) = None
    /\ dict_get "Connection" (or_empty headers) = None
    /\ Forall (fun kv => no_cr (fst kv) /\ no_cr (snd kv)) (or_empty headers).

(** A computation whose every answer is a [plain_response]. *)
Definition answers {St : Type} (m : M St bytes) : Prop :=
  forall st resp st', m st = (Return resp, st') -> plain_response resp.

Section ParserNotions.
Context {float : Type} {L : PyLib float}.

(** What the header loop makes of one line: the name and the value it
    stores, or nothing for a line without [":"]. *)
Definition header_of (line : bytes) : option (str * str) :=
  match cut ":" (decode line) with
  | Some (k, v) => Some (lower (strip k), strip v)
  | None => None
  end.

End ParserNotions.

Section FrameNotions.
Context {float : Type} {L : PyLib float}.

(** The header lines of a header block: its lines but the first. *)
Definition header_lines (header_blob : bytes) : list bytes :=
  tl (bytes_split CRLF_bytes header_blob).

(** [value] is the value that the last of [lines] naming the header [name]
    gives it. *)
Definition last_header (name : str) (lines : list bytes) (value : str)
    : Prop :=
  exists before line after,
    lines = (before ++ line :: after)%list
    /\ header_of line = Some (name, value)
    /\ forall l v, In l after -> header_of l <> Some (name, v).

(** The message the first loop of [recv_http] frames: the rounds leave a
    buffer within the limit that is [header_blob], the separator and
    [rest], and no separator starts before that one. *)
Definition framed (sock : socket) (header_blob rest : bytes) : Prop :=
  exists sock',
    clos_refl_trans_1n _ round
      ([], sock) ((header_blob ++ SEPARATOR ++ rest)%list, sock')
    /\ len (header_blob ++ SEPARATOR ++ rest)%list <= 2000000
    /\ forall h r,
         (header_blob ++ SEPARATOR ++ rest)%list = (h ++ SEPARATOR ++ r)%list ->
         (List.length header_blob <= List.length h)%nat.

(** The framed message has a [content-length] header, and [int] does not
    read its value. *)
Definition invalid_content_length (sock : socket) : Prop :=
  exists header_blob rest value,
    framed sock header_blob rest
    /\ last_header "content-length" (header_lines header_blob) value
    /\ int_of_str value = None.

End FrameNotions.

Section StoreDataNotions.
Context {float : Type}.

(** A text as the handlers store it: not empty, and without whitespace at
    either end. *)
Definition text_ok (t : Todo float) : Prop :=
  t_text t <> "" /\ strip (t_text t) = t_text t.

(** [t'] is [t], or [t] with another text or another [done] when its id is
    [todo_id]. *)
Definition same_but (todo_id : Z) (t t' : Todo float) : Prop :=
  t_id t' = t_id t
  /\ t_created_at t' = t_created_at t
  /\ (t_id t <> todo_id -> t' = t).

(** The todo that a PATCH with the object [d] makes of [t]: the fields that
    [d] has are taken from it, the others are kept. *)
Definition patched (d : list (str * pyval float)) (t : Todo float)
    : Todo float :=
  let t :=
    match dict_get "text" d with
    | Some (PStr x) => set_text (strip x) t
    | _ => t
    end in
  match dict_get "done" d with
  | Some (PBool done) => set_done done t
  | _ => t
  end.

End StoreDataNotions.

(** The bytes a connection delivers before the end of the stream. *)
Fixpoint stream (sock : socket) : bytes :=
  match sock with
  | [] => []
  | [] :: _ => []
  | seg :: rest => (seg ++ stream rest)%list
  end.

(** * Properties *)

(** ** Strings, bytes and dictionaries *)

Lemma append_assoc (s1 s2 s3 : str) : (s1 ++ s2) ++ s3 = s1 ++ (s2 ++ s3).
Proof.
  induction s1 as [|c s1 IH]; cbn; [reflexivity | now rewrite IH].
Qed.

Lemma append_empty_r (s : str) : s ++ "" = s.
Proof.
  induction s as [|c s IH]; cbn; [reflexivity | now rewrite IH].
Qed.

Lemma encode_app (s1 s2 : str) :
  encode (s1 ++ s2) = (encode s1 ++ encode s2)%list.
Proof.
  induction s1 as [|c s1 IH]; cbn; [reflexivity|].
  now rewrite IH, app_assoc.
Qed.

Lemma prefixb_app (sep rest : bytes) : prefixb sep (sep ++ rest)%list = true.
Proof.
  induction sep as [|x sep IH]; cbn; [reflexivity|].
  now rewrite (@Byte.byte_dec_lb x x eq_refl), IH.
Qed.

Lemma prefixb_skipn (sep data : bytes) :
  prefixb sep data = true ->
  data = (sep ++ skipn (List.length sep) data)%list.
Proof.
  revert data; induction sep as [|x sep IH]; intros data H; [reflexivity|].
  destruct data as [|y data]; [discriminate|].
  cbn in H. apply andb_true_iff in H as [Hxy H].
  apply Byte.byte_dec_bl in Hxy; subst y.
  cbn. f_equal. now apply IH.
Qed.

(** [split_once] cuts [data] at an occurrence of [sep]. *)
Lemma split_once_sound (sep data h r : bytes) :
  split_once sep data = Some (h, r) -> data = (h ++ sep ++ r)%list.
Proof.
  revert h; induction data as [|x data IH]; intros h H; [discriminate|].
  cbn [split_once] in H.
  destruct (prefixb sep (x :: data)) eqn:Hp.
  - injection H as <- <-. now apply prefixb_skipn.
  - destruct (split_once sep data) as [[h' r']|]; [|discriminate].
    injection H as <- <-. cbn. f_equal. now apply IH.
Qed.

(** [contains] finds every occurrence of a separator that is not empty. *)
Lemma contains_complete (sep pre post : bytes) :
  sep <> [] -> contains sep (pre ++ sep ++ post)%list = true.
Proof.
  intros Hsep. unfold contains.
  induction pre as [|x pre IH].
  - cbn [app]. destruct sep as [|s sep]; [congruence|].
    change ((s :: sep) ++ post)%list with (s :: (sep ++ post))%list.
    cbn [split_once].
    change (s :: (sep ++ post))%list with ((s :: sep) ++ post)%list.
    now rewrite prefixb_app.
  - cbn [app split_once].
    destruct (prefixb sep (x :: pre ++ sep ++ post)%list); [reflexivity|].
    destruct (split_once sep (pre ++ sep ++ post)%list) as [[h r]|];
      [reflexivity | discriminate].
Qed.

Lemma dict_get_set_same {V} (k : str) (v : V) (d : dict V) :
  dict_get k (dict_set k v d) = Some v.
Proof.
  induction d as [|[k' v'] d IH]; cbn.
  - now rewrite String.eqb_refl.
  - destruct (String.eqb k' k) eqn:E; cbn; now rewrite E.
Qed.

Lemma dict_get_set_other {V} (k k0 : str) (v : V) (d : dict V) :
  k0 <> k -> dict_get k (dict_set k0 v d) = dict_get k d.
Proof.
  intros Hne. induction d as [|[k' v'] d IH]; cbn.
  - apply String.eqb_neq in Hne. now rewrite Hne.
  - destruct (String.eqb k' k0) eqn:E0; cbn.
    + apply String.eqb_eq in E0; subst k'.
      apply String.eqb_neq in Hne. now rewrite Hne.
    + now rewrite IH.
Qed.

Lemma dict_get_None_In {V} (k : str) (d : dict V) :
  dict_get k d = None -> forall v, ~ In (k, v) d.
Proof.
  induction d as [|[k' v'] d IH]; cbn; intros H v Hin; [easy|].
  destruct Hin as [Heq|Hin].
  - injection Heq as -> ->. now rewrite String.eqb_refl in H.
  - destruct (String.eqb k' k); [discriminate | now apply (IH H v)].
Qed.

Lemma dict_get_Some_In {V} (k : str) (v : V) (d : dict V) :
  dict_get k d = Some v -> In (k, v) d.
Proof.
  induction d as [|[k' v'] d IH]; cbn; [discriminate|].
  destruct (String.eqb k' k) eqn:E.
  - apply String.eqb_eq in E; subst k'. intros [= ->]. now left.
  - intros H. right. now apply IH.
Qed.

(** A name that [other] does not have keeps its value through
    [d.update(other)]. *)
Lemma dict_get_update_absent {V} (k : str) (d other : dict V) :
  dict_get k other = None ->
  dict_get k (dict_update d other) = dict_get k d.
Proof.
  unfold dict_update. revert d.
  induction other as [|[k' v'] other IH]; intros d H; cbn; [reflexivity|].
  cbn in H. destruct (String.eqb k' k) eqn:E; [discriminate|].
  rewrite IH by assumption.
  apply dict_get_set_other. now apply String.eqb_neq.
Qed.

(** ** Router *)

Section RouterProperties.
Context {float : Type} {L : PyLib float}.

Lemma dynamic_segment (segment : str) :
  nth_error (split_max "/" 2 ("/todos/" ++ segment)) 2 = Some segment.
Proof. reflexivity. Qed.

(** On a path [/todos/<segment>] the router reaches the dynamic family. *)
Lemma route_dynamic (method segment : str) :
  route method ("/todos/" ++ segment) =
  match int_of_str segment with
  | None => (NOT_FOUND, None)
  | Some todo_id =>
      if String.eqb method "PATCH" then (OK, Some (PatchTodo todo_id))
      else if String.eqb method "DELETE" then (OK, Some (DeleteTodo todo_id))
      else (METHOD_NOT_ALLOWED, None)
  end.
Proof.
  unfold route. rewrite dynamic_segment.
  change (String.eqb ("/todos/" ++ segment) "/") with false.
  change (String.eqb ("/todos/" ++ segment) "/health") with false.
  replace (String.eqb ("/todos/" ++ segment) "/todos") with false
    by (cbn; now destruct segment).
  replace (startswith ("/todos/" ++ segment) "/todos/") with true
    by (cbn; now destruct segment).
  reflexivity.
Qed.

(** C1.  [route] keeps 404 and 405 apart: a path that matches no route
    pattern is [NOT_FOUND]; one of the static paths with a method it does
    not support is [METHOD_NOT_ALLOWED]; a path [/todos/<segment>] whose
    segment [int] does not read is [NOT_FOUND] for every method; a path
    [/todos/<segment>] whose segment is an integer is [METHOD_NOT_ALLOWED]
    for every method other than PATCH and DELETE. *)
Theorem route_not_found_vs_method_not_allowed (method path : str) :
  (path <> "/" -> path <> "/health" -> path <> "/todos" ->
   startswith path "/todos/" = false ->
   route method path = (NOT_FOUND, None))
  /\ (path = "/" \/ path = "/health" -> method <> "GET" ->
      route method path = (METHOD_NOT_ALLOWED, None))
  /\ (path = "/todos" -> method <> "GET" -> method <> "POST" ->
      route method path = (METHOD_NOT_ALLOWED, None))
  /\ (forall segment,
        path = "/todos/" ++ segment -> int_of_str segment = None ->
        route method path = (NOT_FOUND, None))
  /\ (forall segment todo_id,
        path = "/todos/" ++ segment -> int_of_str segment = Some todo_id ->
        method <> "PATCH" -> method <> "DELETE" ->
        route method path = (METHOD_NOT_ALLOWED, None)).
Proof.
  repeat split.
  - intros H1 H2 H3 H4. unfold route.
    apply String.eqb_neq in H1, H2, H3. now rewrite H1, H2, H3, H4.
  - intros Hp Hm. apply String.eqb_neq in Hm.
    destruct Hp as [-> | ->]; unfold route; cbn; now rewrite Hm.
  - intros -> Hg Hp. apply String.eqb_neq in Hg, Hp.
    unfold route; cbn. now rewrite Hg, Hp.
  - intros segment -> Hint. now rewrite route_dynamic, Hint.
  - intros segment todo_id -> Hint Hp Hd. apply String.eqb_neq in Hp, Hd.
    now rewrite route_dynamic, Hint, Hp, Hd.
Qed.

End RouterProperties.

(** ** Response writer *)

Lemma fold_header_lines (l : dict str) (head : str) :
  fold_left (fun head kv => head ++ header_line kv) l head =
  head ++ fold_left (fun head kv => head ++ header_line kv) l "".
Proof.
  revert head. induction l as [|kv l IH]; intros head; cbn [fold_left].
  - now rewrite append_empty_r.
  - rewrite IH, (IH ("" ++ header_line kv)). cbn [append].
    now rewrite append_assoc.
Qed.

Lemma fold_header_lines_crlf (l : dict str) (head : str) :
  (exists x, head = x ++ CRLF) ->
  exists x, fold_left (fun head kv => head ++ header_line kv) l head
            = x ++ CRLF.
Proof.
  revert head. induction l as [|kv l IH]; intros head Hx; cbn [fold_left];
    [assumption|].
  apply IH. exists (head ++ fst kv ++ ": " ++ snd kv).
  unfold header_line. now rewrite !append_assoc.
Qed.

Lemma status_line_crlf (status : Z) : exists x, status_line status = x ++ CRLF.
Proof.
  exists ("HTTP/1.1 " ++ str_of_int status ++ " " ++ reason_of status).
  unfold status_line. now rewrite !append_assoc.
Qed.


Lemma base_headers_mandatory (body : bytes) (headers : dict str) (name : str) :
  name <> "Content-Type" ->
  dict_get name headers = None ->
  dict_get name (base_headers body headers) =
  dict_get name [ ("Server", "mini-server");
                  ("Connection", "close");
                  ("Content-Length", str_of_int (len body)) ].
Proof.
  intros Hct Hnone. unfold base_headers.
  rewrite dict_get_update_absent by assumption.
  destruct (negb (dict_mem "Content-Type" headers) && _); [|reflexivity].
  apply dict_get_set_other. congruence.
Qed.

(** A name that [other] has once takes its value there through
    [d.update(other)]. *)
Lemma dict_get_update_present {V} (k : str) (v : V) (d other : dict V) :
  NoDup (map fst other) ->
  dict_get k other = Some v ->
  dict_get k (dict_update d other) = Some v.
Proof.
  unfold dict_update. revert d.
  induction other as [|[k' v'] other IH]; intros d Hnd H; [discriminate|].
  cbn [map fst] in Hnd. inversion Hnd as [|? ? Hk' Hother]; subst.
  cbn [fold_left fst snd]. cbn in H.
  destruct (String.eqb k' k) eqn:E.
  - apply String.eqb_eq in E; subst k'. injection H as ->.
    fold (dict_update (dict_set k v d) other).
    rewrite dict_get_update_absent; [apply dict_get_set_same|].
    destruct (dict_get k other) as [v0|] eqn:Hget; [|reflexivity].
    apply dict_get_Some_In in Hget. exfalso. apply Hk'.
    now apply (in_map fst) in Hget.
  - now apply IH.
Qed.


(** ** Request parser: the query *)

Lemma cut_None_cons (sep c : ascii) (s : str) :
  cut sep (String c s) = None -> Ascii.eqb c sep = false /\ cut sep s = None.
Proof.
  cbn. destruct (Ascii.eqb c sep); [discriminate|].
  destruct (cut sep s) as [[a r]|]; [discriminate | now split].
Qed.

Lemma contains_char_false (sep : ascii) (s : str) :
  contains_char sep s = false -> cut sep s = None.
Proof.
  unfold contains_char. now destruct (cut sep s).
Qed.

Lemma cut_app (sep : ascii) (a r : str) :
  contains_char sep a = false -> cut sep (a ++ String sep r) = Some (a, r).
Proof.
  intros H. apply contains_char_false in H.
  induction a as [|c a IH]; cbn.
  - now rewrite Ascii.eqb_refl.
  - apply cut_None_cons in H as [Hc H]. now rewrite Hc, IH.
Qed.

Lemma split_all_plain (sep : ascii) (s : str) :
  contains_char sep s = false -> split_all sep s = [s].
Proof.
  intros H. apply contains_char_false in H.
  induction s as [|c s IH]; cbn; [reflexivity|].
  apply cut_None_cons in H as [Hc H]. now rewrite Hc, IH.
Qed.

Lemma split_all_app (sep : ascii) (a r : str) :
  contains_char sep a = false ->
  split_all sep (a ++ String sep r) = a :: split_all sep r.
Proof.
  intros H. apply contains_char_false in H.
  induction a as [|c a IH]; cbn.
  - now rewrite Ascii.eqb_refl.
  - apply cut_None_cons in H as [Hc H]. now rewrite Hc, IH.
Qed.

(** Joining with ["&"] and splitting at ["&"] are inverse on pieces that
    have no ["&"]. *)
Lemma split_all_concat (pieces : list str) :
  pieces <> [] ->
  Forall (fun s => contains_char "&" s = false) pieces ->
  split_all "&" (String.concat "&" pieces) = pieces.
Proof.
  induction pieces as [|x pieces IH]; intros Hne Hall; [congruence|].
  inversion Hall as [|? ? Hx Hrest]; subst.
  destruct pieces as [|y pieces].
  - cbn. now apply split_all_plain.
  - change (String.concat "&" (x :: y :: pieces))
      with (x ++ String "&" (String.concat "&" (y :: pieces))).
    rewrite split_all_app by assumption.
    f_equal. apply IH; [discriminate | assumption].
Qed.

Lemma contains_char_app (sep : ascii) (s1 s2 : str) :
  contains_char sep s1 = false -> contains_char sep s2 = false ->
  contains_char sep (s1 ++ s2) = false.
Proof.
  intros H1 H2. apply contains_char_false in H1.
  induction s1 as [|c s1 IH]; [assumption|].
  apply cut_None_cons in H1 as [Hc H1]. specialize (IH H1).
  unfold contains_char in *. cbn. rewrite Hc.
  now destruct (cut sep (s1 ++ s2)) as [[a r]|].
Qed.

Section QueryProperties.
Context {float : Type} {L : PyLib float}.

(** What [parse_qsl] makes of the string that plain fields spell. *)
Lemma parse_qsl_query_string (fields : list (str * str)) :
  Forall plain_field fields ->
  parse_qsl (query_string fields) = kept_fields fields.
Proof.
  intros Hall. unfold parse_qsl, query_string.
  destruct fields as [|f0 fields0]; [reflexivity|].
  set (fields := f0 :: fields0) in *.
  rewrite split_all_concat.
  - clearbody fields. unfold kept_fields.
    induction Hall as [|[n v] fields (Heq & Hn & Hv) Hall IH];
      [reflexivity|].
    cbn [fst snd] in Heq, Hn, Hv.
    cbn [map flat_map filter fst snd]. rewrite IH.
    change (field_str (n, v)) with (n ++ String "=" v).
    replace (String.eqb (n ++ String "=" v) "") with false
      by (symmetry; apply String.eqb_neq; destruct n; discriminate).
    rewrite (cut_app "=" n v Heq).
    destruct (String.eqb v ""); reflexivity.
  - subst fields; discriminate.
  - apply Forall_map. eapply Forall_impl; [|exact Hall].
    intros [n v] (_ & Hn & Hv). unfold field_str; cbn [fst snd] in *.
    apply contains_char_app; [assumption|].
    change ("=" ++ v) with (String "=" v).
    unfold contains_char in *. cbn. now destruct (cut "&" v) as [[a r]|].
Qed.

(** What [parse_qsl] makes of any query string: its occurrences whose
    value is not empty. *)
Lemma parse_qsl_occurrences (qs : str) :
  parse_qsl qs = kept_fields (occurrences qs).
Proof.
  unfold parse_qsl, occurrences, kept_fields.
  induction (split_all "&" qs) as [|piece pieces IH]; [reflexivity|].
  cbn [flat_map]. rewrite IH, filter_app, map_app. f_equal.
  destruct (String.eqb piece "") eqn:E.
  - apply String.eqb_eq in E. now subst piece.
  - destruct (cut "=" piece) as [[name value]|]; [|reflexivity].
    cbn [filter snd]. now destruct (String.eqb value "").
Qed.

(** [parse_qs] groups the values of a name in the order of the pairs. *)
Lemma parse_qs_fold (pairs : list (str * str)) (d : dict (list str))
    (name : str) :
  dict_get name
    (fold_left
       (fun parsed_result nv =>
          let '(name, value) := nv in
          match dict_get name parsed_result with
          | Some values =>
              dict_set name (values ++ [value])%list parsed_result
          | None => dict_set name [value] parsed_result
          end) pairs d) =
  match values_of name pairs with
  | [] => dict_get name d
  | vs =>
      Some (match dict_get name d with
            | Some old => old ++ vs
            | None => vs
            end)%list
  end.
Proof.
  revert d. induction pairs as [|[n v] pairs IH]; intros d; [reflexivity|].
  cbn [fold_left]. rewrite IH. unfold values_of. cbn [filter fst].
  destruct (String.eqb n name) eqn:E.
  - apply String.eqb_eq in E; subst n. cbn [map snd].
    fold (values_of name pairs).
    destruct (dict_get name d) as [old|]; rewrite dict_get_set_same;
      destruct (values_of name pairs); cbn; try reflexivity;
      now rewrite <- app_assoc.
  - apply String.eqb_neq in E. fold (values_of name pairs).
    destruct (dict_get n d) as [old|];
      now rewrite dict_get_set_other by assumption.
Qed.

Lemma parse_qs_values (qs name : str) :
  dict_get name (parse_qs qs) =
  match values_of name (parse_qsl qs) with
  | [] => None
  | vs => Some vs
  end.
Proof.
  unfold parse_qs. rewrite parse_qs_fold. reflexivity.
Qed.

(** C4, as the code has it.  The [query] of a parsed request is [parse_qs]
    of the query component of the target.  Whatever that component is, the
    values of each name are the values of its [key=value] occurrences of
    that name whose value is not empty, in their order of appearance (names
    and values decoded); an occurrence whose value is empty is not in the
    mapping, and a piece without ["="] neither adds nor removes anything.
    In particular, when the component spells the fields [fields], these
    are its occurrences. *)
Theorem parse_request_query (raw : bytes) (req : Request) :
  parse_request raw = Return req ->
  exists header_blob line0 lines method target version path qs,
    split_once SEPARATOR raw = Some (header_blob, body req)
    /\ bytes_split CRLF_bytes header_blob = line0 :: lines
    /\ split_ws (decode line0) = [method; target; version]
    /\ urlparse target = Return (path, qs)
    /\ query req = parse_qs qs
    /\ (forall fields,
          Forall plain_field fields ->
          qs = query_string fields ->
          forall name,
            dict_get name (query req) =
            match values_of name (kept_fields fields) with
            | [] => None
            | vs => Some vs
            end)
    /\ (forall name,
          dict_get name (query req) =
          match values_of name (kept_fields (occurrences qs)) with
          | [] => None
          | vs => Some vs
          end).
Proof.
  unfold parse_request. intros H.
  destruct (split_once SEPARATOR raw) as [[header_blob body0]|] eqn:Hsplit;
    [|discriminate].
  destruct (bytes_split CRLF_bytes header_blob) as [|line0 lines] eqn:Hlines;
    [discriminate|].
  destruct (split_ws (decode line0))
    as [|m [|target [|version [|? ?]]]] eqn:Hws;
    try discriminate.
  destruct (negb (startswith version "HTTP/")); [discriminate|].
  destruct (urlparse target) as [[path qs]|e] eqn:Hurl; [|discriminate].
  injection H as <-. cbn [body query].
  exists header_blob, line0, lines, m, target, version, path, qs.
  repeat split; try assumption; try reflexivity.
  - intros fields Hplain -> name.
    now rewrite parse_qs_values, parse_qsl_query_string.
  - intros name. now rewrite parse_qs_values, parse_qsl_occurrences.
Qed.

End QueryProperties.

(** ** Frame reader *)

Lemma recv_pending (bufsize : Z) (sock sock' : socket) (chunk : bytes) :
  recv bufsize sock = (chunk, sock') ->
  chunk <> [] ->
  (pending sock' < pending sock)%nat.
Proof.
  intros H Hne. destruct chunk as [|x chunk]; [congruence|].
  recv_decreases H.
Qed.

Lemma recv_headers_step (data : bytes) (sock : socket) :
  recv_headers data sock =
  if contains SEPARATOR data then (Return data, sock)
  else
    match recv 4096 sock with
    | ([], sock') => (Return data, sock')
    | (chunk, sock') =>
        if 2000000 <? len (data ++ chunk)%list
        then (Raise (ValueError "Request too large"), sock')
        else recv_headers (data ++ chunk)%list sock'
    end.
Proof.
  rewrite recv_headers_equation_1.
  destruct (contains SEPARATOR data); cbn; [reflexivity|].
  now destruct (recv 4096 sock) as [[|x chunk] sock'].
Qed.

(** A buffer over the limit makes the loop raise, whichever round it is
    reached in. *)
Lemma rounds_too_large (s s' : bytes * socket) :
  clos_refl_trans_1n _ round s s' ->
  len (fst s) <= 2000000 ->
  2000000 < len (fst s') ->
  fst (recv_headers (fst s) (snd s)) = Raise (ValueError "Request too large").
Proof.
  induction 1 as [s | s y s' Hround Hrest IH]; intros Hle Hgt; [lia|].
  destruct Hround as [data sock chunk sock' Hsep Hrecv Hne].
  cbn [fst snd] in *.
  rewrite recv_headers_step, Hsep, Hrecv.
  destruct chunk as [|x chunk]; [congruence|].
  destruct (2000000 <? len (data ++ x :: chunk)%list) eqn:E; [reflexivity|].
  apply IH; [|assumption]. now apply Z.ltb_ge in E.
Qed.

(** The loop raises nothing but "Request too large", and only past the
    limit; this is by induction on the bytes the socket holds. *)
Lemma recv_headers_raises (n : nat) :
  forall (data : bytes) (sock sock' : socket) (e : exn),
    (pending sock < n)%nat ->
    recv_headers data sock = (Raise e, sock') ->
    e = ValueError "Request too large"
    /\ exists data',
         clos_refl_trans_1n _ round (data, sock) (data', sock')
         /\ 2000000 < len data'.
Proof.
  induction n as [|n IH]; intros data sock sock' e Hn H; [lia|].
  rewrite recv_headers_step in H.
  destruct (contains SEPARATOR data) eqn:Hsep; [discriminate|].
  destruct (recv 4096 sock) as [[|x chunk] sock1] eqn:Hrecv; [discriminate|].
  assert (Hround : round (data, sock) ((data ++ x :: chunk)%list, sock1))
    by (constructor; [assumption | assumption | discriminate]).
  destruct (2000000 <? len (data ++ x :: chunk)%list) eqn:E.
  - injection H as <- <-. split; [reflexivity|].
    exists (data ++ x :: chunk)%list. split.
    + eapply Relation_Operators.rt1n_trans;
        [exact Hround | apply Relation_Operators.rt1n_refl].
    + now apply Z.ltb_lt in E.
  - assert (Hlt : (pending sock1 < pending sock)%nat)
      by (eapply recv_pending; [exact Hrecv | discriminate]).
    apply IH in H; [|lia].
    destruct H as (-> & data' & Hrounds & Hgt). split; [reflexivity|].
    exists data'. split; [|assumption].
    eapply Relation_Operators.rt1n_trans; eassumption.
Qed.

(** A buffer without a carriage return does not hold the separator. *)
Lemma no_cr_no_separator (data : bytes) :
  ~ In x0d data -> contains SEPARATOR data = false.
Proof.
  unfold contains. induction data as [|x data IH]; intros Hcr;
    [reflexivity|].
  cbn [split_once]. unfold SEPARATOR at 1. cbn [prefixb].
  destruct (Byte.eqb x0d x) eqn:E.
  - apply Byte.byte_dec_bl in E. subst x. exfalso. apply Hcr. now left.
  - cbn [andb].
    destruct (split_once SEPARATOR data) as [[h r]|]; [|reflexivity].
    exfalso. assert (Hrest : ~ In x0d data) by (intros H; apply Hcr; now right).
    apply IH in Hrest. discriminate.
Qed.

Lemma recv_whole_segment (seg : bytes) (rest : socket) :
  seg <> [] -> len seg <= 4096 -> recv 4096 (seg :: rest) = (seg, rest).
Proof.
  intros Hne Hlen. unfold recv. destruct seg as [|x seg]; [congruence|].
  now apply Z.leb_le in Hlen as ->.
Qed.

Lemma length_concat_repeat (chunk : bytes) (k : nat) :
  List.length (List.concat (repeat chunk k)) = (k * List.length chunk)%nat.
Proof.
  induction k as [|k IH]; cbn [repeat List.concat]; [reflexivity|].
  rewrite length_app, IH. lia.
Qed.

(** A socket that delivers [k] times a segment without carriage return:
    the loop reads the segments one by one. *)
Lemma flood_rounds (chunk : bytes) (k : nat) :
  chunk <> [] -> len chunk <= 4096 -> ~ In x0d chunk ->
  forall data,
    ~ In x0d data ->
    clos_refl_trans_1n _ round
      (data, repeat chunk k)
      ((data ++ List.concat (repeat chunk k))%list, []).
Proof.
  intros Hne Hlen Hcr. induction k as [|k IH]; intros data Hdata;
    cbn [repeat List.concat].
  - rewrite app_nil_r. apply Relation_Operators.rt1n_refl.
  - rewrite app_assoc.
    eapply Relation_Operators.rt1n_trans.
    + constructor;
        [now apply no_cr_no_separator | now apply recv_whole_segment
        | assumption].
    + apply IH. rewrite in_app_iff. tauto.
Qed.

Lemma flood_too_large (chunk : bytes) (k : nat) :
  chunk <> [] -> len chunk <= 4096 -> ~ In x0d chunk ->
  2000000 < Z.of_nat k * len chunk ->
  too_large (repeat chunk k).
Proof.
  intros Hne Hlen Hcr Hbig.
  exists (List.concat (repeat chunk k)), []. split.
  - apply (flood_rounds chunk k Hne Hlen Hcr []). tauto.
  - unfold len in *. rewrite length_concat_repeat. lia.
Qed.

Section FramingProperties.
Context {float : Type} {L : PyLib float}.

(** The outcomes of [recv_http], by the branch it takes. *)
Lemma recv_http_failures_code (sock : socket) :
  (too_large sock <->
   fst (recv_http sock) = Raise (ValueError "Request too large"))
  /\ ((exists cl, framed_content_length sock = Some cl
                  /\ int_of_str cl = None) <->
      fst (recv_http sock) = Raise (ValueError "Invalid Content-Length"))
  /\ (~ too_large sock ->
      (forall cl, framed_content_length sock = Some cl ->
                  int_of_str cl <> None) ->
      exists data, fst (recv_http sock) = Return data).
Proof.
  unfold recv_http, framed_content_length, too_large.
  destruct (recv_headers [] sock) as [[data|e] sock1] eqn:Hscan.
  - (* the loop returned [data] *)
    assert (Hnot : ~ exists data' sock',
               clos_refl_trans_1n _ round ([], sock) (data', sock')
               /\ 2000000 < len data').
    { intros (data' & sock' & Hrounds & Hgt).
      apply rounds_too_large in Hrounds; [|cbn; lia | assumption].
      cbn [fst snd] in Hrounds. now rewrite Hscan in Hrounds. }
    destruct (split_once SEPARATOR data) as [[header_blob rest]|].
    + destruct (dict_get "content-length" _) as [cl|].
      * destruct (int_of_str cl) as [length|] eqn:Hint.
        -- destruct (0 <? length - len rest);
             [destruct (read_exact sock1 (length - len rest))|];
             cbn [fst]; (split; [|split]).
           all: try (split; [intros Hbig; exfalso; exact (Hnot Hbig)
                            | discriminate]).
           all: try (intros _ _; eexists; reflexivity).
           all: split; [intros (cl' & [= <-] & Hnone); congruence
                       | discriminate].
        -- cbn [fst]. split; [|split].
           ++ split; [intros; exfalso; auto | discriminate].
           ++ split; [reflexivity | intros _; now exists cl].
           ++ intros _ Hall. now destruct (Hall cl eq_refl).
      * cbn [fst]. split; [|split].
        -- split; [intros; exfalso; auto | discriminate].
        -- split; [intros (cl & [=] & _) | discriminate].
        -- intros; eexists; reflexivity.
    + cbn [fst]. split; [|split].
      * split; [intros; exfalso; auto | discriminate].
      * split; [intros (cl & [=] & _) | discriminate].
      * intros; eexists; reflexivity.
  - (* the loop raised *)
    destruct (recv_headers_raises (S (pending sock)) [] sock sock1 e
                ltac:(lia) Hscan) as (-> & data' & Hrounds & Hgt).
    cbn [fst].
    split; [|split].
    + split; [reflexivity | intros _; now exists data', sock1].
    + split; [intros (cl & [=] & _) | discriminate].
    + intros Hnot. exfalso. apply Hnot. now exists data', sock1.
Qed.

(** C10.  A [content-length] that reads as a negative integer is accepted:
    [recv_http] returns the buffer as the first loop left it and reads
    nothing more from the socket. *)
Theorem negative_content_length_accepted
    (sock sock1 : socket) (data header_blob rest : bytes) (cl : str)
    (length : Z) :
  recv_headers [] sock = (Return data, sock1) ->
  split_once SEPARATOR data = Some (header_blob, rest) ->
  dict_get "content-length"
    (header_dict (tl (bytes_split CRLF_bytes header_blob))) = Some cl ->
  int_of_str cl = Some length ->
  length < 0 ->
  recv_http sock = (Return data, sock1).
Proof.
  intros Hscan Hsplit Hcl Hint Hneg. unfold recv_http.
  rewrite Hscan, Hsplit, Hcl, Hint.
  assert (Hlen : 0 <= len rest) by (unfold len; lia).
  replace (0 <? length - len rest) with false
    by (symmetry; apply Z.ltb_ge; lia).
  now rewrite <- (split_once_sound _ _ _ _ Hsplit).
Qed.

End FramingProperties.

(** ** Handlers and the store *)

Ltac run_monad :=
  unfold bind, ret, raise, lift, get, put in *; cbn beta iota in *.

Section StoreProperties.
Context {float : Type} {L : PyLib float}.
Variable home_page : str.

Lemma map_id_update_first
    (p : Todo float -> bool) (f : Todo float -> Todo float)
    (l : list (Todo float)) :
  (forall t, t_id (f t) = t_id t) ->
  map t_id (update_first p f l) = map t_id l.
Proof.
  intros Hf. induction l as [|t l IH]; cbn; [reflexivity|].
  destruct (p t); cbn; [now rewrite Hf | now rewrite IH].
Qed.

Lemma find_update_first (p : Todo float -> bool) (f : Todo float -> Todo float)
    (l : list (Todo float)) (t : Todo float) :
  (forall t, p (f t) = p t) ->
  find p l = Some t ->
  find p (update_first p f l) = Some (f t).
Proof.
  intros Hf. induction l as [|t0 l IH]; cbn; [discriminate|].
  destruct (p t0) eqn:E; cbn.
  - intros [= ->]. now rewrite Hf, E.
  - rewrite E. exact IH.
Qed.

(** [find_index] returns the place of the first todo that [p] accepts. *)
Lemma find_index_Some
    (p : Todo float -> bool) (l : list (Todo float)) (idx : nat) :
  find_index p l = Some idx ->
  exists l1 t l2,
    l = (l1 ++ t :: l2)%list /\ p t = true
    /\ Forall (fun t' => p t' = false) l1
    /\ pop idx l = (l1 ++ l2)%list.
Proof.
  revert idx. induction l as [|t0 l IH]; intros idx; cbn; [discriminate|].
  destruct (p t0) eqn:E.
  - intros [= <-]. now exists [], t0, l.
  - destruct (find_index p l) as [i|]; [|discriminate].
    intros [= <-].
    destruct (IH i eq_refl) as (l1 & t & l2 & -> & Ht & Hl1 & Hpop).
    exists (t0 :: l1), t, l2. repeat split; try assumption.
    + now constructor.
    + change (pop (S i) (t0 :: l1 ++ t :: l2)%list)
        with (t0 :: pop i (l1 ++ t :: l2)%list).
      now rewrite Hpop.
Qed.

Lemma find_index_None (p : Todo float -> bool) (l : list (Todo float)) :
  find_index p l = None <-> Forall (fun t => p t = false) l.
Proof.
  induction l as [|t0 l IH]; cbn; [now split|].
  destruct (p t0) eqn:E.
  - split; [discriminate|]. intros H. inversion H; congruence.
  - destruct (find_index p l) as [i|].
    + split; [discriminate|]. intros H. inversion H as [|? ? _ Hl]; subst.
      now apply IH in Hl.
    + split; [|reflexivity]. intros _. constructor; [assumption | now apply IH].
Qed.

Lemma has_id_false_iff (todo_id : Z) (l : list (Todo float)) :
  Forall (fun t => has_id todo_id t = false) l <-> ~ In todo_id (map t_id l).
Proof.
  unfold has_id. induction l as [|t l IH]; cbn.
  - split; [tauto | constructor].
  - split.
    + intros H. inversion H as [|? ? Ht Hl]; subst.
      apply Z.eqb_neq in Ht. apply IH in Hl. tauto.
    + intros H. constructor; [apply Z.eqb_neq; tauto | apply IH; tauto].
Qed.

(** *** What each handler does to the store *)

Lemma create_step (req : Request) (now : float) (st : State float) :
  store_step st (snd (handle_create_todo req now st)).
Proof.
  unfold handle_create_todo.
  destruct (negb (is_json req)); [now apply step_keep|].
  destruct (json_loads (body_or_empty_object req)) as [payload|msg|e];
    try now apply step_keep.
  run_monad.
  destruct (py_get payload "text") as [v|e]; [|now apply step_keep].
  destruct (py_strip (py_or v (PStr ""))) as [text|e]; [|now apply step_keep].
  destruct (String.eqb text ""); [now apply step_keep|].
  cbn.
  apply step_create
    with (t := {| t_id := next_id st; t_text := text;
                  t_done := false; t_created_at := now |});
    reflexivity.
Qed.

Lemma patch_step (req : Request) (todo_id : Z) (st : State float) :
  store_step st (snd (handle_patch_todo req todo_id st)).
Proof.
  unfold handle_patch_todo.
  destruct (negb (is_json req)); [now apply step_keep|].
  run_monad.
  destruct (find (has_id todo_id) (todos st)) as [todo|];
    [|now apply step_keep].
  destruct (json_loads (body_or_empty_object req)) as [payload|msg|e];
    try now apply step_keep.
  destruct (py_contains "text" payload) as [[|]|e];
    [| |now apply step_keep].
  - destruct (py_get payload "text") as [v|e]; [|now apply step_keep].
    destruct (py_strip (py_or v (PStr ""))) as [new_text|e];
      [|now apply step_keep].
    destruct (String.eqb new_text ""); [now apply step_keep|].
    destruct (py_contains "done" payload) as [[|]|e];
      [| |apply step_keep; [apply map_id_update_first|]; reflexivity].
    + destruct (py_getitem payload "done") as [d|e];
        [|apply step_keep; [apply map_id_update_first|]; reflexivity].
      destruct d; apply step_keep; cbn;
        unfold ids; cbn; rewrite ?map_id_update_first; reflexivity.
    + apply step_keep; [apply map_id_update_first|]; reflexivity.
  - destruct (py_contains "done" payload) as [[|]|e];
      try now apply step_keep.
    destruct (py_getitem payload "done") as [d|e]; [|now apply step_keep].
    destruct d; apply step_keep; cbn;
      unfold ids; cbn; rewrite ?map_id_update_first; reflexivity.
Qed.

Lemma delete_step (req : Request) (todo_id : Z) (st : State float) :
  store_step st (snd (handle_delete_todo req todo_id st)).
Proof.
  unfold handle_delete_todo. run_monad.
  destruct (find_index (has_id todo_id) (todos st)) as [idx|] eqn:E;
    [|now apply step_keep].
  destruct (find_index_Some _ _ _ E) as (l1 & t & l2 & Hl & _ & _ & Hpop).
  cbn. eapply step_delete; [exact Hl | exact Hpop | reflexivity].
Qed.

Lemma list_step (req : Request) (st : State float) :
  store_step st (snd (handle_list_todos req st)).
Proof.
  unfold handle_list_todos. run_monad.
  destruct (dict_get "done" (query req)) as [[|v values]|];
    try now apply step_keep.
  destruct (existsb _ _); [now apply step_keep|].
  destruct (existsb _ _); now apply step_keep.
Qed.

Lemma serve_step (conn : socket) (now : float) (st : State float) :
  store_step st (snd (serve home_page conn now st)).
Proof.
  unfold serve. run_monad.
  destruct (fst (recv_http conn)) as [raw|e]; [|now apply step_keep].
  destruct (parse_request raw) as [req|e]; [|now apply step_keep].
  destruct (route (method req) (path req)) as [[| |] [h|]];
    try now apply step_keep.
  destruct h; cbn [call_handler].
  - now apply step_keep.
  - now apply step_keep.
  - apply list_step.
  - apply create_step.
  - apply patch_step.
  - apply delete_step.
Qed.

Lemma handle_client_step (conn : socket) (now : float) (st : State float) :
  store_step st (snd (handle_client home_page conn now st)).
Proof.
  unfold handle_client.
  pose proof (serve_step conn now st) as H.
  now destruct (serve home_page conn now st) as [[resp|e] st'].
Qed.

End StoreProperties.

(** ** The store invariant *)

Lemma NoDup_snoc (l : list Z) (x : Z) :
  NoDup l -> ~ In x l -> NoDup (l ++ [x])%list.
Proof.
  induction l as [|y l IH]; intros Hnd Hx; cbn.
  - constructor; [tauto | constructor].
  - inversion Hnd as [|? ? Hy Hl]; subst. constructor.
    + rewrite in_app_iff. cbn in *. intuition congruence.
    + apply IH; [assumption | cbn in Hx; tauto].
Qed.

Section InvariantProperties.
Context {float : Type} {L : PyLib float}.
Variable home_page : str.

Lemma store_step_inv (st st' : State float) :
  store_step st st' -> store_inv st -> store_inv st'.
Proof.
  unfold store_inv, ids.
  intros [Hids Hnext | t Hid _ Htodos Hnext | l1 l2 t Hst Hst' Hnext]
         (Hnd & Hall & Hpos).
  - unfold ids in Hids. now rewrite Hids, Hnext.
  - rewrite Htodos, Hnext, map_app. cbn [map]. rewrite Hid.
    repeat split; [| |lia].
    + apply NoDup_snoc; [assumption|].
      intros Hin. rewrite Forall_forall in Hall. apply Hall in Hin. lia.
    + apply Forall_app. split.
      * eapply Forall_impl; [|exact Hall]. cbn. intros; lia.
      * constructor; [lia | constructor].
  - rewrite Hst, map_app in Hnd, Hall. cbn [map] in Hnd, Hall.
    rewrite Hst', Hnext, map_app. repeat split; [| |assumption].
    + eapply NoDup_remove_1; exact Hnd.
    + apply Forall_app in Hall as [H1 H2]. inversion H2; subst.
      now apply Forall_app.
Qed.

Lemma store_step_fresh (st st' : State float) :
  store_step st st' ->
  next_id st <= next_id st'
  /\ forall i, In i (ids st') -> i < next_id st -> In i (ids st).
Proof.
  unfold ids.
  intros [Hids Hnext | t Hid _ Htodos Hnext | l1 l2 t Hst Hst' Hnext].
  - unfold ids in Hids. rewrite Hids, Hnext. split; [lia | auto].
  - rewrite Htodos, Hnext, map_app. split; [lia|].
    intros i Hin Hlt. apply in_app_iff in Hin as [Hin|Hin]; [assumption|].
    cbn in Hin. lia.
  - rewrite Hst, Hst', Hnext, !map_app. split; [lia|].
    intros i Hin _. rewrite in_app_iff in *. cbn. tauto.
Qed.

Lemma reachable_inv (started : float) (st : State float) :
  reachable home_page started st -> store_inv st.
Proof.
  induction 1 as [|st conn now _ IH].
  - repeat split; cbn; [constructor | constructor | lia].
  - eapply store_step_inv; [apply handle_client_step | exact IH].
Qed.

Lemma run_fresh (conns : list (socket * float)) (st : State float) :
  next_id st <= next_id (run home_page conns st)
  /\ forall i, In i (ids (run home_page conns st)) -> i < next_id st ->
               In i (ids st).
Proof.
  revert st. induction conns as [|[conn now] conns IH]; intros st; cbn [run].
  - split; [lia | auto].
  - destruct (store_step_fresh _ _ (handle_client_step home_page conn now st))
      as [Hle Hfresh].
    destruct (IH (snd (handle_client home_page conn now st))) as [Hle' Hfresh'].
    split; [lia|].
    intros i Hin Hlt. apply Hfresh; [|assumption].
    apply Hfresh'; [assumption | lia].
Qed.

(** A call of [handle_create_todo] that appends a todo gives it the value
    of the counter and moves the counter on by one. *)
Lemma create_appends (req : Request) (now : float) (st st' : State float)
    (r : result bytes) (t : Todo float) :
  handle_create_todo req now st = (r, st') ->
  todos st' = (todos st ++ [t])%list ->
  t_id t = next_id st /\ next_id st' = next_id st + 1.
Proof.
  intros Hcall Happ.
  assert (Hsame : st' = st -> False).
  { intros ->. apply (f_equal (@List.length _)) in Happ.
    rewrite length_app in Happ. cbn in Happ. lia. }
  unfold handle_create_todo in Hcall.
  destruct (negb (is_json req));
    [injection Hcall as _ <-; now destruct Hsame|].
  destruct (json_loads (body_or_empty_object req)) as [payload|msg|e];
    try (injection Hcall as _ <-; now destruct Hsame).
  run_monad.
  destruct (py_get payload "text") as [v|e];
    [|injection Hcall as _ <-; now destruct Hsame].
  destruct (py_strip (py_or v (PStr ""))) as [text|e];
    [|injection Hcall as _ <-; now destruct Hsame].
  destruct (String.eqb text "");
    [injection Hcall as _ <-; now destruct Hsame|].
  injection Hcall as _ <-. cbn in Happ.
  apply app_inv_head in Happ. injection Happ as <-. now split.
Qed.

(** C6, as the code has it.  In every store that connections handled one
    after the other leave, the ids of the collection are distinct and each
    was issued by the counter (it is at least 1 and below [next_id]).  From
    such a store, whatever connections follow one after the other, the
    counter does not decrease and an id below the counter that is not in
    the collection (never issued to it, or deleted from it) does not come
    back.  Two creations, with any connections between them (deletions
    among them), give the later todo the greater id. *)
Theorem store_ids_unique_and_increasing (started : float) (st : State float) :
  reachable home_page started st ->
  NoDup (ids st)
  /\ Forall (fun i => 1 <= i < next_id st) (ids st)
  /\ (forall conns,
        next_id st <= next_id (run home_page conns st)
        /\ forall i, In i (ids (run home_page conns st)) ->
                     i < next_id st -> In i (ids st))
  /\ (forall req1 now1 r1 st1 t1 conns req2 now2 r2 st2 t2,
        handle_create_todo req1 now1 st = (r1, st1) ->
        todos st1 = (todos st ++ [t1])%list ->
        handle_create_todo req2 now2 (run home_page conns st1) = (r2, st2) ->
        todos st2 = (todos (run home_page conns st1) ++ [t2])%list ->
        t_id t1 < t_id t2).
Proof.
  intros Hreach. destruct (reachable_inv _ _ Hreach) as (Hnd & Hall & _).
  repeat split; try assumption; try apply run_fresh.
  intros req1 now1 r1 st1 t1 conns req2 now2 r2 st2 t2 Hc1 Ht1 Hc2 Ht2.
  destruct (create_appends _ _ _ _ _ _ Hc1 Ht1) as [Hid1 Hnext1].
  destruct (create_appends _ _ _ _ _ _ Hc2 Ht2) as [Hid2 _].
  destruct (run_fresh conns st1) as [Hle _]. lia.
Qed.


(** C8.  A PATCH on an existing id whose payload has a [text] that strips to
    a non-empty string and a [done] that is not a boolean is answered 422,
    and the todo already has the new text: a 422 of [handle_patch_todo] does
    not leave the store as it was. *)
Theorem patch_422_after_text_is_written
    (req : Request) (todo_id : Z) (st : State float) (todo : Todo float)
    (d : list (str * pyval float)) (t : str) (v : pyval float) :
  is_json req = true ->
  find (has_id todo_id) (todos st) = Some todo ->
  json_loads (body_or_empty_object req) = Loaded (PDict d) ->
  dict_get "text" d = Some (PStr t) ->
  strip t <> "" ->
  dict_get "done" d = Some v ->
  (forall bv, v <> PBool bv) ->
  let st' := snd (handle_patch_todo req todo_id st) in
  fst (handle_patch_todo req todo_id st) =
  Return (json_response 422 (error_obj "Field 'done' must be boolean"))
  /\ todos st' = update_first (has_id todo_id) (set_text (strip t)) (todos st)
  /\ find (has_id todo_id) (todos st') = Some (set_text (strip t) todo)
  /\ (t_text todo <> strip t -> st' <> st).
Proof.
  intros Hjson Hfind Hloads Htext Hstrip Hdone Hbool.
  assert (Ht : String.eqb t "" = false).
  { apply String.eqb_neq. intros ->. now apply Hstrip. }
  apply String.eqb_neq in Hstrip as Hstrip'.
  assert (Hcall : handle_patch_todo req todo_id st =
                  (Return (json_response 422
                             (error_obj "Field 'done' must be boolean")),
                   set_todos (update_first (has_id todo_id)
                                (set_text (strip t)) (todos st)) st)).
  { unfold handle_patch_todo. rewrite Hjson. run_monad. cbn [negb].
    rewrite Hfind, Hloads. cbn [py_contains py_get]. unfold dict_mem.
    rewrite Htext, Hdone. unfold py_or. cbn [truthy]. rewrite Ht.
    cbn [negb py_strip]. rewrite Hstrip'. cbn [py_getitem]. rewrite Hdone.
    destruct v; try reflexivity. now destruct (Hbool b0). }
  rewrite Hcall. cbn [fst snd todos set_todos]. repeat split.
  - now apply find_update_first.
  - intros Hne Heq. apply (f_equal todos) in Heq. cbn [todos set_todos] in Heq.
    pose proof (find_update_first (has_id todo_id) (set_text (strip t))
                  (todos st) todo (fun _ => eq_refl) Hfind) as Hnew.
    rewrite Heq, Hfind in Hnew. injection Hnew as Hnew.
    apply (f_equal t_text) in Hnew. cbn in Hnew. congruence.
Qed.

(** What [handle_create_todo] does when the payload is an object whose
    [text] is absent or a string: the four outcomes of the specification. *)
Lemma create_on_object_payload
    (req : Request) (now : float) (st : State float) :
  (is_json req = false ->
   handle_create_todo req now st =
   (Return (json_response 422
              (error_obj "Expected Content-Type: application/json")), st))
  /\ (is_json req = true ->
      forall msg,
        json_loads (body_or_empty_object req) = JSONDecodeError msg ->
        handle_create_todo req now st =
        (Return (json_response 400 (error_obj "Invalid JSON")), st))
  /\ (is_json req = true ->
      forall d,
        json_loads (body_or_empty_object req) = Loaded (PDict d) ->
        (dict_get "text" d = None \/
         exists t, dict_get "text" d = Some (PStr t) /\ strip t = "") ->
        handle_create_todo req now st =
        (Return (json_response 422 (error_obj "Field 'text' is required")),
         st))
  /\ (is_json req = true ->
      forall d t,
        json_loads (body_or_empty_object req) = Loaded (PDict d) ->
        dict_get "text" d = Some (PStr t) ->
        strip t <> "" ->
        let todo := {| t_id := next_id st; t_text := strip t;
                       t_done := false; t_created_at := now |} in
        handle_create_todo req now st =
        (Return (json_response 201 (todo_obj todo)),
         {| todos := (todos st ++ [todo])%list;
            next_id := next_id st + 1;
            started_at := started_at st |})).
Proof.
  unfold handle_create_todo. split; [|split; [|split]].
  - now intros ->.
  - now intros -> msg ->.
  - intros -> d -> Htext. run_monad. cbn [negb py_get].
    destruct Htext as [-> | (t & -> & Hstrip)]; [reflexivity|].
    unfold py_or. cbn [truthy].
    destruct (String.eqb t ""); cbn [negb py_strip]; [reflexivity|].
    now rewrite Hstrip.
  - intros -> d t -> Htext Hstrip. run_monad. cbn [negb py_get].
    rewrite Htext. unfold py_or. cbn [truthy].
    assert (Ht : String.eqb t "" = false).
    { apply String.eqb_neq. intros ->. now apply Hstrip. }
    rewrite Ht. cbn [negb py_strip].
    apply String.eqb_neq in Hstrip. now rewrite Hstrip.
Qed.

(** One worker that runs alone does what [handle_create_todo] does on a
    request that passes its checks. *)
Lemma worker_alone
    (req : Request) (now : float) (st : State float)
    (d : list (str * pyval float)) (t : str) :
  is_json req = true ->
  json_loads (body_or_empty_object req) = Loaded (PDict d) ->
  dict_get "text" d = Some (PStr t) ->
  strip t <> "" ->
  exists todo,
    interleave [0; 0; 0]%nat [AtLine246 (strip t) now] st
    = ([AtLine249 todo], snd (handle_create_todo req now st))
    /\ fst (handle_create_todo req now st)
       = Return (json_response 201 (todo_obj todo)).
Proof.
  intros Hjson Hloads Htext Hstrip.
  destruct (create_on_object_payload req now st) as (_ & _ & _ & H).
  rewrite (H Hjson d t Hloads Htext Hstrip). eexists. split; reflexivity.
Qed.

End InvariantProperties.

(** ** Dispatcher *)

(** A response starts with its status line. *)
Lemma http_response_status
    (status : Z) (body : bytes) (headers : option (dict str)) :
  exists rest,
    http_response status body headers =
    (encode (status_line status) ++ rest)%list.
Proof.
  unfold http_response. rewrite fold_header_lines, append_assoc, encode_app.
  rewrite <- app_assoc. eexists. reflexivity.
Qed.

(** A 500 response is not a 400 or a 422 response. *)
Lemma response_500_is_not_4xx
    (status : Z) (body body' : bytes) (headers headers' : option (dict str)) :
  status = 400 \/ status = 422 ->
  http_response 500 body headers <> http_response status body' headers'.
Proof.
  intros Hstatus Heq.
  destruct (http_response_status 500 body headers) as [rest Hrest].
  destruct (http_response_status status body' headers') as [rest' Hrest'].
  rewrite Hrest, Hrest' in Heq.
  apply (f_equal (fun l => nth_error l 9)) in Heq.
  destruct Hstatus as [-> | ->]; cbn in Heq; discriminate.
Qed.

Section DispatcherProperties.
Context {float : Type} {L : PyLib float}.
Variable home_page : str.

(** C9.  A POST /todos with a JSON content type whose body is JSON but not
    an object makes [handle_create_todo] raise (the payload has no [get]),
    and [handle_client] answers 500 with the message of the exception; the
    store is as it was.  The answer is neither a 400 nor a 422. *)
Theorem create_non_object_payload_is_500
    (conn : socket) (now : float) (st : State float) (raw : bytes)
    (req : Request) (v : pyval float) :
  fst (recv_http conn) = Return raw ->
  parse_request raw = Return req ->
  method req = "POST" ->
  path req = "/todos" ->
  is_json req = true ->
  json_loads (body_or_empty_object req) = Loaded v ->
  (forall d, v <> PDict d) ->
  let detail := "'" ++ type_name v ++ "' object has no attribute 'get'" in
  let resp :=
    json_response 500
      (PDict [ ("error", PStr "Internal server error");
               ("detail", PStr detail) ]) in
  handle_create_todo req now st = (Raise (AttributeError detail), st)
  /\ handle_client home_page conn now st = (resp, st)
  /\ forall obj, resp <> json_response 400 obj
                 /\ resp <> json_response 422 obj.
Proof.
  intros Hrecv Hparse Hmethod Hpath Hjson Hloads Hobj detail resp.
  assert (Hcreate : handle_create_todo req now st
                    = (Raise (AttributeError detail), st)).
  { unfold handle_create_todo. rewrite Hjson, Hloads. run_monad. cbn [negb].
    destruct v; try reflexivity. now destruct (Hobj d). }
  split; [exact Hcreate|]. split.
  - unfold handle_client, serve. run_monad.
    rewrite Hrecv, Hparse, Hmethod, Hpath.
    change (route "POST" "/todos") with (OK, Some CreateTodo).
    cbn [call_handler]. now rewrite Hcreate.
  - intros obj. split; apply response_500_is_not_4xx; auto.
Qed.

End DispatcherProperties.

(** * Further properties of the code *)

(** ** Response writer: layout *)

Lemma fold_lines_of (l : dict str) (head : str) :
  fold_left (fun head kv => head ++ header_line kv) l head
  = head ++ lines_of l.
Proof.
  revert head. induction l as [|kv l IH]; intros head; cbn [fold_left lines_of].
  - now rewrite append_empty_r.
  - now rewrite IH, append_assoc.
Qed.

Lemma in_keys_dict_set {V} (x k : str) (v : V) (d : dict V) :
  In x (map fst (dict_set k v d)) -> x = k \/ In x (map fst d).
Proof.
  induction d as [|[k' v'] d IH]; cbn.
  - intros [<- | []]. now left.
  - destruct (String.eqb k' k); cbn; [tauto|].
    intros [<- | H]; [tauto|]. destruct (IH H); tauto.
Qed.

Lemma dict_set_NoDup {V} (k : str) (v : V) (d : dict V) :
  NoDup (map fst d) -> NoDup (map fst (dict_set k v d)).
Proof.
  induction d as [|[k' v'] d IH]; cbn; intros Hnd.
  - constructor; [tauto | constructor].
  - inversion Hnd as [|? ? Hk' Hd]; subst.
    destruct (String.eqb k' k) eqn:E; cbn; [now constructor|].
    constructor; [|now apply IH].
    intros Hin. apply in_keys_dict_set in Hin as [-> | Hin]; [|tauto].
    now rewrite String.eqb_refl in E.
Qed.

Lemma dict_update_NoDup {V} (d other : dict V) :
  NoDup (map fst d) -> NoDup (map fst (dict_update d other)).
Proof.
  unfold dict_update. revert d.
  induction other as [|[k v] other IH]; intros d Hnd; cbn [fold_left];
    [assumption|].
  apply IH. now apply dict_set_NoDup.
Qed.

Lemma base_headers_NoDup (body : bytes) (headers : dict str) :
  NoDup (map fst (base_headers body headers)).
Proof.
  unfold base_headers. apply dict_update_NoDup.
  destruct (negb (dict_mem "Content-Type" headers) && _).
  - apply dict_set_NoDup. repeat constructor; cbn; intuition discriminate.
  - repeat constructor; cbn; intuition discriminate.
Qed.

Lemma http_response_lines
    (status : Z) (body : bytes) (headers : option (dict str)) :
  http_response status body headers
  = (encode (status_line status
             ++ lines_of (base_headers body (or_empty headers)) ++ CRLF)%string
     ++ body)%list.
Proof.
  unfold http_response. fold (or_empty headers).
  now rewrite fold_lines_of, append_assoc.
Qed.


(** ** Response writer: the body after the first empty line *)

Lemma encode_char_shape (c : ascii) :
  encode_char c <> [] /\ (In x0d (encode_char c) -> c = CR).
Proof.
  destruct c as [[|] [|] [|] [|] [|] [|] [|] [|]]; vm_compute;
    (split; [discriminate | intuition congruence]).
Qed.

Lemma no_cr_cons (c : ascii) (s : str) :
  Ascii.eqb c CR = false -> no_cr s -> no_cr (String c s).
Proof.
  unfold no_cr, contains_char. cbn. intros ->.
  now destruct (cut _ s) as [[a r]|].
Qed.

Lemma no_cr_inv (c : ascii) (s : str) :
  no_cr (String c s) -> c <> CR /\ no_cr s.
Proof.
  intros H. apply contains_char_false, cut_None_cons in H as [Hc H].
  split.
  - intros ->. now rewrite Ascii.eqb_refl in Hc.
  - unfold no_cr, contains_char. now rewrite H.
Qed.

Lemma no_cr_app (s1 s2 : str) : no_cr s1 -> no_cr s2 -> no_cr (s1 ++ s2).
Proof. apply contains_char_app. Qed.

Lemma encode_no_cr (s : str) : no_cr s -> ~ In x0d (encode s).
Proof.
  induction s as [|c s IH]; cbn [encode]; [tauto|].
  intros H Hin. apply no_cr_inv in H as [Hc H].
  apply in_app_iff in Hin as [Hin|Hin].
  - now apply encode_char_shape in Hin.
  - now apply IH.
Qed.

Lemma encode_first (s : str) :
  no_cr s -> s <> "" -> exists y t, encode s = y :: t /\ y <> x0d.
Proof.
  intros Hcr Hne. destruct s as [|c s]; [congruence|].
  pose proof (encode_no_cr _ Hcr) as Hfree. cbn [encode] in *.
  destruct (encode_char c) as [|y t] eqn:E;
    [now destruct (encode_char_shape c)|].
  exists y, (t ++ encode s)%list. split; [reflexivity|].
  intros ->. apply Hfree. now left.
Qed.

Lemma string_of_uint_no_cr (d : Decimal.uint) :
  no_cr (NilEmpty.string_of_uint d).
Proof.
  induction d; cbn [NilEmpty.string_of_uint];
    [reflexivity | apply no_cr_cons; [reflexivity | assumption] ..].
Qed.

Lemma str_of_int_no_cr (n : Z) : no_cr (str_of_int n).
Proof.
  unfold str_of_int, NilZero.string_of_int, NilZero.string_of_uint.
  destruct (Z.to_int n) as [d|d].
  - destruct d; try reflexivity; apply string_of_uint_no_cr.
  - apply no_cr_cons; [reflexivity|].
    destruct d; try reflexivity; apply string_of_uint_no_cr.
Qed.

Lemma reason_of_no_cr (status : Z) : no_cr (reason_of status).
Proof.
  unfold reason_of, REASONS. cbn [find fst snd].
  repeat (match goal with
          | |- context [if ?c then _ else _] => destruct c
          end; try reflexivity).
Qed.

Lemma dict_set_Forall {V} (P : str * V -> Prop) (k : str) (v : V)
    (d : dict V) :
  P (k, v) -> Forall P d -> Forall P (dict_set k v d).
Proof.
  intros Hkv. induction d as [|[k' v'] d IH]; intros Hd; cbn.
  - now constructor.
  - inversion Hd as [|? ? Hhd Htl]; subst.
    destruct (String.eqb k' k) eqn:E.
    + apply String.eqb_eq in E; subst k'. now constructor.
    + constructor; [assumption | now apply IH].
Qed.

Lemma dict_update_Forall {V} (P : str * V -> Prop) (d other : dict V) :
  Forall P d -> Forall P other -> Forall P (dict_update d other).
Proof.
  unfold dict_update. revert d.
  induction other as [|[k v] other IH]; intros d Hd Hother; cbn [fold_left];
    [assumption|].
  inversion Hother; subst. apply IH; [|assumption].
  now apply dict_set_Forall.
Qed.

Lemma base_headers_no_cr (body : bytes) (headers : dict str) :
  Forall (fun kv => no_cr (fst kv) /\ no_cr (snd kv)) headers ->
  Forall (fun kv => no_cr (fst kv) /\ no_cr (snd kv))
         (base_headers body headers).
Proof.
  intros Hh. unfold base_headers. apply dict_update_Forall; [|assumption].
  assert (Hbase : Forall (fun kv : str * str => no_cr (fst kv) /\ no_cr (snd kv))
                    [ ("Server", "mini-server"); ("Connection", "close");
                      ("Content-Length", str_of_int (len body)) ]).
  { repeat constructor; cbn [fst snd]; try reflexivity.
    apply str_of_int_no_cr. }
  destruct (negb (dict_mem "Content-Type" headers) && _); [|assumption].
  apply dict_set_Forall; [|assumption]. now split.
Qed.

(** The scan for the separator passes over bytes that are not a carriage
    return, and over a line end that a byte other than a carriage return
    follows. *)
Lemma split_once_skip (e rest : bytes) :
  ~ In x0d e ->
  split_once SEPARATOR (e ++ rest)%list =
  match split_once SEPARATOR rest with
  | Some (h, r) => Some ((e ++ h)%list, r)
  | None => None
  end.
Proof.
  induction e as [|x e IH]; intros Hcr.
  - cbn [app]. now destruct (split_once SEPARATOR rest) as [[h r]|].
  - cbn [app split_once]. unfold SEPARATOR at 1. cbn [prefixb].
    destruct (Byte.eqb x0d x) eqn:E.
    + apply Byte.byte_dec_bl in E. subst x. exfalso. apply Hcr. now left.
    + cbn [andb]. rewrite IH by (intros H; apply Hcr; now right).
      now destruct (split_once SEPARATOR rest) as [[h r]|].
Qed.

Lemma split_once_cons (sep : bytes) (x : byte) (data : bytes) :
  split_once sep (x :: data) =
  if prefixb sep (x :: data)
  then Some ([], skipn (List.length sep) (x :: data))
  else match split_once sep data with
       | Some (h, r) => Some (x :: h, r)
       | None => None
       end.
Proof. reflexivity. Qed.

Lemma split_once_line_end (y : byte) (r : bytes) :
  y <> x0d ->
  split_once SEPARATOR (x0d :: x0a :: y :: r) =
  match split_once SEPARATOR (y :: r) with
  | Some (h, r') => Some (x0d :: x0a :: h, r')
  | None => None
  end.
Proof.
  intros Hy.
  assert (E : Byte.eqb x0d y = false).
  { destruct (Byte.eqb x0d y) eqn:E; [|reflexivity].
    apply Byte.byte_dec_bl in E. congruence. }
  rewrite (split_once_cons SEPARATOR x0d), (split_once_cons SEPARATOR x0a).
  replace (prefixb SEPARATOR (x0d :: x0a :: y :: r)) with false
    by (unfold SEPARATOR; cbn [prefixb]; now rewrite E).
  change (prefixb SEPARATOR (x0a :: y :: r)) with false.
  now destruct (split_once SEPARATOR (y :: r)) as [[h r']|].
Qed.

Lemma scan_lines (hs : dict str) (body : bytes) :
  Forall (fun kv => no_cr (fst kv) /\ no_cr (snd kv)) hs ->
  forall c,
    no_cr c -> c <> "" ->
    exists h,
      split_once SEPARATOR
        (encode (c ++ CRLF ++ lines_of hs ++ CRLF)%string ++ body)%list
      = Some (h, body).
Proof.
  induction 1 as [|[k v] hs [Hk Hv] Hall IH]; intros c Hc Hne.
  - cbn [lines_of]. rewrite encode_app, <- app_assoc.
    rewrite split_once_skip by now apply encode_no_cr.
    change (encode (CRLF ++ "" ++ CRLF)%string ++ body)%list
      with (x0d :: x0a :: x0d :: x0a :: body).
    eexists. reflexivity.
  - cbn [lines_of fst snd] in *. unfold header_line. cbn [fst snd].
    set (c' := k ++ ": " ++ v).
    replace (c ++ CRLF ++ ((k ++ ": " ++ v ++ CRLF) ++ lines_of hs) ++ CRLF)
      with (c ++ CRLF ++ (c' ++ CRLF ++ lines_of hs ++ CRLF))
      by (unfold c'; now rewrite !append_assoc).
    assert (Hc' : no_cr c')
      by (unfold c'; repeat apply no_cr_app; try assumption; reflexivity).
    assert (Hne' : c' <> "") by (unfold c'; destruct k; discriminate).
    destruct (IH c' Hc' Hne') as [h Hh].
    rewrite encode_app, <- app_assoc.
    rewrite split_once_skip by now apply encode_no_cr.
    rewrite (encode_app CRLF), <- app_assoc.
    change (encode CRLF) with [x0d; x0a]. cbn [app].
    destruct (encode_first c' Hc' Hne') as (y & t & Hy & Hcr).
    rewrite encode_app, Hy in Hh |- *. cbn [app] in Hh |- *.
    rewrite split_once_line_end by assumption.
    rewrite Hh. eexists. reflexivity.
Qed.

(** X3.  When no header name or value of the caller has a carriage return,
    the first empty line of the output of [http_response] is the end of its
    head: what [split(b"\r\n\r\n", 1)] returns after it is the body, byte
    for byte, whatever the body holds. *)
Theorem http_response_body_round_trip
    (status : Z) (body : bytes) (headers : option (dict str)) :
  Forall (fun kv => no_cr (fst kv) /\ no_cr (snd kv)) (or_empty headers) ->
  exists head,
    split_once SEPARATOR (http_response status body headers)
    = Some (head, body).
Proof.
  intros Hcr. unfold http_response. fold (or_empty headers).
  rewrite fold_lines_of. unfold status_line.
  set (c := "HTTP/1.1 " ++ str_of_int status ++ " " ++ reason_of status).
  replace ((("HTTP/1.1 " ++ str_of_int status ++ " " ++ reason_of status
             ++ CRLF)
            ++ lines_of (base_headers body (or_empty headers))) ++ CRLF)
    with (c ++ CRLF ++ lines_of (base_headers body (or_empty headers))
          ++ CRLF)
    by (unfold c; now rewrite !append_assoc).
  apply scan_lines.
  - now apply base_headers_no_cr.
  - unfold c. repeat apply no_cr_app;
      auto using str_of_int_no_cr, reason_of_no_cr; reflexivity.
  - discriminate.
Qed.

(** ** Response writer: the mandatory headers *)

Lemma lines_of_app (l1 l2 : dict str) :
  lines_of (l1 ++ l2)%list = lines_of l1 ++ lines_of l2.
Proof.
  induction l1 as [|kv l1 IH]; cbn [app lines_of]; [reflexivity|].
  now rewrite IH, append_assoc.
Qed.

(** The first empty line of a head whose lines hold no carriage return is
    the one that ends it. *)
Lemma scan_head (hs : dict str) (body : bytes) :
  Forall (fun kv => no_cr (fst kv) /\ no_cr (snd kv)) hs ->
  forall c,
    no_cr c -> c <> "" ->
    exists h,
      split_once SEPARATOR
        (encode (c ++ CRLF ++ lines_of hs ++ CRLF)%string ++ body)%list
      = Some (h, body)
      /\ (h ++ CRLF_bytes)%list = encode (c ++ CRLF ++ lines_of hs)%string.
Proof.
  induction 1 as [|[k v] hs [Hk Hv] Hall IH]; intros c Hc Hne.
  - cbn [lines_of]. rewrite encode_app, <- app_assoc.
    rewrite split_once_skip by now apply encode_no_cr.
    change (encode (CRLF ++ "" ++ CRLF)%string ++ body)%list
      with (x0d :: x0a :: x0d :: x0a :: body).
    eexists. split; [reflexivity|].
    rewrite app_nil_r, encode_app. reflexivity.
  - cbn [lines_of fst snd] in *. unfold header_line. cbn [fst snd].
    set (c' := k ++ ": " ++ v).
    replace (c ++ CRLF ++ ((k ++ ": " ++ v ++ CRLF) ++ lines_of hs) ++ CRLF)
      with (c ++ CRLF ++ (c' ++ CRLF ++ lines_of hs ++ CRLF))
      by (unfold c'; now rewrite !append_assoc).
    replace (c ++ CRLF ++ (k ++ ": " ++ v ++ CRLF) ++ lines_of hs)
      with (c ++ CRLF ++ (c' ++ CRLF ++ lines_of hs))
      by (unfold c'; now rewrite !append_assoc).
    assert (Hc' : no_cr c')
      by (unfold c'; repeat apply no_cr_app; try assumption; reflexivity).
    assert (Hne' : c' <> "") by (unfold c'; destruct k; discriminate).
    destruct (IH c' Hc' Hne') as (h & Hh & Hhead).
    rewrite encode_app, <- app_assoc.
    rewrite split_once_skip by now apply encode_no_cr.
    rewrite (encode_app CRLF), <- app_assoc.
    change (encode CRLF) with [x0d; x0a]. cbn [app].
    destruct (encode_first c' Hc' Hne') as (y & t & Hy & Hcr).
    rewrite encode_app, Hy in Hh. cbn [app] in Hh.
    rewrite encode_app, Hy. cbn [app].
    rewrite split_once_line_end by assumption.
    rewrite Hh. eexists. split; [reflexivity|].
    rewrite <- !app_assoc. cbn [app]. rewrite Hhead.
    rewrite (encode_app c), (encode_app CRLF). reflexivity.
Qed.

(** The head of a response whose caller passes no carriage return is its
    status line and its header lines. *)
Lemma head_of_http_response
    (status : Z) (body : bytes) (headers : option (dict str)) :
  Forall (fun kv => no_cr (fst kv) /\ no_cr (snd kv)) (or_empty headers) ->
  split_once SEPARATOR (http_response status body headers)
  = Some (removelast
            (removelast
               (encode (status_line status
                        ++ lines_of (base_headers body (or_empty headers))))),
          body)
  /\ head_of (http_response status body headers)
     = encode (status_line status
               ++ lines_of (base_headers body (or_empty headers))).
Proof.
  intros Hcr. unfold head_of. rewrite http_response_lines.
  unfold status_line.
  set (c := "HTTP/1.1 " ++ str_of_int status ++ " " ++ reason_of status).
  set (hs := base_headers body (or_empty headers)).
  replace (("HTTP/1.1 " ++ str_of_int status ++ " " ++ reason_of status
            ++ CRLF) ++ lines_of hs ++ CRLF)
    with (c ++ CRLF ++ lines_of hs ++ CRLF)
    by (unfold c; now rewrite !append_assoc).
  replace (("HTTP/1.1 " ++ str_of_int status ++ " " ++ reason_of status
            ++ CRLF) ++ lines_of hs)
    with (c ++ CRLF ++ lines_of hs)
    by (unfold c; now rewrite !append_assoc).
  destruct (scan_head hs body (base_headers_no_cr _ _ Hcr) c) as (h & -> & Hh).
  - unfold c. repeat apply no_cr_app;
      auto using str_of_int_no_cr, reason_of_no_cr; reflexivity.
  - discriminate.
  - rewrite <- Hh. split; [|reflexivity].
    unfold CRLF_bytes.
    change (h ++ [x0d; x0a])%list with (h ++ [x0d] ++ [x0a])%list.
    now rewrite app_assoc, !removelast_last.
Qed.

(** A line of the head follows a line end. *)
Lemma head_line (status : Z) (hs : dict str) (name value : str) :
  In (name, value) hs ->
  contains (encode (CRLF ++ header_line (name, value)))
           (encode (status_line status ++ lines_of hs)) = true.
Proof.
  intros Hin. apply in_split in Hin as (l1 & l2 & ->).
  rewrite lines_of_app. cbn [lines_of].
  destruct (fold_header_lines_crlf l1 _ (status_line_crlf status)) as [x Hx].
  rewrite fold_lines_of in Hx.
  rewrite <- append_assoc, Hx.
  replace ((x ++ CRLF) ++ header_line (name, value) ++ lines_of l2)
    with (x ++ (CRLF ++ header_line (name, value)) ++ lines_of l2)
    by now rewrite !append_assoc.
  rewrite (encode_app x), (encode_app (CRLF ++ header_line (name, value))).
  apply contains_complete. discriminate.
Qed.

Lemma dict_set_keys {V} (k : str) (v : V) (d : dict V) :
  exists extra, map fst (dict_set k v d) = (map fst d ++ extra)%list.
Proof.
  induction d as [|[k' v'] d [extra IH]]; cbn.
  - now exists [k].
  - destruct (String.eqb k' k); cbn.
    + exists []. now rewrite app_nil_r.
    + exists extra. now rewrite IH.
Qed.

(** [d.update(other)] keeps the keys of [d] in their places. *)
Lemma dict_update_keys {V} (d other : dict V) :
  exists extra, map fst (dict_update d other) = (map fst d ++ extra)%list.
Proof.
  unfold dict_update. revert d.
  induction other as [|[k v] other IH]; intros d; cbn [fold_left fst snd].
  - exists []. now rewrite app_nil_r.
  - destruct (IH (dict_set k v d)) as [e2 H2].
    destruct (dict_set_keys k v d) as [e1 H1].
    exists (e1 ++ e2)%list. now rewrite H2, H1, app_assoc.
Qed.

Lemma dict_get_None_keys {V} (k : str) (d : dict V) :
  dict_get k d = None -> ~ In k (map fst d).
Proof.
  induction d as [|[k' v'] d IH]; cbn; [tauto|].
  destruct (String.eqb k' k) eqn:E; [discriminate|].
  apply String.eqb_neq in E. intros H [Hk | Hin]; [congruence | now apply IH].
Qed.

(** The three mandatory names are the first three of [base_headers], in
    the order they were put there. *)
Lemma base_headers_first_three (body : bytes) (headers : dict str) :
  exists server connection length rest,
    base_headers body headers =
    ("Server", server) :: ("Connection", connection)
    :: ("Content-Length", length) :: rest.
Proof.
  unfold base_headers.
  set (base := if negb (dict_mem "Content-Type" headers) && _ then _ else _).
  destruct (dict_update_keys base headers) as [extra Hkeys].
  assert (Hbase : exists tail,
             map fst base =
             "Server" :: "Connection" :: "Content-Length" :: tail).
  { unfold base. destruct (negb (dict_mem "Content-Type" headers) && _);
      eexists; reflexivity. }
  destruct Hbase as [tail Hbase]. rewrite Hbase in Hkeys.
  destruct (dict_update base headers)
    as [|[k1 v1] [|[k2 v2] [|[k3 v3] rest]]]; try discriminate.
  cbn in Hkeys. injection Hkeys as -> -> -> _.
  now exists v1, v2, v3, rest.
Qed.

(** C2, as the code has it.  After the status line [http_response] writes
    the lines [Server], [Connection] and [Content-Length], then the other
    header lines, the empty line and the body.  A line whose name the caller
    does not give has its default: [mini-server], [close], the byte length
    of the body; a line whose name the caller gives has the caller's value.
    When the caller passes no carriage return, the three lines are in the
    head that a reader finds before the first empty line. *)
Theorem http_response_mandatory_headers
    (status : Z) (body : bytes) (headers : option (dict str)) :
  let out := http_response status body headers in
  let caller := or_empty headers in
  exists server connection length rest,
    out = (encode (status_line status
                   ++ header_line ("Server", server)
                   ++ header_line ("Connection", connection)
                   ++ header_line ("Content-Length", length)
                   ++ lines_of rest ++ CRLF)%string ++ body)%list
    /\ (dict_get "Server" caller = None -> server = "mini-server")
    /\ (dict_get "Connection" caller = None -> connection = "close")
    /\ (dict_get "Content-Length" caller = None ->
        length = str_of_int (len body))
    /\ (NoDup (map fst caller) ->
        (forall v, dict_get "Server" caller = Some v -> server = v)
        /\ (forall v, dict_get "Connection" caller = Some v -> connection = v)
        /\ (forall v, dict_get "Content-Length" caller = Some v ->
                      length = v))
    /\ (Forall (fun kv => no_cr (fst kv) /\ no_cr (snd kv)) caller ->
        head_has_line out "Server" server = true
        /\ head_has_line out "Connection" connection = true
        /\ head_has_line out "Content-Length" length = true).
Proof.
  cbv zeta.
  destruct (base_headers_first_three body (or_empty headers))
    as (server & connection & length & rest & Hshape).
  assert (Hserver : dict_get "Server" (base_headers body (or_empty headers))
                    = Some server) by now rewrite Hshape.
  assert (Hconn : dict_get "Connection" (base_headers body (or_empty headers))
                  = Some connection) by now rewrite Hshape.
  assert (Hlen : dict_get "Content-Length"
                   (base_headers body (or_empty headers))
                 = Some length) by now rewrite Hshape.
  exists server, connection, length, rest.
  split; [|split; [|split; [|split; [|split]]]].
  - rewrite http_response_lines, Hshape. cbn [lines_of].
    now rewrite !append_assoc.
  - intros Hnone.
    rewrite base_headers_mandatory in Hserver by (discriminate || assumption).
    now injection Hserver.
  - intros Hnone.
    rewrite base_headers_mandatory in Hconn by (discriminate || assumption).
    now injection Hconn.
  - intros Hnone.
    rewrite base_headers_mandatory in Hlen by (discriminate || assumption).
    now injection Hlen.
  - intros Hnd. unfold base_headers in Hserver, Hconn, Hlen.
    split; [|split]; intros v Hv.
    + rewrite (dict_get_update_present _ v) in Hserver by assumption.
      now injection Hserver.
    + rewrite (dict_get_update_present _ v) in Hconn by assumption.
      now injection Hconn.
    + rewrite (dict_get_update_present _ v) in Hlen by assumption.
      now injection Hlen.
  - intros Hcr. unfold head_has_line.
    destruct (head_of_http_response status body headers Hcr) as [_ ->].
    split; [|split]; apply head_line; rewrite Hshape; cbn; tauto.
Qed.


(** ** Dispatcher: every response *)

Lemma answers_ret {St} (resp : bytes) :
  plain_response resp -> answers (St := St) (ret resp).
Proof. intros H st r st' [= <- _]. exact H. Qed.

Lemma answers_raise {St} (e : exn) : answers (St := St) (raise e).
Proof. intros st r st' [=]. Qed.

Lemma answers_bind {St A} (m : M St A) (k : A -> M St bytes) :
  (forall a, answers (k a)) -> answers (bind m k).
Proof.
  intros Hk st r st'. unfold bind.
  destruct (m st) as [[a|e] st1]; [apply Hk | discriminate].
Qed.

(** The first empty line of a [plain_response] ends its head, and the head
    has the three mandatory lines. *)
Lemma plain_response_lines (resp : bytes) :
  plain_response resp ->
  exists status body headers,
    resp = http_response status body headers
    /\ In status [200; 201; 204; 400; 404; 405; 422; 500]
    /\ (exists head, split_once SEPARATOR resp = Some (head, body))
    /\ head_has_line resp "Content-Length" (str_of_int (len body)) = true
    /\ head_has_line resp "Server" "mini-server" = true
    /\ head_has_line resp "Connection" "close" = true.
Proof.
  intros (status & body & headers & -> & Hstatus & Hcl & Hserver & Hconn
          & Hcr).
  exists status, body, headers.
  split; [reflexivity|]. split; [exact Hstatus|].
  destruct (head_of_http_response status body headers Hcr) as [Hsplit Hhead].
  split; [eexists; exact Hsplit|].
  unfold head_has_line. rewrite Hhead.
  split; [|split]; apply head_line, dict_get_Some_In;
    (rewrite base_headers_mandatory; [reflexivity | discriminate | assumption]).
Qed.

Section ResponseProperties.
Context {float : Type} {L : PyLib float}.
Variable home_page : str.

Ltac known_status := unfold REASONS; cbn [map fst In]; tauto.

Lemma json_response_plain (status : Z) (obj : pyval float) :
  In status (map fst REASONS) -> plain_response (json_response status obj).
Proof.
  intros H. unfold json_response.
  eexists status, _, _. split; [reflexivity|].
  split; [exact H|].
  split; [|split; [|split]]; [reflexivity .. |].
  constructor; [split; reflexivity | constructor].
Qed.

Ltac plain :=
  match goal with
  | |- plain_response (json_response _ _) =>
      apply json_response_plain; known_status
  | |- plain_response (http_response ?s ?b ?h) =>
      exists s, b, h; split; [reflexivity|]; split; [known_status|];
      split; [|split; [|split]]; [reflexivity .. |];
      repeat (constructor; try (split; reflexivity))
  end.

Ltac all_answers :=
  cbv zeta;
  repeat first
    [ apply answers_ret; plain
    | apply answers_raise
    | apply answers_bind; intros
    | match goal with
      | |- answers (if ?c then _ else _) => destruct c
      | |- answers (match ?x with _ => _ end) => destruct x
      end ].

Lemma call_handler_answers (h : handler) (req : Request) (now : float) :
  answers (call_handler home_page h req now).
Proof.
  destruct h; cbn [call_handler];
    unfold handle_home, handle_health, handle_list_todos, handle_create_todo,
      handle_patch_todo, handle_delete_todo;
    all_answers.
Qed.

Lemma serve_answers (conn : socket) (now : float) :
  answers (serve home_page conn now).
Proof.
  unfold serve. do 2 (apply answers_bind; intros).
  destruct (route (method a0) (path a0)) as [[| |] [h|]]; all_answers.
  apply call_handler_answers.
Qed.

(** X4.  Every response that [handle_client] sends has a status of
    [REASONS]; its first empty line ends its head and what follows is the
    body; and the head has [Content-Length] with the byte length of that
    body, [Server: mini-server] and [Connection: close]: no caller of
    [http_response] in the module names one of the three. *)
Theorem handle_client_response
    (conn : socket) (now : float) (st : State float) :
  exists status body headers,
    let resp := fst (handle_client home_page conn now st) in
    resp = http_response status body headers
    /\ In status [200; 201; 204; 400; 404; 405; 422; 500]
    /\ (exists head, split_once SEPARATOR resp = Some (head, body))
    /\ head_has_line resp "Content-Length" (str_of_int (len body)) = true
    /\ head_has_line resp "Server" "mini-server" = true
    /\ head_has_line resp "Connection" "close" = true.
Proof.
  cbv zeta. apply plain_response_lines. unfold handle_client.
  destruct (serve home_page conn now st) as [[resp|e] st'] eqn:E; cbn [fst].
  - exact (serve_answers conn now st resp st' E).
  - apply json_response_plain. known_status.
Qed.

End ResponseProperties.

(** ** Router: the routes that match *)

Lemma prefix_app (p s : str) :
  String.prefix p s = true -> exists r, s = p ++ r.
Proof.
  revert s. induction p as [|a p IH]; intros s H.
  - now exists s.
  - destruct s as [|c s]; cbn in H; [discriminate|].
    destruct (ascii_dec a c) as [<-|]; [|discriminate].
    destruct (IH s H) as [r ->]. now exists r.
Qed.

Section RouteMatches.
Context {float : Type} {L : PyLib float}.

(** X5.  [route] returns a handler for six combinations and no other: GET
    on [/], [/health] and [/todos], POST on [/todos], and PATCH and DELETE
    on [/todos/<segment>] when [int] reads the segment, with the integer it
    reads as the id.  It never returns ["OK"] without a handler. *)
Theorem route_matches (method path : str) (h : handler) :
  (route method path = (OK, Some h) <->
   (path = "/" /\ method = "GET" /\ h = Home)
   \/ (path = "/health" /\ method = "GET" /\ h = Health)
   \/ (path = "/todos" /\ method = "GET" /\ h = ListTodos)
   \/ (path = "/todos" /\ method = "POST" /\ h = CreateTodo)
   \/ (exists segment todo_id,
         path = "/todos/" ++ segment
         /\ int_of_str segment = Some todo_id
         /\ ((method = "PATCH" /\ h = PatchTodo todo_id)
             \/ (method = "DELETE" /\ h = DeleteTodo todo_id))))
  /\ route method path <> (OK, None).
Proof.
  split; [split|].
  - unfold route.
    destruct (String.eqb path "/") eqn:E1.
    { apply String.eqb_eq in E1.
      destruct (String.eqb method "GET") eqn:Em; cbn [negb]; [|discriminate].
      apply String.eqb_eq in Em. intros [= <-]. tauto. }
    destruct (String.eqb path "/health") eqn:E2.
    { apply String.eqb_eq in E2.
      destruct (String.eqb method "GET") eqn:Em; cbn [negb]; [|discriminate].
      apply String.eqb_eq in Em. intros [= <-]. tauto. }
    destruct (String.eqb path "/todos") eqn:E3.
    { apply String.eqb_eq in E3.
      destruct (String.eqb method "GET") eqn:Em.
      - apply String.eqb_eq in Em. intros [= <-]. tauto.
      - destruct (String.eqb method "POST") eqn:Ep; [|discriminate].
        apply String.eqb_eq in Ep. intros [= <-]. tauto. }
    destruct (startswith path "/todos/") eqn:E4; [|discriminate].
    apply prefix_app in E4 as [segment ->].
    rewrite dynamic_segment.
    destruct (int_of_str segment) as [todo_id|] eqn:Hint; [|discriminate].
    intros H. do 4 right. exists segment, todo_id.
    split; [reflexivity|]. split; [assumption|].
    destruct (String.eqb method "PATCH") eqn:Ep.
    + apply String.eqb_eq in Ep. injection H as <-. tauto.
    + destruct (String.eqb method "DELETE") eqn:Ed; [|discriminate].
      apply String.eqb_eq in Ed. injection H as <-. tauto.
  - intros [(-> & -> & ->) | [(-> & -> & ->) | [(-> & -> & ->)
           | [(-> & -> & ->) | (segment & todo_id & -> & Hint & Hm)]]]];
      try reflexivity.
    rewrite route_dynamic, Hint.
    now destruct Hm as [(-> & ->) | (-> & ->)].
  - unfold route.
    repeat match goal with
           | |- context [if ?c then _ else _] => destruct c
           | |- context [match ?x with Some _ => _ | None => _ end] =>
               destruct x
           end; discriminate.
Qed.

End RouteMatches.

(** ** Request parser: headers, body and query *)

Lemma split_once_leftmost (sep data h r : bytes) :
  split_once sep data = Some (h, r) ->
  forall h' r',
    data = (h' ++ sep ++ r')%list -> (List.length h <= List.length h')%nat.
Proof.
  revert h. induction data as [|x data IH]; intros h H h' r' Hdata;
    [discriminate|].
  rewrite split_once_cons in H.
  destruct (prefixb sep (x :: data)) eqn:Hp.
  - injection H as <- _. cbn. lia.
  - destruct (split_once sep data) as [[h1 r1]|] eqn:Hrec; [|discriminate].
    injection H as <- <-.
    destruct h' as [|y h'].
    + cbn [app] in Hdata. rewrite Hdata, prefixb_app in Hp. discriminate.
    + injection Hdata as -> Hdata. cbn [List.length].
      specialize (IH h1 eq_refl h' r' Hdata). lia.
Qed.

Lemma fold_left_ext_eq {A B} (f g : A -> B -> A) (l : list B) (a : A) :
  (forall a b, f a b = g a b) -> fold_left f l a = fold_left g l a.
Proof.
  intros Hfg. revert a. induction l as [|x l IH]; intros a; cbn;
    [reflexivity | now rewrite Hfg, IH].
Qed.

Section ParserProperties.
Context {float : Type} {L : PyLib float}.

Lemma header_dict_app (l1 l2 : list bytes) :
  header_dict (l1 ++ l2) =
  fold_left
    (fun headers line =>
       match header_of line with
       | Some (k, v) => dict_set k v headers
       | None => headers
       end)
    l2 (header_dict l1).
Proof.
  unfold header_dict. rewrite fold_left_app. apply fold_left_ext_eq.
  intros headers line. unfold header_of.
  now destruct (cut ":" (decode line)) as [[k v]|].
Qed.

Lemma header_fold_NoDup (lines : list bytes) (d : dict str) :
  NoDup (map fst d) ->
  NoDup (map fst
           (fold_left
              (fun headers line =>
                 match header_of line with
                 | Some (k, v) => dict_set k v headers
                 | None => headers
                 end) lines d)).
Proof.
  revert d. induction lines as [|line lines IH]; intros d Hd;
    cbn [fold_left]; [assumption|].
  apply IH. destruct (header_of line) as [[k v]|]; [|assumption].
  now apply dict_set_NoDup.
Qed.

Lemma header_fold_other (lines : list bytes) (d : dict str) (name : str) :
  (forall line value, In line lines -> header_of line <> Some (name, value)) ->
  dict_get name
    (fold_left
       (fun headers line =>
          match header_of line with
          | Some (k, v) => dict_set k v headers
          | None => headers
          end) lines d)
  = dict_get name d.
Proof.
  revert d. induction lines as [|line lines IH]; intros d Hnot;
    cbn [fold_left]; [reflexivity|].
  rewrite IH by (intros l v Hin; apply Hnot; now right).
  destruct (header_of line) as [[k v]|] eqn:E; [|reflexivity].
  apply dict_get_set_other. intros ->.
  apply (Hnot line v); [now left | assumption].
Qed.

(** X6.  The headers of a request are a dictionary: each name is there
    once; a name that no line gives is absent; and when several lines give
    the same name (after [strip] and [lower]), its value is the value of
    the last of them. *)
Theorem header_dict_last_wins (lines : list bytes) :
  NoDup (map fst (header_dict lines))
  /\ (forall name,
        (forall line value,
            In line lines -> header_of line <> Some (name, value)) ->
        dict_get name (header_dict lines) = None)
  /\ (forall before line after name value,
        lines = (before ++ line :: after)%list ->
        header_of line = Some (name, value) ->
        (forall l v, In l after -> header_of l <> Some (name, v)) ->
        dict_get name (header_dict lines) = Some value).
Proof.
  split; [|split].
  - rewrite <- (app_nil_l lines), header_dict_app.
    apply header_fold_NoDup. constructor.
  - intros name Hnot. rewrite <- (app_nil_l lines), header_dict_app.
    now rewrite header_fold_other.
  - intros before line after name value -> Hline Hafter.
    rewrite header_dict_app. cbn [fold_left]. rewrite Hline.
    rewrite header_fold_other by assumption.
    apply dict_get_set_same.
Qed.

(** X7.  [parse_request] fails with "Malformed HTTP request" on bytes that
    do not hold the separator; when it returns a request, the body is what
    follows the leftmost separator of the message, unchanged. *)
Theorem parse_request_body (raw : bytes) :
  ((forall h r, raw <> (h ++ SEPARATOR ++ r)%list) ->
   parse_request raw =
   Raise (ValueError
            "Malformed HTTP request (missing header/body separator)"))
  /\ (forall req,
        parse_request raw = Return req ->
        exists header_blob,
          raw = (header_blob ++ SEPARATOR ++ body req)%list
          /\ forall h r,
               raw = (h ++ SEPARATOR ++ r)%list ->
               (List.length header_blob <= List.length h)%nat).
Proof.
  unfold parse_request. split.
  - intros Hnone.
    destruct (split_once SEPARATOR raw) as [[h r]|] eqn:E; [|reflexivity].
    apply split_once_sound in E. now destruct (Hnone h r).
  - intros req H.
    destruct (split_once SEPARATOR raw) as [[header_blob body0]|] eqn:E;
      [|discriminate].
    assert (Hbody : body req = body0).
    { destruct (bytes_split CRLF_bytes header_blob) as [|line0 lines];
        [discriminate|].
      destruct (split_ws (decode line0))
        as [|m [|target [|version [|? ?]]]]; try discriminate.
      destruct (negb (startswith version "HTTP/")); [discriminate|].
      destruct (urlparse target) as [[p qs]|e]; [|discriminate].
      now injection H as <-. }
    exists header_blob. rewrite Hbody. split.
    + now apply split_once_sound.
    + intros h r Heq. eapply split_once_leftmost; eassumption.
Qed.

Lemma parse_request_query_source (raw : bytes) (req : Request) :
  parse_request raw = Return req -> exists qs, query req = parse_qs qs.
Proof.
  unfold parse_request. intros H.
  destruct (split_once SEPARATOR raw) as [[header_blob body0]|];
    [|discriminate].
  destruct (bytes_split CRLF_bytes header_blob) as [|line0 lines];
    [discriminate|].
  destruct (split_ws (decode line0))
    as [|m [|target [|version [|? ?]]]]; try discriminate.
  destruct (negb (startswith version "HTTP/")); [discriminate|].
  destruct (urlparse target) as [[p qs]|e]; [|discriminate].
  injection H as <-. now exists qs.
Qed.

(** X8.  The [query] of a request that [parse_request] built never maps a
    name to an empty list, so [query["done"][0]] in [handle_list_todos]
    does not raise [IndexError].  The handler leaves the store as it is,
    and a response it returns is the 200 that shows the whole collection,
    its todos that are done, or its todos that are not, in the order of the
    collection; the whole collection when the query has no [done]. *)
Theorem list_todos_on_parsed_request
    (raw : bytes) (req : Request) (st : State float) :
  parse_request raw = Return req ->
  (forall name values,
      dict_get name (query req) = Some values -> values <> [])
  /\ (forall msg,
        fst (handle_list_todos req st) <> Raise (IndexError msg))
  /\ snd (handle_list_todos req st) = st
  /\ (forall resp,
        fst (handle_list_todos req st) = Return resp ->
        exists shown,
          resp = json_response 200
                   (PDict [("todos", PList (map todo_obj shown))])
          /\ (shown = todos st
              \/ shown = filter t_done (todos st)
              \/ shown = filter (fun t => negb (t_done t)) (todos st))
          /\ (dict_get "done" (query req) = None -> shown = todos st)).
Proof.
  intros Hparse. destruct (parse_request_query_source _ _ Hparse) as [qs Hq].
  assert (Hvalues : forall name values,
             dict_get name (query req) = Some values -> values <> []).
  { intros name values. rewrite Hq, parse_qs_values.
    destruct (values_of name (parse_qsl qs)); [discriminate|].
    intros [= <-]. discriminate. }
  split; [exact Hvalues|].
  unfold handle_list_todos. run_monad.
  destruct (dict_get "done" (query req)) as [[|v values]|] eqn:Hdone.
  - now destruct (Hvalues "done" [] Hdone).
  - destruct (existsb _ _); [|destruct (existsb _ _)];
      (split; [discriminate|]); (split; [reflexivity|]);
      intros resp [= <-]; eexists;
      (split; [reflexivity|]); (split; [tauto | discriminate]).
  - split; [discriminate|]. split; [reflexivity|].
    intros resp [= <-]. eexists.
    split; [reflexivity|]. split; [tauto | reflexivity].
Qed.

End ParserProperties.

(** ** The store: what changes it and what it holds *)

Lemma lstrip_head (s : str) (c : ascii) (r : str) :
  lstrip s = String c r -> isspace c = false.
Proof.
  induction s as [|a s IH]; cbn; [discriminate|].
  destruct (isspace a) eqn:E; [exact IH|]. now intros [= <- _].
Qed.

Lemma rstrip_cons (c : ascii) (r : str) :
  isspace c = false -> rstrip (String c r) = String c (rstrip r).
Proof.
  intros Hc. cbn. rewrite Hc. now destruct (rstrip r).
Qed.

Lemma rstrip_idempotent (s : str) : rstrip (rstrip s) = rstrip s.
Proof.
  induction s as [|c s IH]; [reflexivity|].
  cbn [rstrip]. destruct (rstrip s) as [|d r] eqn:E.
  - destruct (isspace c) eqn:Hc; [reflexivity|]. cbn. now rewrite Hc.
  - cbn [rstrip]. cbn [rstrip] in IH. now rewrite IH.
Qed.

(** [s.strip().strip()] is [s.strip()]. *)
Lemma strip_idempotent (s : str) : strip (strip s) = strip s.
Proof.
  unfold strip. destruct (lstrip s) as [|c r] eqn:E; [reflexivity|].
  apply lstrip_head in E. rewrite rstrip_cons by assumption.
  cbn [lstrip]. rewrite E.
  rewrite <- rstrip_cons by assumption. apply rstrip_idempotent.
Qed.

Section StoreDataProperties.
Context {float : Type} {L : PyLib float}.
Variable home_page : str.

Lemma py_strip_stripped (v : pyval float) (text : str) :
  py_strip v = Return text -> strip text = text.
Proof.
  destruct v; try discriminate. intros [= <-]. apply strip_idempotent.
Qed.

Lemma update_first_Forall (P : Todo float -> Prop) (p : Todo float -> bool)
    (f : Todo float -> Todo float) (l : list (Todo float)) :
  (forall t, P t -> P (f t)) -> Forall P l -> Forall P (update_first p f l).
Proof.
  intros Hf. induction 1 as [|t l Ht Hl IH]; cbn; [constructor|].
  destruct (p t); constructor; auto.
Qed.

Lemma list_keeps_store (req : Request) (st : State float) :
  snd (handle_list_todos req st) = st.
Proof.
  unfold handle_list_todos. run_monad.
  destruct (dict_get "done" (query req)) as [[|v values]|]; try reflexivity.
  destruct (existsb _ _); [reflexivity|]. now destruct (existsb _ _).
Qed.

Lemma snd_handle_client (conn : socket) (now : float) (st : State float) :
  snd (handle_client home_page conn now st)
  = snd (serve home_page conn now st).
Proof.
  unfold handle_client.
  now destruct (serve home_page conn now st) as [[resp|e] st'].
Qed.

(** X9.  Only POST, PATCH and DELETE requests change the store: a
    connection whose request has another method, or on which no request is
    read, leaves the store as it was. *)
Theorem only_writes_change_store
    (conn : socket) (now : float) (st : State float) :
  (forall raw req,
      fst (recv_http conn) = Return raw ->
      parse_request raw = Return req ->
      method req <> "POST" /\ method req <> "PATCH"
      /\ method req <> "DELETE") ->
  snd (handle_client home_page conn now st) = st.
Proof.
  intros Hmethod. rewrite snd_handle_client. unfold serve. run_monad.
  destruct (fst (recv_http conn)) as [raw|e]; [|reflexivity].
  destruct (parse_request raw) as [req|e] eqn:Hparse; [|reflexivity].
  destruct (Hmethod raw req eq_refl Hparse) as (Hpost & Hpatch & Hdelete).
  apply String.eqb_neq in Hpost, Hpatch, Hdelete.
  unfold route. rewrite Hpost, Hpatch, Hdelete.
  repeat match goal with
         | |- context [if ?c then _ else _] => destruct c; cbn [negb]
         | |- context [match ?x with Some _ => _ | None => _ end] =>
             destruct x
         end;
    try reflexivity.
  apply list_keeps_store.
Qed.

(** *** The texts of the collection *)

Lemma create_keeps_texts (req : Request) (now : float) (st : State float) :
  Forall text_ok (todos st) ->
  Forall text_ok (todos (snd (handle_create_todo req now st)))
  /\ started_at (snd (handle_create_todo req now st)) = started_at st.
Proof.
  intros Hinv. unfold handle_create_todo.
  destruct (negb (is_json req)); [now split|].
  destruct (json_loads (body_or_empty_object req)) as [payload|msg|e];
    try now split.
  run_monad.
  destruct (py_get payload "text") as [v|e]; [|now split].
  destruct (py_strip (py_or v (PStr ""))) as [text|e] eqn:Hstrip;
    [|now split].
  destruct (String.eqb text "") eqn:Hempty; [now split|].
  cbn. split; [|reflexivity].
  apply Forall_app. split; [assumption|].
  constructor; [|constructor]. split; cbn.
  - now apply String.eqb_neq.
  - eapply py_strip_stripped; eassumption.
Qed.

Lemma patch_keeps_texts (req : Request) (todo_id : Z) (st : State float) :
  Forall text_ok (todos st) ->
  Forall text_ok (todos (snd (handle_patch_todo req todo_id st)))
  /\ started_at (snd (handle_patch_todo req todo_id st)) = started_at st.
Proof.
  intros Hinv.
  assert (Hdone : forall d (l : list (Todo float)),
             Forall text_ok l ->
             Forall text_ok (update_first (has_id todo_id) (set_done d) l)).
  { intros d l. apply update_first_Forall. now intros t [H1 H2]. }
  unfold handle_patch_todo.
  destruct (negb (is_json req)); [now split|].
  run_monad.
  destruct (find (has_id todo_id) (todos st)) as [todo|]; [|now split].
  destruct (json_loads (body_or_empty_object req)) as [payload|msg|e];
    try now split.
  destruct (py_contains "text" payload) as [[|]|e]; [| |now split].
  - destruct (py_get payload "text") as [v|e]; [|now split].
    destruct (py_strip (py_or v (PStr ""))) as [new_text|e] eqn:Hstrip;
      [|now split].
    destruct (String.eqb new_text "") eqn:Hempty; [now split|].
    assert (Htext : Forall text_ok
                      (update_first (has_id todo_id) (set_text new_text)
                                    (todos st))).
    { apply update_first_Forall; [|assumption]. intros t _. split; cbn.
      - now apply String.eqb_neq.
      - eapply py_strip_stripped; eassumption. }
    destruct (py_contains "done" payload) as [[|]|e]; try now split.
    destruct (py_getitem payload "done") as [d|e]; [|now split].
    destruct d; cbn; split; auto.
  - destruct (py_contains "done" payload) as [[|]|e]; try now split.
    destruct (py_getitem payload "done") as [d|e]; [|now split].
    destruct d; cbn; split; auto.
Qed.

Lemma delete_keeps_texts (req : Request) (todo_id : Z) (st : State float) :
  Forall text_ok (todos st) ->
  Forall text_ok (todos (snd (handle_delete_todo req todo_id st)))
  /\ started_at (snd (handle_delete_todo req todo_id st)) = started_at st.
Proof.
  intros Hinv. unfold handle_delete_todo. run_monad.
  destruct (find_index (has_id todo_id) (todos st)) as [idx|] eqn:E;
    [|now split].
  destruct (find_index_Some _ _ _ E) as (l1 & t & l2 & Hl & _ & _ & Hpop).
  cbn. split; [|reflexivity]. rewrite Hpop. rewrite Hl in Hinv.
  apply Forall_app in Hinv as [H1 H2]. inversion H2; subst.
  now apply Forall_app.
Qed.

Lemma handle_client_keeps_texts
    (conn : socket) (now : float) (st : State float) :
  Forall text_ok (todos st) ->
  Forall text_ok (todos (snd (handle_client home_page conn now st)))
  /\ started_at (snd (handle_client home_page conn now st)) = started_at st.
Proof.
  intros Hinv. rewrite snd_handle_client. unfold serve. run_monad.
  destruct (fst (recv_http conn)) as [raw|e]; [|now split].
  destruct (parse_request raw) as [req|e]; [|now split].
  destruct (route (method req) (path req)) as [[| |] [h|]]; try now split.
  destruct h; cbn [call_handler].
  - now split.
  - now split.
  - now rewrite list_keeps_store.
  - now apply create_keeps_texts.
  - now apply patch_keeps_texts.
  - now apply delete_keeps_texts.
Qed.

(** X10.  In every store the server can reach, [started_at] is the time the
    module was loaded, and the text of every todo is not empty and has no
    whitespace at either end: [handle_create_todo] and [handle_patch_todo]
    store the text stripped, and refuse one that strips to nothing. *)
Theorem store_texts_stripped (started : float) (st : State float) :
  reachable home_page started st ->
  started_at st = started /\ Forall text_ok (todos st).
Proof.
  induction 1 as [|st conn now _ [IHs IHt]].
  - split; [reflexivity | constructor].
  - destruct (handle_client_keeps_texts conn now st IHt) as [Ht Hs].
    split; [congruence | assumption].
Qed.

End StoreDataProperties.

(** ** PATCH and DELETE on a todo *)

Section PatchProperties.
Context {float : Type} {L : PyLib float}.
Variable home_page : str.

Lemma update_first_id (p : Todo float -> bool) (l : list (Todo float)) :
  update_first p (fun t => t) l = l.
Proof.
  induction l as [|t l IH]; cbn; [reflexivity|].
  destruct (p t); [reflexivity | now rewrite IH].
Qed.

Lemma update_first_twice (p : Todo float -> bool)
    (f g : Todo float -> Todo float) (l : list (Todo float)) :
  (forall t, p (f t) = p t) ->
  update_first p g (update_first p f l)
  = update_first p (fun t => g (f t)) l.
Proof.
  intros Hf. induction l as [|t l IH]; cbn; [reflexivity|].
  destruct (p t) eqn:E; cbn.
  - now rewrite Hf, E.
  - now rewrite E, IH.
Qed.

Lemma set_todos_same (st : State float) : set_todos (todos st) st = st.
Proof. now destruct st. Qed.

Lemma has_id_patched (todo_id : Z) (d : list (str * pyval float))
    (t : Todo float) :
  has_id todo_id (patched d t) = has_id todo_id t.
Proof.
  unfold patched, has_id.
  destruct (dict_get "text" d) as [[]|], (dict_get "done" d) as [[]|];
    reflexivity.
Qed.

(** What [handle_patch_todo] does on an object payload whose [text], if
    present, is a string that does not strip to nothing and whose [done],
    if present, is a boolean. *)
Lemma patch_on_object_payload
    (req : Request) (todo_id : Z) (st : State float) (todo : Todo float)
    (d : list (str * pyval float)) :
  is_json req = true ->
  find (has_id todo_id) (todos st) = Some todo ->
  json_loads (body_or_empty_object req) = Loaded (PDict d) ->
  (dict_get "text" d = None
   \/ exists x, dict_get "text" d = Some (PStr x) /\ strip x <> "") ->
  (dict_get "done" d = None
   \/ exists done, dict_get "done" d = Some (PBool done)) ->
  handle_patch_todo req todo_id st =
  (Return (json_response 200 (todo_obj (patched d todo))),
   set_todos (update_first (has_id todo_id) (patched d) (todos st)) st).
Proof.
  intros Hjson Hfind Hloads Htext Hdone.
  unfold handle_patch_todo. rewrite Hjson. run_monad. cbn [negb].
  rewrite Hfind, Hloads. cbn [py_contains py_get py_getitem].
  unfold dict_mem, patched.
  destruct Htext as [Htext | (x & Htext & Hstrip)];
    destruct Hdone as [Hdone | (done & Hdone)];
    rewrite ?Htext, ?Hdone; cbv zeta.
  - now rewrite update_first_id, set_todos_same.
  - reflexivity.
  - assert (Hx : String.eqb x "" = false).
    { apply String.eqb_neq. intros ->. now apply Hstrip. }
    apply String.eqb_neq in Hstrip.
    unfold py_or. cbn [truthy]. rewrite Hx. cbn [negb py_strip].
    now rewrite Hstrip.
  - assert (Hx : String.eqb x "" = false).
    { apply String.eqb_neq. intros ->. now apply Hstrip. }
    apply String.eqb_neq in Hstrip.
    unfold py_or. cbn [truthy]. rewrite Hx. cbn [negb py_strip].
    rewrite Hstrip. cbn [todos set_todos].
    rewrite update_first_twice by reflexivity. reflexivity.
Qed.

(** X11.  The partial update of [handle_patch_todo], on the store.  For an
    object payload whose [text], if present, is a string that does not
    strip to nothing and whose [done], if present, is a boolean, the todo
    with the id gets the fields the payload has and keeps the others:
    that is the todo the store then holds under the id, in the place it
    had, and nothing else in the store changes.  A response the handler
    returns is the 200 with that todo. *)
Theorem patch_partial_update
    (req : Request) (todo_id : Z) (st : State float) (todo : Todo float)
    (d : list (str * pyval float)) :
  is_json req = true ->
  find (has_id todo_id) (todos st) = Some todo ->
  json_loads (body_or_empty_object req) = Loaded (PDict d) ->
  (dict_get "text" d = None
   \/ exists x, dict_get "text" d = Some (PStr x) /\ strip x <> "") ->
  (dict_get "done" d = None
   \/ exists done, dict_get "done" d = Some (PBool done)) ->
  let st' := snd (handle_patch_todo req todo_id st) in
  st' = set_todos (update_first (has_id todo_id) (patched d) (todos st)) st
  /\ find (has_id todo_id) (todos st') = Some (patched d todo)
  /\ (forall resp,
        fst (handle_patch_todo req todo_id st) = Return resp ->
        resp = json_response 200 (todo_obj (patched d todo))).
Proof.
  intros Hjson Hfind Hloads Htext Hdone. cbv zeta.
  rewrite (patch_on_object_payload _ _ _ _ _ Hjson Hfind Hloads Htext Hdone).
  cbn [fst snd todos set_todos]. split; [reflexivity|]. split.
  - apply find_update_first; [|assumption].
    intros t. apply has_id_patched.
  - now intros resp [= <-].
Qed.

(** *** What a PATCH leaves alone *)

Lemma same_but_refl (todo_id : Z) (l : list (Todo float)) :
  Forall2 (same_but todo_id) l l.
Proof. induction l; constructor; [now repeat split | assumption]. Qed.

Lemma same_but_trans (todo_id : Z) (l l' l'' : list (Todo float)) :
  Forall2 (same_but todo_id) l l' ->
  Forall2 (same_but todo_id) l' l'' ->
  Forall2 (same_but todo_id) l l''.
Proof.
  intros H. revert l''.
  induction H as [|t t' l l' (Hid & Hcreated & Hother) _ IH];
    intros l'' H'; inversion H' as [|? t'' ? r'' (Hid' & Hcreated' & Hother') Hr];
    subst; constructor; [|now apply IH].
  repeat split; [congruence | congruence |].
  intros Hne. rewrite Hother' by congruence. now apply Hother.
Qed.

Lemma update_first_same_but (todo_id : Z) (f : Todo float -> Todo float)
    (l : list (Todo float)) :
  (forall t, t_id (f t) = t_id t /\ t_created_at (f t) = t_created_at t) ->
  Forall2 (same_but todo_id) l (update_first (has_id todo_id) f l).
Proof.
  intros Hf. induction l as [|t l IH]; cbn; [constructor|].
  destruct (has_id todo_id t) eqn:E; constructor.
  - destruct (Hf t) as [Hid Hcreated]. repeat split; [assumption..|].
    intros Hne. apply Z.eqb_eq in E. contradiction.
  - apply same_but_refl.
  - now repeat split.
  - exact IH.
Qed.

(** X12.  Whatever the request, [handle_patch_todo] changes at most the
    text and the [done] of todos with the id it is given: the collection
    keeps its length and its order, every todo keeps its id and its
    [created_at], a todo with another id is left as it is, and the counter
    does not move. *)
Theorem patch_touches_one_todo
    (req : Request) (todo_id : Z) (st : State float) :
  Forall2 (same_but todo_id)
          (todos st) (todos (snd (handle_patch_todo req todo_id st)))
  /\ next_id (snd (handle_patch_todo req todo_id st)) = next_id st.
Proof.
  assert (Hsame : Forall2 (same_but todo_id) (todos st) (todos st)
                  /\ next_id st = next_id st)
    by (split; [apply same_but_refl | reflexivity]).
  assert (Htext : forall s (l : list (Todo float)),
             Forall2 (same_but todo_id) l
                     (update_first (has_id todo_id) (set_text s) l))
    by (intros; now apply update_first_same_but).
  assert (Hdone : forall done (l : list (Todo float)),
             Forall2 (same_but todo_id) l
                     (update_first (has_id todo_id) (set_done done) l))
    by (intros; now apply update_first_same_but).
  unfold handle_patch_todo.
  destruct (negb (is_json req)); [exact Hsame|].
  run_monad.
  destruct (find (has_id todo_id) (todos st)) as [todo|]; [|exact Hsame].
  destruct (json_loads (body_or_empty_object req)) as [payload|msg|e];
    try exact Hsame.
  destruct (py_contains "text" payload) as [[|]|e]; [| |exact Hsame].
  - destruct (py_get payload "text") as [v|e]; [|exact Hsame].
    destruct (py_strip (py_or v (PStr ""))) as [new_text|e]; [|exact Hsame].
    destruct (String.eqb new_text ""); [exact Hsame|].
    destruct (py_contains "done" payload) as [[|]|e];
      try (cbn; split; [apply Htext | reflexivity]).
    destruct (py_getitem payload "done") as [v'|e];
      [|cbn; split; [apply Htext | reflexivity]].
    destruct v'; cbn; (split; [|reflexivity]); try apply Htext.
    eapply same_but_trans; [apply Htext | apply Hdone].
  - destruct (py_contains "done" payload) as [[|]|e]; try exact Hsame.
    destruct (py_getitem payload "done") as [v'|e]; [|exact Hsame].
    destruct v'; try exact Hsame.
    cbn. split; [apply Hdone | reflexivity].
Qed.

(** *** A todo that is created can be deleted *)

Lemma find_snoc (p : Todo float -> bool) (l : list (Todo float))
    (t : Todo float) :
  Forall (fun t' => p t' = false) l -> p t = true ->
  find p (l ++ [t])%list = Some t
  /\ find_index p (l ++ [t])%list = Some (List.length l).
Proof.
  intros Hl Ht. induction Hl as [|t' l Ht' _ [IH1 IH2]]; cbn.
  - now rewrite Ht.
  - now rewrite Ht', IH2.
Qed.

Lemma pop_snoc (l : list (Todo float)) (t : Todo float) :
  pop (List.length l) (l ++ [t])%list = l.
Proof.
  unfold pop. induction l as [|t' l IH]; cbn; [reflexivity|].
  cbn in IH. now rewrite IH.
Qed.

(** X13.  Create, then delete.  In a store whose ids are all below the
    counter, the todo that a call of [handle_create_todo] appends is the
    one its id addresses, and a call of [handle_delete_todo] for that id
    on the store the creation left answers 204 and leaves the collection
    as it was before the creation; the counter stays one further. *)
Theorem create_then_delete
    (st st1 : State float) (req req' : Request)
    (now : float) (r : result bytes) (t : Todo float) :
  Forall (fun i => i < next_id st) (ids st) ->
  handle_create_todo req now st = (r, st1) ->
  todos st1 = (todos st ++ [t])%list ->
  find (has_id (t_id t)) (todos st1) = Some t
  /\ handle_delete_todo req' (t_id t) st1 =
     (Return (http_response 204 (b "") None),
      {| todos := todos st; next_id := next_id st + 1;
         started_at := started_at st1 |}).
Proof.
  intros Hall Hcall Happ.
  destruct (create_appends _ _ _ _ _ _ Hcall Happ) as [Hid Hnext].
  assert (Hfresh : Forall (fun t' => has_id (t_id t) t' = false) (todos st)).
  { apply has_id_false_iff. fold (ids st). intros Hin.
    rewrite Forall_forall in Hall. apply Hall in Hin. lia. }
  assert (Hself : has_id (t_id t) t = true) by apply Z.eqb_refl.
  destruct (find_snoc _ _ _ Hfresh Hself) as [Hfind Hindex].
  split; [now rewrite Happ|].
  unfold handle_delete_todo. run_monad.
  rewrite Happ, Hindex, pop_snoc. unfold set_todos. now rewrite Hnext.
Qed.

End PatchProperties.

(** ** The frame reader and the stream *)

(** [recv] returns what comes next in the stream, at most [bufsize] bytes
    of it, and nothing only at the end of the stream. *)
Lemma recv_stream (bufsize : Z) (sock sock' : socket) (chunk : bytes) :
  0 < bufsize ->
  recv bufsize sock = (chunk, sock') ->
  stream sock = (chunk ++ stream sock')%list
  /\ len chunk <= bufsize
  /\ (chunk = [] -> stream sock = []).
Proof.
  intros Hpos. unfold recv.
  destruct sock as [|[|y seg] rest].
  - intros [= <- <-]. cbn. unfold len. cbn. repeat split; lia.
  - intros [= <- <-]. cbn. unfold len. cbn. repeat split; lia.
  - destruct (len (y :: seg) <=? bufsize) eqn:Hle.
    + intros [= <- <-]. apply Z.leb_le in Hle.
      repeat split; [assumption | discriminate].
    + apply Z.leb_gt in Hle. unfold len in *.
      remember (y :: seg) as s eqn:Hs.
      assert (Hk : (0 < Z.to_nat bufsize < List.length s)%nat) by lia.
      intros [= <- <-].
      destruct (skipn (Z.to_nat bufsize) s) as [|z r] eqn:Hskip.
      { apply (f_equal (@List.length _)) in Hskip.
        rewrite length_skipn in Hskip. cbn in Hskip. lia. }
      cbn [stream]. rewrite <- Hskip, app_assoc, firstn_skipn.
      repeat split.
      * subst s. reflexivity.
      * rewrite length_firstn. lia.
      * intros Hnil. apply (f_equal (@List.length _)) in Hnil.
        rewrite length_firstn in Hnil. cbn in Hnil. lia.
Qed.

Lemma read_exact_loop_step
    (sock : socket) (remaining : Z) (chunks : list bytes) :
  read_exact_loop sock remaining chunks =
  if 0 <? remaining then
    match recv (Z.min remaining 4096) sock with
    | ([], sock') => (chunks, sock')
    | (chunk, sock') =>
        read_exact_loop sock' (remaining - len chunk)
                        (chunks ++ [chunk])%list
    end
  else (chunks, sock).
Proof.
  rewrite read_exact_loop_equation_1.
  destruct (0 <? remaining); cbn; [|reflexivity].
  now destruct (recv (Z.min remaining 4096) sock) as [[|x chunk] sock'].
Qed.

Lemma read_exact_loop_stream (k : nat) :
  forall (sock : socket) (remaining : Z) (chunks : list bytes),
    (pending sock < k)%nat ->
    List.concat (fst (read_exact_loop sock remaining chunks))
    = (List.concat chunks
       ++ firstn (Z.to_nat remaining) (stream sock))%list
    /\ stream (snd (read_exact_loop sock remaining chunks))
       = skipn (Z.to_nat remaining) (stream sock).
Proof.
  induction k as [|k IH]; intros sock remaining chunks Hk; [lia|].
  rewrite read_exact_loop_step.
  destruct (0 <? remaining) eqn:Hpos.
  2: { apply Z.ltb_ge in Hpos.
       replace (Z.to_nat remaining) with O by lia.
       cbn. now rewrite app_nil_r. }
  apply Z.ltb_lt in Hpos.
  assert (Hbuf : 0 < Z.min remaining 4096) by lia.
  destruct (recv (Z.min remaining 4096) sock) as [[|x chunk] sock'] eqn:Hrecv.
  - destruct (recv_stream _ _ _ _ Hbuf Hrecv) as (Hs & _ & Hnil).
    specialize (Hnil eq_refl). rewrite Hnil in Hs. cbn in Hs.
    cbn [fst snd]. rewrite Hnil, <- Hs, firstn_nil, skipn_nil.
    now rewrite app_nil_r.
  - destruct (recv_stream _ _ _ _ Hbuf Hrecv) as (Hs & Hlen & _).
    assert (Hlt : (pending sock' < k)%nat).
    { assert (Hne : x :: chunk <> []) by discriminate.
      pose proof (recv_pending _ _ _ _ Hrecv Hne). lia. }
    destruct (IH sock' (remaining - len (x :: chunk))
                 (chunks ++ [x :: chunk])%list Hlt) as [IH1 IH2].
    unfold len in *. set (c := x :: chunk) in *.
    assert (Hc : (List.length c <= Z.to_nat remaining)%nat) by lia.
    replace (Z.to_nat (remaining - Z.of_nat (List.length c)))
      with (Z.to_nat remaining - List.length c)%nat in IH1, IH2 by lia.
    rewrite Hs, firstn_app, skipn_app.
    rewrite (firstn_all2 c Hc), (skipn_all2 c Hc).
    split.
    + etransitivity; [exact IH1|].
      rewrite concat_app. cbn [List.concat app].
      now rewrite app_nil_r, <- app_assoc.
    + etransitivity; [exact IH2|]. reflexivity.
Qed.

Lemma read_exact_takes (sock : socket) (n : Z) :
  fst (read_exact sock n) = firstn (Z.to_nat n) (stream sock)
  /\ stream (snd (read_exact sock n)) = skipn (Z.to_nat n) (stream sock).
Proof.
  unfold read_exact.
  pose proof (read_exact_loop_stream (S (pending sock)) sock n []
                ltac:(lia)) as [H1 H2].
  destruct (read_exact_loop sock n []) as [chunks sock'].
  cbn [fst snd] in *. now split.
Qed.

(** X14.  [read_exact(sock, n)] returns the next [n] bytes of the stream,
    or all that is left of it when that is less, and takes nothing more
    from the connection: what follows stays to be read.  So it returns
    [n] bytes when the stream has them, and fewer only at its end. *)
Theorem read_exact_stream (sock : socket) (n : Z) :
  fst (read_exact sock n) = firstn (Z.to_nat n) (stream sock)
  /\ stream (snd (read_exact sock n)) = skipn (Z.to_nat n) (stream sock)
  /\ len (fst (read_exact sock n)) = Z.min (Z.max n 0) (len (stream sock)).
Proof.
  destruct (read_exact_takes sock n) as [Htaken Hleft].
  split; [exact Htaken|]. split; [exact Hleft|].
  rewrite Htaken. unfold len. rewrite length_firstn. lia.
Qed.

Lemma contains_app_l (sep data more : bytes) :
  sep <> [] ->
  contains sep data = true -> contains sep (data ++ more)%list = true.
Proof.
  intros Hsep. unfold contains at 1.
  destruct (split_once sep data) as [[h r]|] eqn:E; [|discriminate].
  intros _. apply split_once_sound in E. subst data.
  rewrite <- !app_assoc. now apply contains_complete.
Qed.

(** The first loop of [recv_http] returns a prefix of the stream that has
    the separator or is the whole stream, and does not raise on a stream
    within the limit. *)
Lemma recv_headers_stream (k : nat) :
  forall (data : bytes) (sock : socket),
    (pending sock < k)%nat ->
    (forall data',
        fst (recv_headers data sock) = Return data' ->
        (data' ++ stream (snd (recv_headers data sock)))%list
        = (data ++ stream sock)%list
        /\ (contains SEPARATOR data' = true
            \/ stream (snd (recv_headers data sock)) = []))
    /\ (len (data ++ stream sock)%list <= 2000000 ->
        exists data', fst (recv_headers data sock) = Return data').
Proof.
  induction k as [|k IH]; intros data sock Hk; [lia|].
  rewrite recv_headers_step.
  destruct (contains SEPARATOR data) eqn:Hc.
  { cbn. split.
    - intros data' [= <-]. split; [reflexivity | now left].
    - intros _. eexists. reflexivity. }
  destruct (recv 4096 sock) as [[|x chunk] sock'] eqn:Hrecv.
  - destruct (recv_stream 4096 _ _ _ eq_refl Hrecv) as (Hs & _ & Hnil).
    specialize (Hnil eq_refl). rewrite Hnil in Hs. cbn in Hs.
    cbn [fst snd]. rewrite Hnil, <- Hs. split.
    + intros data' [= <-]. split; [reflexivity | now right].
    + intros _. eexists. reflexivity.
  - destruct (recv_stream 4096 _ _ _ eq_refl Hrecv) as (Hs & _ & _).
    assert (Hlt : (pending sock' < k)%nat).
    { assert (Hne : x :: chunk <> []) by discriminate.
      pose proof (recv_pending _ _ _ _ Hrecv Hne). lia. }
    destruct (IH (data ++ x :: chunk)%list sock' Hlt) as [IH1 IH2].
    rewrite Hs, app_assoc.
    destruct (2000000 <? len (data ++ x :: chunk)%list) eqn:Hbig.
    + cbn [fst snd]. split; [discriminate|].
      apply Z.ltb_lt in Hbig. unfold len in *.
      rewrite length_app. lia.
    + now split.
Qed.

Section FramingProperties.
Context {float : Type} {L : PyLib float}.
Variable home_page : str.

(** X15.  The message that [recv_http] returns is what the connection
    delivered up to the place the reader stopped at: followed by what is
    still to be read, it is the stream.  No byte is lost, added or
    reordered, with or without a [Content-Length]. *)
Theorem recv_http_prefix (sock : socket) (data : bytes) :
  fst (recv_http sock) = Return data ->
  (data ++ stream (snd (recv_http sock)))%list = stream sock.
Proof.
  unfold recv_http.
  destruct (recv_headers_stream (S (pending sock)) [] sock ltac:(lia))
    as [Hscan _].
  destruct (recv_headers [] sock) as [[data0|e] s1]; [|discriminate].
  destruct (Hscan data0 eq_refl) as [Hpre _]. cbn [fst snd app] in Hpre.
  destruct (split_once SEPARATOR data0) as [[header_blob rest]|] eqn:Hsplit.
  2: { now intros [= <-]. }
  apply split_once_sound in Hsplit.
  destruct (dict_get _ _) as [cl|]; [|now intros [= <-]].
  destruct (int_of_str cl) as [n|]; [|discriminate].
  destruct (0 <? n - len rest).
  - destruct (read_exact_takes s1 (n - len rest)) as [Hmore Hleft].
    destruct (read_exact s1 (n - len rest)) as [more s2].
    cbn [fst snd] in *. intros [= <-].
    rewrite Hleft, Hmore, <- Hpre, Hsplit. unfold SEPARATOR.
    rewrite <- app_assoc. cbn [app]. rewrite <- app_assoc.
    rewrite firstn_skipn. now rewrite <- !app_assoc.
  - cbn [fst snd]. intros [= <-]. now rewrite <- Hpre, Hsplit.
Qed.

Lemma prefixb_same_head (sep a r r' : bytes) :
  (List.length sep <= List.length a)%nat ->
  prefixb sep (a ++ r)%list = prefixb sep (a ++ r')%list.
Proof.
  revert a. induction sep as [|s sep IH]; intros a Hle; [reflexivity|].
  destruct a as [|y a]; cbn in Hle; [lia|].
  cbn. f_equal. apply IH. lia.
Qed.

(** Where [data] is split does not depend on what follows the separator. *)
Lemma split_once_rest (sep data h r r' : bytes) :
  sep <> [] ->
  split_once sep data = Some (h, r) ->
  split_once sep (h ++ sep ++ r')%list = Some (h, r').
Proof.
  intros Hsep. revert h.
  induction data as [|x data IH]; intros h H; [discriminate|].
  rewrite split_once_cons in H.
  destruct (prefixb sep (x :: data)) eqn:Hp.
  - injection H as <- _. cbn [app].
    destruct sep as [|s sep]; [congruence|].
    change ((s :: sep) ++ r')%list with (s :: (sep ++ r'))%list.
    rewrite split_once_cons.
    change (s :: (sep ++ r'))%list with ((s :: sep) ++ r')%list.
    rewrite prefixb_app, skipn_app, skipn_all, Nat.sub_diag.
    reflexivity.
  - destruct (split_once sep data) as [[h1 r1]|] eqn:Hrec; [|discriminate].
    injection H as <- <-.
    pose proof (split_once_sound _ _ _ _ Hrec) as Hdata.
    change ((x :: h1) ++ sep ++ r')%list with (x :: (h1 ++ sep ++ r'))%list.
    rewrite split_once_cons, (IH h1 eq_refl).
    replace (prefixb sep (x :: h1 ++ sep ++ r')%list) with false;
      [reflexivity|].
    rewrite <- Hp, Hdata.
    change (x :: h1 ++ sep ++ r')%list with ((x :: h1) ++ sep ++ r')%list.
    change (x :: h1 ++ sep ++ r1)%list with ((x :: h1) ++ sep ++ r1)%list.
    rewrite !(app_assoc (x :: h1)).
    apply prefixb_same_head. rewrite length_app. lia.
Qed.

(** X16.  When the framed message has a [Content-Length] that [int] reads
    as [n], [recv_http] returns the header block, the separator and a body
    that is the body [parse_request] will find; that body has at least [n]
    bytes unless the stream ended first: a short body means the peer
    closed, not that the reader stopped early. *)
Theorem recv_http_body_complete (sock : socket) (cl : str) (n : Z) :
  framed_content_length sock = Some cl ->
  int_of_str cl = Some n ->
  exists header_blob body,
    fst (recv_http sock) = Return (header_blob ++ SEPARATOR ++ body)%list
    /\ split_once SEPARATOR (header_blob ++ SEPARATOR ++ body)%list
       = Some (header_blob, body)
    /\ (len body < n -> stream (snd (recv_http sock)) = []).
Proof.
  unfold framed_content_length, recv_http.
  destruct (recv_headers [] sock) as [[data0|e] s1]; [|discriminate].
  destruct (split_once SEPARATOR data0) as [[header_blob rest]|] eqn:Hsplit;
    [|discriminate].
  intros -> ->. exists header_blob.
  destruct (0 <? n - len rest) eqn:Hmissing.
  - destruct (read_exact_takes s1 (n - len rest)) as [Hmore Hleft].
    destruct (read_exact s1 (n - len rest)) as [more s2].
    cbn [fst snd] in *. exists (rest ++ more)%list.
    split; [reflexivity|]. split.
    + eapply split_once_rest; [discriminate | exact Hsplit].
    + intros Hshort. rewrite Hleft. apply skipn_all2.
      unfold len in *. rewrite length_app, Hmore, length_firstn in Hshort.
      lia.
  - exists rest. cbn [fst snd]. split; [reflexivity|]. split.
    + eapply split_once_rest; [discriminate | exact Hsplit].
    + apply Z.ltb_ge in Hmissing. lia.
Qed.

(** X17.  A connection that is closed before the blank line that ends the
    headers, with no more than 2,000,000 bytes sent: [recv_http] returns
    all that was sent, [parse_request] rejects it, and the client gets the
    500 "Malformed HTTP request"; the store is as it was. *)
Theorem truncated_request_is_500
    (conn : socket) (now : float) (st : State float) :
  contains SEPARATOR (stream conn) = false ->
  len (stream conn) <= 2000000 ->
  fst (recv_http conn) = Return (stream conn)
  /\ handle_client home_page conn now st =
     (json_response 500
        (PDict [ ("error", PStr "Internal server error");
                 ("detail",
                  PStr "Malformed HTTP request (missing header/body separator)")
               ]),
      st).
Proof.
  intros Hnone Hsmall.
  destruct (recv_headers_stream (S (pending conn)) [] conn ltac:(lia))
    as [Hscan Hreturns].
  destruct (Hreturns Hsmall) as [data Hdata].
  destruct (Hscan data Hdata) as [Hpre Hend]. cbn [app] in Hpre.
  assert (Hall : data = stream conn).
  { destruct Hend as [Hsep | Hnil].
    - apply (contains_app_l _ _ (stream (snd (recv_headers [] conn))))
        in Hsep; [|discriminate].
      rewrite Hpre in Hsep. congruence.
    - now rewrite Hnil, app_nil_r in Hpre. }
  subst data.
  assert (Hsplit : split_once SEPARATOR (stream conn) = None).
  { unfold contains in Hnone.
    now destruct (split_once SEPARATOR (stream conn)). }
  assert (Hrecv : fst (recv_http conn) = Return (stream conn)).
  { unfold recv_http.
    destruct (recv_headers [] conn) as [r s1]. cbn [fst] in Hdata.
    subst r. now rewrite Hsplit. }
  split; [exact Hrecv|].
  unfold handle_client, serve. run_monad. rewrite Hrecv.
  unfold parse_request. now rewrite Hsplit.
Qed.

End FramingProperties.

Section FramingAndParsing.
Context {float : Type} {L : PyLib float}.

(** X18.  [recv_http] and [parse_request] each read the header lines; they
    agree.  When the message [recv_http] returns is one [parse_request]
    accepts, the [content-length] by which the body was framed is the
    [content-length] header of the request, and the request has none
    exactly when the reader framed the message without one. *)
Theorem framing_agrees_with_parser
    (sock : socket) (raw : bytes) (req : Request) :
  fst (recv_http sock) = Return raw ->
  parse_request raw = Return req ->
  framed_content_length sock = dict_get "content-length" (headers req).
Proof.
  unfold recv_http, framed_content_length.
  destruct (recv_headers [] sock) as [[data0|e] s1]; [|discriminate].
  assert (Hparse : forall header_blob rest body,
             split_once SEPARATOR data0 = Some (header_blob, rest) ->
             parse_request (header_blob ++ SEPARATOR ++ body)%list
             = Return req ->
             headers req
             = header_dict (tl (bytes_split CRLF_bytes header_blob))).
  { intros header_blob rest body Hsplit. unfold parse_request.
    assert (Hsep : SEPARATOR <> []) by discriminate.
    rewrite (split_once_rest _ _ _ _ body Hsep Hsplit).
    destruct (bytes_split CRLF_bytes header_blob) as [|line0 lines];
      [discriminate|].
    destruct (split_ws (decode line0)) as [|m [|t [|v [|]]]];
      try discriminate.
    destruct (negb (startswith v "HTTP/")); [discriminate|].
    destruct (urlparse t) as [[p qs]|e]; [|discriminate].
    now intros [= <-]. }
  destruct (split_once SEPARATOR data0) as [[header_blob rest]|] eqn:Hsplit.
  2: { intros [= <-]. unfold parse_request. now rewrite Hsplit. }
  pose proof (split_once_sound _ _ _ _ Hsplit) as Hdata.
  destruct (dict_get "content-length" _) as [cl|] eqn:Hcl.
  - destruct (int_of_str cl) as [n|]; [|discriminate].
    destruct (0 <? n - len rest).
    + destruct (read_exact s1 (n - len rest)) as [more s2].
      cbn [fst]. intros [= <-] Hreq.
      now rewrite (Hparse _ _ _ eq_refl Hreq), Hcl.
    + cbn [fst]. intros [= <-] Hreq.
      now rewrite (Hparse _ _ _ eq_refl Hreq), Hcl.
  - cbn [fst]. intros [= <-] Hreq. rewrite Hdata in Hreq.
    now rewrite (Hparse _ _ _ eq_refl Hreq), Hcl.
Qed.

End FramingAndParsing.

(** ** Frame reader: the two failures, and the failures of [recv] *)

Lemma app_same_length {A} (a a' b b' : list A) :
  List.length a = List.length a' ->
  (a ++ b)%list = (a' ++ b')%list -> a = a' /\ b = b'.
Proof.
  revert a'. induction a as [|x a IH]; intros [|x' a'] Hlen Heq;
    try discriminate; cbn in *.
  - now split.
  - injection Heq as -> Heq. injection Hlen as Hlen.
    destruct (IH a' Hlen Heq) as [-> ->]. now split.
Qed.

(** [split_once] cuts at the first separator. *)
Lemma split_once_first (sep h r : bytes) :
  sep <> [] ->
  (forall h' r',
      (h ++ sep ++ r)%list = (h' ++ sep ++ r')%list ->
      (List.length h <= List.length h')%nat) ->
  split_once sep (h ++ sep ++ r)%list = Some (h, r).
Proof.
  intros Hsep Hfirst.
  pose proof (contains_complete sep h r Hsep) as Hc. unfold contains in Hc.
  destruct (split_once sep (h ++ sep ++ r)%list) as [[h0 r0]|] eqn:E;
    [|discriminate].
  pose proof (split_once_sound _ _ _ _ E) as Hdata.
  pose proof (split_once_leftmost _ _ _ _ E h r eq_refl) as Hle.
  pose proof (Hfirst h0 r0 Hdata) as Hge.
  destruct (app_same_length h h0 _ _ ltac:(lia) Hdata) as [-> Hrest].
  apply app_inv_head in Hrest. now subst r0.
Qed.

Lemma rounds_grow (s s' : bytes * socket) :
  clos_refl_trans_1n _ round s s' -> len (fst s) <= len (fst s').
Proof.
  induction 1 as [s | s y s' Hround _ IH]; [lia|].
  destruct Hround as [data sock chunk sock' _ _ _]. cbn [fst] in *.
  unfold len in *. rewrite length_app in IH. lia.
Qed.

(** Rounds that end within the limit with the separator in the buffer are
    what the loop does, and it returns that buffer. *)
Lemma rounds_return (s s' : bytes * socket) :
  clos_refl_trans_1n _ round s s' ->
  len (fst s') <= 2000000 ->
  contains SEPARATOR (fst s') = true ->
  recv_headers (fst s) (snd s) = (Return (fst s'), snd s').
Proof.
  induction 1 as [s | s y s' Hround Hrest IH]; intros Hle Hsep.
  - rewrite recv_headers_step, Hsep. now destruct s.
  - pose proof (rounds_grow _ _ Hrest) as Hgrow.
    destruct Hround as [data sock chunk sock' Hnone Hrecv Hne].
    cbn [fst snd] in *.
    rewrite recv_headers_step, Hnone, Hrecv.
    destruct chunk as [|x chunk]; [congruence|].
    replace (2000000 <? len (data ++ x :: chunk)%list) with false
      by (symmetry; apply Z.ltb_ge; lia).
    now apply IH.
Qed.

(** A buffer that the loop returns with the separator in it was reached by
    rounds, within the limit. *)
Lemma recv_headers_rounds (n : nat) :
  forall (data data' : bytes) (sock sock' : socket),
    (pending sock < n)%nat ->
    recv_headers data sock = (Return data', sock') ->
    contains SEPARATOR data' = true ->
    len data <= 2000000 ->
    clos_refl_trans_1n _ round (data, sock) (data', sock')
    /\ len data' <= 2000000.
Proof.
  induction n as [|n IH]; intros data data' sock sock' Hn H Hsep Hle; [lia|].
  rewrite recv_headers_step in H.
  destruct (contains SEPARATOR data) eqn:Hnone.
  - injection H as <- <-. split; [apply Relation_Operators.rt1n_refl | lia].
  - destruct (recv 4096 sock) as [[|x chunk] sock1] eqn:Hrecv.
    + injection H as <- <-. congruence.
    + destruct (2000000 <? len (data ++ x :: chunk)%list) eqn:E;
        [discriminate|].
      apply Z.ltb_ge in E.
      assert (Hne : x :: chunk <> []) by discriminate.
      pose proof (recv_pending _ _ _ _ Hrecv Hne) as Hlt.
      assert (Hn1 : (pending sock1 < n)%nat) by lia.
      destruct (IH _ _ _ _ Hn1 H Hsep E) as [Hrounds Hle'].
      split; [|assumption].
      eapply Relation_Operators.rt1n_trans; [|exact Hrounds].
      now constructor.
Qed.

Section FailureProperties.
Context {float : Type} {L : PyLib float}.

(** The value the header loop keeps for a name is that of the last line
    that gives the name, and a name it keeps was given by a line. *)
Lemma header_dict_last (lines : list bytes) (name value : str) :
  last_header name lines value ->
  dict_get name (header_dict lines) = Some value.
Proof.
  intros (before & line & after & -> & Hline & Hafter).
  rewrite header_dict_app. cbn [fold_left]. rewrite Hline.
  rewrite header_fold_other by assumption.
  apply dict_get_set_same.
Qed.

Lemma header_dict_given (lines : list bytes) (name value : str) :
  dict_get name (header_dict lines) = Some value ->
  last_header name lines value.
Proof.
  induction lines as [|x lines IH] using rev_ind; [discriminate|].
  rewrite header_dict_app. cbn [fold_left].
  destruct (header_of x) as [[k v]|] eqn:Hx.
  - destruct (String.eqb k name) eqn:E.
    + apply String.eqb_eq in E. subst k. rewrite dict_get_set_same.
      intros [= <-]. exists lines, x, []. now repeat split.
    + apply String.eqb_neq in E. rewrite dict_get_set_other by assumption.
      intros H. destruct (IH H) as (before & line & after & -> & Hl & Ha).
      exists before, line, (after ++ [x])%list.
      split; [now rewrite <- app_assoc|]. split; [assumption|].
      intros l w Hin. apply in_app_iff in Hin as [Hin | [<- | []]];
        [now apply Ha | congruence].
  - intros H. destruct (IH H) as (before & line & after & -> & Hl & Ha).
    exists before, line, (after ++ [x])%list.
    split; [now rewrite <- app_assoc|]. split; [assumption|].
    intros l w Hin. apply in_app_iff in Hin as [Hin | [<- | []]];
      [now apply Ha | congruence].
Qed.

(** The [content-length] that [recv_http] looks up is the one of the last
    header line of the framed message that gives one. *)
Lemma invalid_content_length_lookup (sock : socket) :
  invalid_content_length sock <->
  exists cl, framed_content_length sock = Some cl /\ int_of_str cl = None.
Proof.
  unfold invalid_content_length, framed, framed_content_length,
    header_lines.
  split.
  - intros (header_blob & rest & value & (sock' & Hrounds & Hle & Hfirst)
            & Hlast & Hint).
    exists value. split; [|assumption].
    assert (Hsep : SEPARATOR <> []) by discriminate.
    apply rounds_return in Hrounds;
      [|assumption | now apply contains_complete].
    cbn [fst snd] in Hrounds. rewrite Hrounds.
    rewrite (split_once_first _ _ _ Hsep Hfirst).
    now apply header_dict_last.
  - intros (cl & Hcl & Hint).
    destruct (recv_headers [] sock) as [[data|e] sock1] eqn:Hscan;
      [|discriminate].
    destruct (split_once SEPARATOR data) as [[header_blob rest]|] eqn:Hsplit;
      [|discriminate].
    pose proof (split_once_sound _ _ _ _ Hsplit) as Hdata.
    assert (Hsep : contains SEPARATOR data = true)
      by (unfold contains; now rewrite Hsplit).
    destruct (recv_headers_rounds (S (pending sock)) [] data sock sock1
                ltac:(lia) Hscan Hsep ltac:(cbn; lia)) as [Hrounds Hle].
    exists header_blob, rest, cl. subst data.
    split; [|split; [now apply header_dict_given | assumption]].
    exists sock1. split; [assumption|]. split; [assumption|].
    intros h' r' Heq. eapply split_once_leftmost; eassumption.
Qed.

(** *** Channels *)

Lemma channel_recv_clean (bufsize : Z) (sock : socket) :
  Channel.recv bufsize (Channel.clean sock)
  = (Return (fst (recv bufsize sock)), Channel.clean (snd (recv bufsize sock))).
Proof.
  unfold Channel.recv, recv, Channel.clean.
  destruct sock as [|[|y seg] rest]; cbn [map]; try reflexivity.
  now destruct (len (y :: seg) <=? bufsize).
Qed.

Lemma channel_read_exact_loop_step
    (ch : Channel.channel) (remaining : Z) (chunks : list bytes) :
  Channel.read_exact_loop ch remaining chunks =
  if 0 <? remaining then
    match Channel.recv (Z.min remaining 4096) ch with
    | (Raise e, ch') => (Raise e, ch')
    | (Return [], ch') => (Return chunks, ch')
    | (Return chunk, ch') =>
        Channel.read_exact_loop ch' (remaining - len chunk)
                                (chunks ++ [chunk])%list
    end
  else (Return chunks, ch).
Proof.
  rewrite Channel.read_exact_loop_equation_1.
  destruct (0 <? remaining); cbn; [|reflexivity].
  now destruct (Channel.recv (Z.min remaining 4096) ch)
    as [[[|x chunk]|e] ch'].
Qed.

Lemma channel_recv_headers_step (data : bytes) (ch : Channel.channel) :
  Channel.recv_headers data ch =
  if contains SEPARATOR data then (Return data, ch)
  else
    match Channel.recv 4096 ch with
    | (Raise e, ch') => (Raise e, ch')
    | (Return [], ch') => (Return data, ch')
    | (Return chunk, ch') =>
        if 2000000 <? len (data ++ chunk)%list
        then (Raise (ValueError "Request too large"), ch')
        else Channel.recv_headers (data ++ chunk)%list ch'
    end.
Proof.
  rewrite Channel.recv_headers_equation_1.
  destruct (contains SEPARATOR data); cbn; [reflexivity|].
  now destruct (Channel.recv 4096 ch) as [[[|x chunk]|e] ch'].
Qed.

(** On a channel that never fails the functions do what they do on the
    socket. *)
Lemma channel_read_exact_loop_clean (n : nat) :
  forall (sock : socket) (remaining : Z) (chunks : list bytes),
    (pending sock < n)%nat ->
    Channel.read_exact_loop (Channel.clean sock) remaining chunks
    = (Return (fst (read_exact_loop sock remaining chunks)),
       Channel.clean (snd (read_exact_loop sock remaining chunks))).
Proof.
  induction n as [|n IH]; intros sock remaining chunks Hn; [lia|].
  rewrite channel_read_exact_loop_step, read_exact_loop_step.
  destruct (0 <? remaining); [|reflexivity].
  rewrite channel_recv_clean.
  destruct (recv (Z.min remaining 4096) sock) as [[|x chunk] sock'] eqn:Hrecv;
    cbn [fst snd]; [reflexivity|].
  apply IH.
  assert (Hne : x :: chunk <> []) by discriminate.
  pose proof (recv_pending _ _ _ _ Hrecv Hne). lia.
Qed.

Lemma channel_recv_headers_clean (n : nat) :
  forall (sock : socket) (data : bytes),
    (pending sock < n)%nat ->
    Channel.recv_headers data (Channel.clean sock)
    = (fst (recv_headers data sock),
       Channel.clean (snd (recv_headers data sock))).
Proof.
  induction n as [|n IH]; intros sock data Hn; [lia|].
  rewrite channel_recv_headers_step, recv_headers_step.
  destruct (contains SEPARATOR data); [reflexivity|].
  rewrite channel_recv_clean.
  destruct (recv 4096 sock) as [[|x chunk] sock'] eqn:Hrecv;
    cbn [fst snd]; [reflexivity|].
  destruct (2000000 <? len (data ++ x :: chunk)%list); [reflexivity|].
  apply IH.
  assert (Hne : x :: chunk <> []) by discriminate.
  pose proof (recv_pending _ _ _ _ Hrecv Hne). lia.
Qed.

Lemma channel_recv_http_clean (sock : socket) :
  Channel.recv_http (Channel.clean sock)
  = (fst (recv_http sock), Channel.clean (snd (recv_http sock))).
Proof.
  unfold Channel.recv_http, recv_http.
  rewrite (channel_recv_headers_clean (S (pending sock))) by lia.
  destruct (recv_headers [] sock) as [[data|e] sock1]; cbn [fst snd];
    [|reflexivity].
  destruct (split_once SEPARATOR data) as [[header_blob rest]|];
    [|reflexivity].
  destruct (dict_get "content-length" _) as [cl|]; [|reflexivity].
  destruct (int_of_str cl) as [length|]; [|reflexivity].
  destruct (0 <? length - len rest); [|reflexivity].
  unfold Channel.read_exact, read_exact.
  rewrite (channel_read_exact_loop_clean (S (pending sock1))) by lia.
  now destruct (read_exact_loop sock1 (length - len rest) []).
Qed.

(** What [recv] raises is a failure of the channel, and what it leaves
    has no failure that the channel did not have. *)
Lemma channel_recv_failure (bufsize : Z) (ch ch' : Channel.channel)
    (r : result bytes) :
  Channel.recv bufsize ch = (r, ch') ->
  (forall e, r = Raise e -> In (Channel.Failure e) ch)
  /\ (forall e, In (Channel.Failure e) ch' -> In (Channel.Failure e) ch).
Proof.
  unfold Channel.recv.
  destruct ch as [|[[|y seg]|e0] rest].
  - intros [= <- <-]. split; [discriminate | tauto].
  - intros [= <- <-]. split; [discriminate | intros e []].
  - destruct (len (y :: seg) <=? bufsize); intros [= <- <-];
      (split; [discriminate|]); intros e Hin.
    + now right.
    + destruct Hin as [Hin | Hin]; [discriminate | now right].
  - intros [= <- <-]. split.
    + intros e [= ->]. now left.
    + intros e Hin. now right.
Qed.

Lemma channel_pending_recv (bufsize : Z) (ch ch' : Channel.channel)
    (x : byte) (chunk : bytes) :
  Channel.recv bufsize ch = (Return (x :: chunk), ch') ->
  (Channel.pending ch' < Channel.pending ch)%nat.
Proof. intros H. Channel.recv_decreases H. Qed.

Lemma channel_read_exact_loop_failure (n : nat) :
  forall (ch ch' : Channel.channel) (remaining : Z) (chunks : list bytes)
         (r : result (list bytes)),
    (Channel.pending ch < n)%nat ->
    Channel.read_exact_loop ch remaining chunks = (r, ch') ->
    forall e, r = Raise e -> In (Channel.Failure e) ch.
Proof.
  induction n as [|n IH]; intros ch ch' remaining chunks r Hn H e ->; [lia|].
  rewrite channel_read_exact_loop_step in H.
  destruct (0 <? remaining); [|discriminate].
  destruct (Channel.recv (Z.min remaining 4096) ch)
    as [[[|x chunk]|e0] ch1] eqn:Hrecv.
  - discriminate.
  - destruct (channel_recv_failure _ _ _ _ Hrecv) as [_ Hrest].
    apply Hrest. eapply IH; [|exact H | reflexivity].
    pose proof (channel_pending_recv _ _ _ _ _ Hrecv). lia.
  - injection H as <- _.
    destruct (channel_recv_failure _ _ _ _ Hrecv) as [Hraise _].
    now apply Hraise.
Qed.

Lemma channel_recv_headers_failure (n : nat) :
  forall (ch ch' : Channel.channel) (data : bytes) (r : result bytes),
    (Channel.pending ch < n)%nat ->
    Channel.recv_headers data ch = (r, ch') ->
    (forall e, r = Raise e ->
               e = ValueError "Request too large"
               \/ In (Channel.Failure e) ch)
    /\ (forall e, In (Channel.Failure e) ch' -> In (Channel.Failure e) ch).
Proof.
  induction n as [|n IH]; intros ch ch' data r Hn H; [lia|].
  rewrite channel_recv_headers_step in H.
  destruct (contains SEPARATOR data).
  { injection H as <- <-. split; [discriminate | tauto]. }
  destruct (Channel.recv 4096 ch) as [[[|x chunk]|e0] ch1] eqn:Hrecv;
    destruct (channel_recv_failure _ _ _ _ Hrecv) as [Hraise Hrest].
  - injection H as <- <-. split; [discriminate | assumption].
  - destruct (2000000 <? len (data ++ x :: chunk)%list).
    + injection H as <- <-. split; [|assumption].
      intros e [= <-]. now left.
    + pose proof (channel_pending_recv _ _ _ _ _ Hrecv) as Hlt.
      assert (Hn1 : (Channel.pending ch1 < n)%nat) by lia.
      destruct (IH _ _ _ _ Hn1 H) as [IH1 IH2]. split.
      * intros e He. destruct (IH1 e He) as [-> | Hin];
          [now left | right; now apply Hrest].
      * intros e Hin. now apply Hrest, IH2.
  - injection H as <- <-. split; [|assumption].
    intros e [= <-]. right. now apply Hraise.
Qed.


End FailureProperties.

(** * The model on concrete requests *)

#[local] Existing Instance Sample.lib.

(** [GET /nope] is not found, [PUT /todos] is not allowed, [/todos/abc] is
    not found whatever the method, [GET /todos/12] is not allowed. *)
Lemma route_examples :
  route (L := Sample.lib) "GET" "/nope" = (NOT_FOUND, None)
  /\ route (L := Sample.lib) "PUT" "/todos" = (METHOD_NOT_ALLOWED, None)
  /\ route (L := Sample.lib) "PATCH" "/todos/abc" = (NOT_FOUND, None)
  /\ route (L := Sample.lib) "GET" "/todos/12" = (METHOD_NOT_ALLOWED, None).
Proof.
  split; [|split; [|split]].
  - destruct (route_not_found_vs_method_not_allowed
                (L := Sample.lib) "GET" "/nope") as (H & _).
    apply H; [discriminate | discriminate | discriminate | reflexivity].
  - destruct (route_not_found_vs_method_not_allowed
                (L := Sample.lib) "PUT" "/todos") as (_ & _ & H & _).
    apply H; [reflexivity | discriminate | discriminate].
  - destruct (route_not_found_vs_method_not_allowed
                (L := Sample.lib) "PATCH" "/todos/abc") as (_ & _ & _ & H & _).
    apply (H "abc"); reflexivity.
  - destruct (route_not_found_vs_method_not_allowed
                (L := Sample.lib) "GET" "/todos/12") as (_ & _ & _ & _ & H).
    apply (H "12" 12);
      [reflexivity | reflexivity | discriminate | discriminate].
Defined.

(** A response whose caller names only [Content-Type] has the three
    mandatory lines in its head. *)
Lemma http_response_example :
  let out :=
    http_response 200 (b "hi") (Some [("Content-Type", "text/html")]) in
  head_has_line out "Server" "mini-server" = true
  /\ head_has_line out "Connection" "close" = true
  /\ head_has_line out "Content-Length" "2" = true.
Proof.
  pose proof (http_response_mandatory_headers
                200 (b "hi") (Some [("Content-Type", "text/html")])) as H.
  cbv zeta in H.
  destruct H as (server & connection & length & rest & _ & Hs & Hc & Hn & _
                 & Hhead).
  rewrite (Hs eq_refl), (Hc eq_refl), (Hn eq_refl) in Hhead.
  cbv zeta. apply Hhead. repeat constructor.
Defined.

(** A caller that names [Content-Length] replaces the default: the head of
    the response to a one-byte body then has the line [Content-Length: 999]
    and no line [Content-Length: 1].  And a caller whose [Server] value
    holds an empty line ends the head there: the [Content-Length] line
    comes after it. *)
Lemma caller_content_length_replaces_default :
  let out := http_response 200 (b "x") (Some [("Content-Length", "999")]) in
  let cut_short :=
    http_response 200 (b "x") (Some [("Server", "a" ++ CRLF ++ CRLF ++ "b")]) in
  head_has_line out "Content-Length" (str_of_int (len (b "x"))) = false
  /\ head_has_line out "Content-Length" "999" = true
  /\ head_has_line cut_short "Content-Length" (str_of_int (len (b "x")))
     = false.
Proof. vm_compute. repeat split. Qed.

(** C3 at a body that is a JSON array: [handle_create_todo] raises where the
    specification has it answer 422. *)
Lemma create_array_payload_raises :
  handle_create_todo (L := Sample.lib) (Sample.post_todos "[]") 5
                     Sample.empty_store
  = (Raise (AttributeError "'list' object has no attribute 'get'"),
     Sample.empty_store).
Proof. vm_compute. reflexivity. Qed.

(** And at a [text] that is a number: the handler raises as well. *)
Lemma create_number_text_raises :
  handle_create_todo (L := Sample.lib)
    (Sample.post_todos ("{" ++ Sample.q "text" ++ ": 5}")) 5
    Sample.empty_store
  = (Raise (AttributeError "'int' object has no attribute 'strip'"),
     Sample.empty_store).
Proof. vm_compute. reflexivity. Qed.

(** The query [flag&done=yes&x=&done=no&]: both values of [done], in
    order, and no entry for [x] or for [flag]. *)
Lemma parse_request_query_example :
  exists req,
    parse_request (L := Sample.lib) Sample.flag_query_bytes = Return req
    /\ dict_get "done" (query req) = Some ["yes"; "no"]
    /\ dict_get "x" (query req) = None
    /\ dict_get "flag" (query req) = None.
Proof.
  destruct (parse_request (L := Sample.lib) Sample.flag_query_bytes)
    as [req|e] eqn:Hparse; [|vm_compute in Hparse; discriminate].
  exists req. split; [reflexivity|].
  destruct (parse_request_query (L := Sample.lib) _ _ Hparse)
    as (header_blob & line0 & lines & m & target & version & path & qs
        & H1 & H2 & H3 & H4 & _ & _ & Hquery).
  vm_compute in Hparse. injection Hparse as <-.
  vm_compute in H1. injection H1 as <-.
  vm_compute in H2. injection H2 as <- <-.
  vm_compute in H3. injection H3 as <- <- <-.
  vm_compute in H4. injection H4 as <- <-.
  split; [apply (Hquery "done") | split; [apply (Hquery "x")
                                         | apply (Hquery "flag")]].
Defined.

(** The query string [done=&x=1] spells the field [done] with an empty
    value; the mapping has no entry for [done]. *)
Lemma blank_value_is_dropped :
  query_string [("done", ""); ("x", "1")] = "done=&x=1"
  /\ exists req,
       parse_request (L := Sample.lib) Sample.blank_query_bytes = Return req
       /\ query req = [("x", ["1"])]
       /\ dict_get "done" (query req) = None.
Proof.
  split; [reflexivity|]. eexists. vm_compute. repeat split.
Qed.



(** [Content-Length: -5]: the first segment comes back as it was read and
    the second segment is still in the socket. *)
Lemma negative_content_length_example :
  recv_http (L := Sample.lib) Sample.negative_length_conn
  = (Return (Sample.request_bytes
               ["POST /todos HTTP/1.1"; "Content-Length: -5"] "abc"),
     [b "more"]).
Proof.
  apply (negative_content_length_accepted
           (L := Sample.lib) Sample.negative_length_conn [b "more"]
           (Sample.request_bytes
              ["POST /todos HTTP/1.1"; "Content-Length: -5"] "abc")
           (b ("POST /todos HTTP/1.1" ++ CRLF ++ "Content-Length: -5"))
           (b "abc") "-5" (-5)).
  - vm_compute. reflexivity.
  - vm_compute. reflexivity.
  - vm_compute. reflexivity.
  - vm_compute. reflexivity.
  - lia.
Defined.

(** The store a first creation leaves is one the server can reach. *)
Lemma after_create_reachable :
  reachable (L := Sample.lib) "home" 0
    (snd (handle_client (L := Sample.lib) "home" Sample.create_conn 5
                        Sample.empty_store)).
Proof. apply reachable_step, reachable_init. Qed.

Lemma after_create_store :
  snd (handle_client (L := Sample.lib) "home" Sample.create_conn 5
                     Sample.empty_store)
  = Sample.one_todo.
Proof. vm_compute. reflexivity. Qed.

Lemma initial_reachable :
  reachable (L := Sample.lib) "home" 0 Sample.empty_store.
Proof. apply reachable_init. Qed.

(** The store with one todo has its id 1 below the counter 2; a creation,
    the deletion of the todo it made, and a second creation: the second
    todo has the greater id. *)
Lemma store_invariant_example :
  (NoDup (ids Sample.one_todo)
   /\ Forall (fun i => 1 <= i < 2) (ids Sample.one_todo))
  /\ t_id Sample.first_todo < t_id Sample.second_todo.
Proof.
  split.
  - pose proof after_create_reachable as Hreach.
    rewrite after_create_store in Hreach.
    destruct (store_ids_unique_and_increasing _ _ _ Hreach) as (H1 & H2 & _).
    split; [exact H1 | exact H2].
  - destruct (store_ids_unique_and_increasing _ _ _ initial_reachable)
      as (_ & _ & _ & H).
    apply (H (Sample.post_todos
                ("{" ++ Sample.q "text" ++ ": " ++ Sample.q "ship it" ++ "}"))
             5
             (Return (json_response 201 (todo_obj Sample.first_todo)))
             Sample.one_todo Sample.first_todo
             [(Sample.delete_conn, 6)]
             (Sample.post_todos
                ("{" ++ Sample.q "text" ++ ": " ++ Sample.q "ship it" ++ "}"))
             7
             (Return (json_response 201 (todo_obj Sample.second_todo)))
             {| todos := [Sample.second_todo]; next_id := 3;
                started_at := 0 |}
             Sample.second_todo).
    + vm_compute. reflexivity.
    + reflexivity.
    + vm_compute. reflexivity.
    + vm_compute. reflexivity.
Defined.


(** Two creations whose statements interleave: both read the counter
    before either moves it, and both todos get the id 1. *)
Lemma concurrent_creates_repeat_an_id :
  let st :=
    snd (interleave [0; 1; 0; 0; 1; 1]%nat
                    [AtLine246 "a" 5; AtLine246 "b" 6] Sample.empty_store) in
  ids st = [1; 1] /\ next_id st = 3 /\ ~ NoDup (ids st).
Proof.
  cbv zeta. split; [reflexivity|]. split; [reflexivity|].
  intros Hnd. cbn in Hnd. inversion Hnd as [|? ? Hnot _]. apply Hnot.
  now left.
Qed.


(** A PATCH of todo 1 with the text [" b "] and [done] set to the number 1:
    the answer is 422 and the text of the todo is ["b"]. *)
Lemma patch_422_example :
  let req := Sample.post_todos Sample.patch_body in
  let st' := snd (handle_patch_todo (L := Sample.lib) req 1 Sample.one_todo) in
  fst (handle_patch_todo (L := Sample.lib) req 1 Sample.one_todo)
  = Return (json_response 422 (error_obj "Field 'done' must be boolean"))
  /\ todos st' = [set_text "b" Sample.first_todo]
  /\ st' <> Sample.one_todo.
Proof.
  destruct (patch_422_after_text_is_written
              (L := Sample.lib) (Sample.post_todos Sample.patch_body)
              1 Sample.one_todo Sample.first_todo
              [("text", PStr " b "); ("done", PInt 1)] " b " (PInt 1))
    as (H1 & H2 & _ & H4).
  - reflexivity.
  - reflexivity.
  - vm_compute. reflexivity.
  - reflexivity.
  - vm_compute. discriminate.
  - reflexivity.
  - intros bv. discriminate.
  - cbv zeta. split; [exact H1|]. split; [exact H2|].
    apply H4. vm_compute. discriminate.
Defined.

(** A POST of a JSON array is answered 500, and the store is as it was. *)
Lemma create_array_is_500_example :
  handle_client (L := Sample.lib) "home" Sample.array_conn 5 Sample.empty_store
  = (json_response (L := Sample.lib) 500
       (PDict [ ("error", PStr "Internal server error");
                ("detail", PStr "'list' object has no attribute 'get'") ]),
     Sample.empty_store).
Proof.
  destruct (create_non_object_payload_is_500
              (L := Sample.lib) "home" Sample.array_conn 5
              Sample.empty_store
              (Sample.request_bytes
                 [ "POST /todos HTTP/1.1";
                   "Content-Type: application/json";
                   "Content-Length: 2" ] "[]")
              {| method := "POST"; path := "/todos"; query := [];
                 headers := [("content-type", "application/json");
                             ("content-length", "2")];
                 body := b "[]" |}
              (PList []))
    as (_ & H & _).
  - vm_compute. reflexivity.
  - vm_compute. reflexivity.
  - reflexivity.
  - reflexivity.
  - reflexivity.
  - vm_compute. reflexivity.
  - intros d. discriminate.
  - exact H.
Defined.

(** * The further properties on concrete requests *)


(** A body that itself holds the separator comes back whole. *)
Lemma body_round_trip_example :
  exists head,
    split_once SEPARATOR
      (http_response 200 (SEPARATOR ++ b "x")%list
         (Some [("Content-Type", "text/html")]))
    = Some (head, (SEPARATOR ++ b "x")%list).
Proof.
  apply http_response_body_round_trip.
  repeat constructor.
Defined.

(** Two [Host] lines, the second with other letter case and a space: the
    value is the one of the second. *)
Lemma header_last_wins_example :
  dict_get "host"
    (header_dict [b "Host: a"; b "junk"; b "HOST : b"; b "X: 1"])
  = Some "b".
Proof.
  destruct (header_dict_last_wins
              [b "Host: a"; b "junk"; b "HOST : b"; b "X: 1"])
    as (_ & _ & H).
  apply (H [b "Host: a"; b "junk"] (b "HOST : b") [b "X: 1"]).
  - reflexivity.
  - reflexivity.
  - intros l v [<- | []]. vm_compute. discriminate.
Defined.

(** A message without separator is malformed; the body of a message with two
    separators starts after the first. *)
Lemma parse_request_body_example :
  parse_request [] =
  Raise (ValueError "Malformed HTTP request (missing header/body separator)")
  /\ exists header_blob,
       (b "GET / HTTP/1.1" ++ SEPARATOR ++ b "a" ++ SEPARATOR ++ b "b")%list
       = (header_blob ++ SEPARATOR
          ++ (b "a" ++ SEPARATOR ++ b "b"))%list
       /\ forall h r,
            (b "GET / HTTP/1.1" ++ SEPARATOR ++ b "a" ++ SEPARATOR ++ b "b")%list
            = (h ++ SEPARATOR ++ r)%list ->
            (List.length header_blob <= List.length h)%nat.
Proof.
  split.
  - destruct (parse_request_body []) as [H _]. apply H.
    intros h r Heq. apply (f_equal (@List.length _)) in Heq.
    rewrite !length_app in Heq. cbn in Heq. lia.
  - destruct (parse_request_body
                (b "GET / HTTP/1.1" ++ SEPARATOR ++ b "a"
                 ++ SEPARATOR ++ b "b")%list) as [_ H].
    apply (H {| method := "GET"; path := "/"; query := []; headers := [];
                body := (b "a" ++ SEPARATOR ++ b "b")%list |}).
    vm_compute. reflexivity.
Defined.

(** [GET /todos?done=yes&x=&done=no] on the store with one todo: the values
    of [done] are not an empty list, and the store is as it was. *)
Lemma list_todos_example :
  (["yes"; "no"] : list str) <> []
  /\ snd (handle_list_todos
            {| method := "GET"; path := "/todos";
               query := [("done", ["yes"; "no"])]; headers := [];
               body := [] |}
            Sample.one_todo)
     = Sample.one_todo.
Proof.
  destruct (list_todos_on_parsed_request
              Sample.query_bytes
              {| method := "GET"; path := "/todos";
                 query := [("done", ["yes"; "no"])]; headers := [];
                 body := [] |}
              Sample.one_todo) as (Hvalues & _ & Hstore & _).
  - vm_compute. reflexivity.
  - split; [exact (Hvalues "done" _ eq_refl) | exact Hstore].
Defined.

(** A GET leaves the store with one todo as it is. *)
Lemma get_keeps_store_example :
  snd (handle_client "home" Sample.list_conn 9 Sample.one_todo)
  = Sample.one_todo.
Proof.
  apply only_writes_change_store.
  intros raw req Hrecv Hparse.
  vm_compute in Hrecv. injection Hrecv as <-.
  vm_compute in Hparse. injection Hparse as <-.
  cbn. repeat split; discriminate.
Defined.

(** The todo of the store with one todo has a stripped text. *)
Lemma store_texts_example :
  started_at Sample.one_todo = 0 /\ Forall text_ok (todos Sample.one_todo).
Proof.
  pose proof after_create_reachable as Hreach.
  rewrite after_create_store in Hreach.
  exact (store_texts_stripped _ _ _ Hreach).
Defined.

(** A PATCH with a [text] alone gives the todo that text and keeps its
    [done]. *)
Lemma patch_text_example :
  let req :=
    Sample.post_todos ("{" ++ Sample.q "text" ++ ": "
                       ++ Sample.q "ship it" ++ "}") in
  let draft := set_text "draft" (set_done true Sample.first_todo) in
  let st := set_todos [draft] Sample.one_todo in
  snd (handle_patch_todo (L := Sample.lib) req 1 st)
  = set_todos [set_done true Sample.first_todo] Sample.one_todo.
Proof.
  cbv zeta.
  refine (proj1 (patch_partial_update
                   (L := Sample.lib)
                   (Sample.post_todos ("{" ++ Sample.q "text" ++ ": "
                                       ++ Sample.q "ship it" ++ "}"))
                   1
                   (set_todos
                      [set_text "draft" (set_done true Sample.first_todo)]
                      Sample.one_todo)
                   (set_text "draft" (set_done true Sample.first_todo))
                   [("text", PStr "ship it")]
                   eq_refl eq_refl eq_refl _ _)).
  - right. exists "ship it". split; [reflexivity | vm_compute; discriminate].
  - left. reflexivity.
Defined.

(** The todo created in the empty store is deleted again. *)
Lemma create_then_delete_example :
  handle_delete_todo (L := Sample.lib) (Sample.post_todos "") 1
                     Sample.one_todo
  = (Return (http_response 204 (b "") None),
     {| todos := []; next_id := 2; started_at := 0 |}).
Proof.
  refine (proj2 (create_then_delete
                   (L := Sample.lib) Sample.empty_store
                   Sample.one_todo
                   (Sample.post_todos ("{" ++ Sample.q "text" ++ ": "
                                       ++ Sample.q "ship it" ++ "}"))
                   (Sample.post_todos "") 5
                   (Return (json_response 201
                              (todo_obj Sample.first_todo)))
                   Sample.first_todo _ _ _)).
  - constructor.
  - vm_compute. reflexivity.
  - reflexivity.
Defined.

(** The message read from the connection with a negative [Content-Length]
    and what is left in it make up the stream. *)
Lemma recv_http_prefix_example :
  (Sample.request_bytes ["POST /todos HTTP/1.1"; "Content-Length: -5"] "abc"
   ++ stream (snd (recv_http Sample.negative_length_conn)))%list
  = stream Sample.negative_length_conn.
Proof.
  apply (recv_http_prefix Sample.negative_length_conn).
  vm_compute. reflexivity.
Defined.

(** A body of four bytes is read from a second segment of ten. *)
Lemma body_complete_example :
  exists header_blob body,
    fst (recv_http Sample.two_segment_conn)
    = Return (header_blob ++ SEPARATOR ++ body)%list
    /\ split_once SEPARATOR (header_blob ++ SEPARATOR ++ body)%list
       = Some (header_blob, body)
    /\ (len body < 4 -> stream (snd (recv_http Sample.two_segment_conn)) = []).
Proof.
  apply (recv_http_body_complete Sample.two_segment_conn "4" 4).
  - vm_compute. reflexivity.
  - vm_compute. reflexivity.
Defined.

(** A request line cut in the middle is answered 500. *)
Lemma truncated_request_example :
  fst (recv_http Sample.truncated_conn) = Return (b "GET / HTTP/1.1")
  /\ handle_client "home" Sample.truncated_conn 3 Sample.one_todo =
     (json_response 500
        (PDict [ ("error", PStr "Internal server error");
                 ("detail",
                  PStr "Malformed HTTP request (missing header/body separator)")
               ]),
      Sample.one_todo).
Proof.
  apply (truncated_request_is_500 "home" Sample.truncated_conn 3
           Sample.one_todo).
  - vm_compute. reflexivity.
  - vm_compute. discriminate.
Defined.

(** The body of four bytes was framed by the header the request has. *)
Lemma framing_agrees_example :
  framed_content_length Sample.two_segment_conn = Some "4".
Proof.
  refine (framing_agrees_with_parser
            Sample.two_segment_conn
            (Sample.request_bytes
               ["POST /todos HTTP/1.1"; "Content-Length: 4"] "{}  ")
            {| method := "POST"; path := "/todos"; query := [];
               headers := [("content-length", "4")];
               body := b "{}  " |}
            _ _).
  - vm_compute. reflexivity.
  - vm_compute. reflexivity.
Defined.
